(** * The container runtime of the loader: channels, attach, snapshot, election

    A shallow embedding of [routerlicious/packages/loader/src/runtime.ts]
    (class [Runtime]) together with the collaborators it talks to, and of the
    component-context behaviour exercised by
    [packages/runtime/container-runtime/src/test/componentContext.spec.ts].

    Conventions.
    - A JavaScript [Map<string, V>] is an insertion-ordered association list
      ([JsMap]): iteration order is observable (order of snapshot entries, order
      of resubmitted attach messages).
    - A method of [Runtime] is a function [Runtime -> Result A]: it returns a
      value or throws, and in both cases hands back the state it left behind.
    - Calls to the host callbacks ([submitFn], [emit], leadership proposals) are
      appended, in program order, to the [trace] of the runtime state.
    - Sequence numbers are JavaScript numbers holding integers; they are [Z].
    - Objects that are mutated in place and held in a map (an [IChannelState],
      its delta connection) live in the map: mutating one is writing the map
      entry back under its key. A channel object carries its identity [ref].

    Embedded methods of [Runtime]: [getChannel], [createChannel],
    [attachChannel], [changeConnectionState], [processAttach], [prepareAttach],
    [getQuorum], [hasUnackedOps], [snapshot], [save], [transform], [stop],
    [close], [updateMinSequenceNumber], [snapshotInternal], [submitMessage],
    [registerTasks], [submit], [reserve], [loadSnapshotChannel], [loadChannel],
    [getObjectServices], [verifyNotClosed], [startLeaderElection],
    [initLeaderElection], [proposeLeadership], [runTaskAnalyzer]. The methods
    that only hand over to the host ([ready], [start], [prepare], [process],
    [uploadBlob], [getBlob], [getBlobMetadata]) and the static
    [LoadFromSnapshot], which runs [reserve] and [loadSnapshotChannel] for each
    stored channel, are not. *)

From Stdlib Require Import List String Ascii ZArith Bool Arith.
From Stdlib Require Import DecimalString.
Import ListNotations.
Local Open Scope string_scope.
Local Open Scope Z_scope.

(* ===================================================================== *)
(** ** Insertion-ordered maps with string keys ([Map<string, V>]) *)
(* ===================================================================== *)

Module JsMap.

Definition t (V : Type) : Type := list (string * V).

Definition empty {V : Type} : t V := [].

Fixpoint get {V : Type} (k : string) (m : t V) : option V :=
  match m with
  | [] => None
  | (k', v) :: m' => if String.eqb k k' then Some v else get k m'
  end.

Definition has {V : Type} (k : string) (m : t V) : bool :=
  match get k m with Some _ => true | None => false end.

(** [Map.prototype.set]: an existing key keeps its position and gets the new
    value; a new key is appended at the end. *)
Fixpoint set {V : Type} (k : string) (v : V) (m : t V) : t V :=
  match m with
  | [] => [(k, v)]
  | (k', v') :: m' =>
      if String.eqb k k' then (k', v) :: m' else (k', v') :: set k v m'
  end.

(** [Map.prototype.delete]: the key is bound no more. *)
Fixpoint delete {V : Type} (k : string) (m : t V) : t V :=
  match m with
  | [] => []
  | (k', v') :: m' =>
      if String.eqb k k' then delete k m' else (k', v') :: delete k m'
  end.

Definition keys {V : Type} (m : t V) : list string := map fst m.

Definition values {V : Type} (m : t V) : list V := map snd m.

End JsMap.

(* ===================================================================== *)
(** ** The fragment of JSON the runtime writes and reads *)
(* ===================================================================== *)

Module Json.

Definition dquote : ascii := ascii_of_nat 34.
Definition backslash : ascii := ascii_of_nat 92.

Definition str1 (c : ascii) : string := String c EmptyString.

Definition hexDigit (n : nat) : ascii :=
  if Nat.ltb n 10 then ascii_of_nat (48 + n) else ascii_of_nat (87 + n).

(** How [JSON.stringify] writes one character of a string. *)
Definition escapeChar (c : ascii) : string :=
  let n := nat_of_ascii c in
  if Nat.eqb n 34 then String backslash (str1 dquote)
  else if Nat.eqb n 92 then String backslash (str1 backslash)
  else if Nat.eqb n 8 then String backslash "b"
  else if Nat.eqb n 9 then String backslash "t"
  else if Nat.eqb n 10 then String backslash "n"
  else if Nat.eqb n 12 then String backslash "f"
  else if Nat.eqb n 13 then String backslash "r"
  else if Nat.ltb n 32 then
    String backslash
      ("u00" ++ String (hexDigit (Nat.div n 16)) (str1 (hexDigit (Nat.modulo n 16))))
  else str1 c.

Fixpoint escape (s : string) : string :=
  match s with
  | EmptyString => EmptyString
  | String c s' => escapeChar c ++ escape s'
  end.

(** [JSON.stringify] of a string. *)
Definition stringifyString (s : string) : string :=
  String dquote (escape s ++ str1 dquote).

(** [JSON.stringify] of an integral number. *)
Definition stringifyNumber (n : Z) : string :=
  NilZero.string_of_int (Z.to_int n).

Fixpoint joinComma (l : list string) : string :=
  match l with
  | [] => EmptyString
  | [x] => x
  | x :: l' => x ++ "," ++ joinComma l'
  end.

(** [JSON.stringify] of an array of strings. *)
Definition stringifyStringArray (l : list string) : string :=
  "[" ++ joinComma (map stringifyString l) ++ "]".

(** Reading back an array of strings. The reader is a small automaton over the
    characters of the text. *)
Inductive PState : Type :=
| PStart                       (* before the opening bracket *)
| PElem (first : bool)         (* expecting a string (or the closing bracket) *)
| PStr                         (* inside a string literal *)
| PEsc                         (* just after a backslash *)
| PAfter                       (* after a string: comma or closing bracket *)
| PDone.                       (* after the closing bracket *)

Definition isSpace (c : ascii) : bool :=
  let n := nat_of_ascii c in
  Nat.eqb n 32 || Nat.eqb n 9 || Nat.eqb n 10 || Nat.eqb n 13.

Definition unescapeChar (c : ascii) : option ascii :=
  let n := nat_of_ascii c in
  if Nat.eqb n 34 then Some dquote
  else if Nat.eqb n 92 then Some backslash
  else if Nat.eqb n 47 then Some (ascii_of_nat 47)
  else if Nat.eqb n 98 then Some (ascii_of_nat 8)
  else if Nat.eqb n 116 then Some (ascii_of_nat 9)
  else if Nat.eqb n 110 then Some (ascii_of_nat 10)
  else if Nat.eqb n 102 then Some (ascii_of_nat 12)
  else if Nat.eqb n 114 then Some (ascii_of_nat 13)
  else None.

(** [cur] is the string being read, in reverse; [acc] the strings read so far,
    in reverse. Escapes of the form [\uXXXX] are not read. *)
Fixpoint parseArrayFrom (st : PState) (cur : list ascii) (acc : list string)
         (s : string) : option (list string) :=
  match s with
  | EmptyString =>
      match st with PDone => Some (rev acc) | _ => None end
  | String c s' =>
      let n := nat_of_ascii c in
      match st with
      | PStart =>
          if isSpace c then parseArrayFrom PStart cur acc s'
          else if Nat.eqb n 91 then parseArrayFrom (PElem true) cur acc s'
          else None
      | PElem first =>
          if isSpace c then parseArrayFrom (PElem first) cur acc s'
          else if Nat.eqb n 34 then parseArrayFrom PStr [] acc s'
          else if Nat.eqb n 93 && first then parseArrayFrom PDone cur acc s'
          else None
      | PStr =>
          if Nat.eqb n 34 then
            parseArrayFrom PAfter [] (string_of_list_ascii (rev cur) :: acc) s'
          else if Nat.eqb n 92 then parseArrayFrom PEsc cur acc s'
          else if Nat.ltb n 32 then None
          else parseArrayFrom PStr (c :: cur) acc s'
      | PEsc =>
          match unescapeChar c with
          | Some c' => parseArrayFrom PStr (c' :: cur) acc s'
          | None => None
          end
      | PAfter =>
          if isSpace c then parseArrayFrom PAfter cur acc s'
          else if Nat.eqb n 44 then parseArrayFrom (PElem false) cur acc s'
          else if Nat.eqb n 93 then parseArrayFrom PDone cur acc s'
          else None
      | PDone =>
          if isSpace c then parseArrayFrom PDone cur acc s' else None
      end
  end.

(** [JSON.parse] of a text expected to hold an array of strings. *)
Definition parseStringArray (s : string) : option (list string) :=
  parseArrayFrom PStart [] [] s.

End Json.

(* ===================================================================== *)
(** ** Definitions shared with the host ([@prague/runtime-definitions]) *)
(* ===================================================================== *)

Inductive ConnectionState : Type := Disconnected | Connecting | Connected.

Definition ConnectionState_eqb (a b : ConnectionState) : bool :=
  match a, b with
  | Disconnected, Disconnected | Connecting, Connecting | Connected, Connected => true
  | _, _ => false
  end.

Inductive MessageType : Type := Operation | Attach | Save | BlobUploaded | RemoteHelp.

Inductive FileMode : Type := File | Directory.

(** [TreeEntry[TreeEntry.Blob]] and [TreeEntry[TreeEntry.Tree]] are the names of
    the enumeration members. *)
Inductive TreeEntry : Type := Blob | Tree.

(** [ITree] and [ITreeEntry]: a tree is a list of named entries, each a blob
    or a tree. *)
Inductive ITree : Type :=
| mkTree (entries : list ITreeEntry)
with ITreeEntry : Type :=
| mkTreeEntry (mode : FileMode) (path : string) (type : TreeEntry) (value : EntryValue)
with EntryValue : Type :=
| BlobValue (contents : string) (encoding : string)
| TreeValue (tree : ITree).

Definition entries (t : ITree) : list ITreeEntry :=
  match t with mkTree es => es end.

Definition path (e : ITreeEntry) : string :=
  match e with mkTreeEntry _ p _ _ => p end.

(** [ISnapshotTree]: the stored form of a tree, blobs by id. *)
Inductive ISnapshotTree : Type :=
| mkSnapshotTree (blobs : JsMap.t string) (trees : list ISnapshotSubTree)
with ISnapshotSubTree : Type :=
| mkSnapshotSubTree (name : string) (tree : ISnapshotTree).

Definition blobs (t : ISnapshotTree) : JsMap.t string :=
  match t with mkSnapshotTree b _ => b end.

(** [IObjectAttributes], the content of a channel's [.attributes] blob. *)
Record IObjectAttributes : Type := mkObjectAttributes {
  attr_sequenceNumber : Z;
  attr_type : string
}.

(** [JSON.stringify(objectAttributes)]. *)
Definition stringifyObjectAttributes (a : IObjectAttributes) : string :=
  "{" ++ Json.stringifyString "sequenceNumber" ++ ":"
      ++ Json.stringifyNumber (attr_sequenceNumber a) ++ ","
      ++ Json.stringifyString "type" ++ ":"
      ++ Json.stringifyString (attr_type a) ++ "}".

(** [IAttachMessage]. *)
Record IAttachMessage : Type := mkAttachMessage {
  am_id : string;
  am_snapshot : ITree;
  am_type : string
}.

(** [IEnvelope], the routing wrapper of a channel operation. *)
Record IEnvelope : Type := mkEnvelope {
  address : string;
  env_contents : string
}.

(** [ISequencedDocumentMessage], with the contents already seen at the type
    the receiving method casts them to. *)
Record ISequencedDocumentMessage (C : Type) : Type := mkSequencedMessage {
  contents : C;
  minimumSequenceNumber : Z;
  referenceSequenceNumber : Z;
  sequenceNumber : Z;
  origin : option string        (* [message.origin.id], when there is an origin *)
}.
Arguments mkSequencedMessage {C}.
Arguments contents {C}.
Arguments minimumSequenceNumber {C}.
Arguments referenceSequenceNumber {C}.
Arguments sequenceNumber {C}.
Arguments origin {C}.

Record IHelpMessage : Type := mkHelpMessage {
  help_tasks : list string;
  help_version : option string
}.

(** A member of the quorum. *)
Record IClient : Type := mkClient { client_type : string }.

Definition Browser : string := "browser".

(* ===================================================================== *)
(** ** Channels and their delta connections *)
(* ===================================================================== *)

(** [IChannel]: a channel object as the runtime sees it. The channel is an
    object of the host program; [ref] is its identity (what [assert.equal]
    compares), the other fields are what its methods currently answer. *)
Module IChannel.
Record t : Type := mk {
  ref : nat;
  id : string;
  type : string;
  isLocal : bool;
  dirty : bool;
  snapshot : ITree;
  transform : string -> Z -> string
}.
End IChannel.

Module ChannelDeltaConnection.

(** Modelled from the spec: the class [ChannelDeltaConnection]
    ([./channelDeltaConnection] is not among the sources). The spec gives it a
    connection state, a base mapping that is established by [setBaseMapping]
    and by nothing else, and a minimum sequence number. *)
Record t : Type := mk {
  id : string;
  connectionState : ConnectionState;
  baseMapping : option (Z * Z);   (* (local sequence number, document sequence number) *)
  minimumSequenceNumber : Z
}.

(** Modelled from the spec: [new ChannelDeltaConnection(id, state, submitFn)];
    no mapping yet, local numbering starts at zero. *)
Definition new (id : string) (state : ConnectionState) : t :=
  mk id state None 0.

(** Modelled from the spec: [baseMappingIsSet()]. *)
Definition baseMappingIsSet (c : t) : bool :=
  match baseMapping c with Some _ => true | None => false end.

(** Modelled from the spec: [setBaseMapping(localSequenceNumber,
    minimumSequenceNumber)] establishes the mapping and fails if called
    twice. *)
Definition setBaseMapping (localSequenceNumber documentSequenceNumber : Z) (c : t)
  : option t :=
  if baseMappingIsSet c then None
  else Some (mk (id c) (connectionState c)
                (Some (localSequenceNumber, documentSequenceNumber))
                (minimumSequenceNumber c)).

(** Modelled from the spec: translation of a document sequence number into the
    channel's numbering, subtracting the mapping point and flooring at zero. *)
Definition transformDocumentSequenceNumber (n : Z) (c : t) : option Z :=
  match baseMapping c with
  | Some (l, d) => Some (Z.max 0 (n - d + l))
  | None => None
  end.

(** Modelled from the spec: [updateMinSequenceNumber(msn)] advances the
    low-water mark (a value not above the current one changes nothing);
    without a mapping it has no effect. *)
Definition updateMinSequenceNumber (msn : Z) (c : t) : t :=
  if baseMappingIsSet c
  then mk (id c) (connectionState c) (baseMapping c)
          (Z.max (minimumSequenceNumber c) msn)
  else c.

(** Modelled from the spec: [setConnectionState(state)] records the
    connectivity transition. *)
Definition setConnectionState (state : ConnectionState) (c : t) : t :=
  mk (id c) state (baseMapping c) (minimumSequenceNumber c).

(** Modelled from the spec: the [sequenceNumber] getter, the local number the
    mapping starts from (zero before there is one). *)
Definition sequenceNumber (c : t) : Z :=
  match baseMapping c with Some (l, _) => l | None => 0 end.

End ChannelDeltaConnection.

(** The storage service, seen through [readAndParse<IObjectAttributes>]
    ([./utils], not among the sources): which blob ids hold which attributes. *)
Record IDocumentStorageService : Type := mkStorage {
  readAndParse : string -> option IObjectAttributes
}.

(** The storage view handed to a channel: [ChannelStorageService(tree, storage)]
    or [LocalChannelStorageService(snapshot)]. *)
Inductive IObjectStorageService : Type :=
| ChannelStorageService (tree : option ISnapshotTree) (storage : IDocumentStorageService)
| LocalChannelStorageService (snapshot : ITree).

(** [IChannelState]; [connection] and [storage] are [null] until the channel
    is attached. *)
Record IChannelState : Type := mkChannelState {
  object : IChannel.t;
  storage : option IObjectStorageService;
  connection : option ChannelDeltaConnection.t
}.

Record IObjectServices : Type := mkObjectServices {
  deltaConnection : ChannelDeltaConnection.t;
  objectStorage : IObjectStorageService
}.

(** A message in the channel's own numbering. *)
Record ISequencedObjectMessage : Type := mkObjectMessage {
  om_sequenceNumber : Z;
  om_referenceSequenceNumber : Z;
  om_contents : string
}.

(** Modelled from the spec: [translateToObjectMessage] of the delta connection
    rewrites the sequence number and the reference sequence number into the
    channel's numbering. *)
Definition translateToObjectMessage (c : ChannelDeltaConnection.t)
           (m : ISequencedDocumentMessage IEnvelope) : option ISequencedObjectMessage :=
  match ChannelDeltaConnection.transformDocumentSequenceNumber (sequenceNumber m) c,
        ChannelDeltaConnection.transformDocumentSequenceNumber (referenceSequenceNumber m) c with
  | Some s, Some r => Some (mkObjectMessage s r (env_contents (contents m)))
  | _, _ => None
  end.

(** [IChaincodeModule]: the factory of one channel type. Both functions
    belong to the host. *)
Record IChaincodeModule : Type := mkModule {
  create : string -> IChannel.t;
  load : string -> Z -> Z -> list ISequencedObjectMessage -> IObjectServices
         -> string -> IChannel.t
}.

(** [IChaincode.getModule]; [None] is [undefined]. *)
Definition IChaincode : Type := string -> option IChaincodeModule.

(** [Deferred<IChannel>]: pending, or resolved once and for all with a channel
    object, held by its reference. *)
Inductive Deferred : Type :=
| Pending
| Resolved (channel : nat).

Definition resolve (channel : IChannel.t) (d : Deferred) : Deferred :=
  match d with
  | Pending => Resolved (IChannel.ref channel)
  | Resolved c => Resolved c
  end.

Record DeltaManager : Type := mkDeltaManager {
  clientType : string;
  dm_minimumSequenceNumber : Z
}.

Record IQuorum : Type := mkQuorum { getMembers : JsMap.t IClient }.

(** Modelled from the spec: the class [LeaderElector] ([./leaderElection] is
    not among the sources): it proposes in the name of the client id it was
    built with, and knows the current leader, if any. *)
Record LeaderElector : Type := mkLeaderElector {
  le_clientId : string;
  getLeader : option string
}.

(** Modelled from the spec: [new LeaderElector(quorum, clientId)]; leadership
    starts empty. *)
Definition newLeaderElector (quorum : IQuorum) (clientId : string) : LeaderElector :=
  mkLeaderElector clientId None.

(** What the runtime hands to [submitFn]. *)
Inductive Content : Type :=
| AttachContent (m : IAttachMessage)
| SaveContent (tag : string)
| EnvelopeContent (e : IEnvelope)
| HelpContent (h : IHelpMessage)
| OtherContent (c : string).

(** The calls the runtime makes on its host, in program order. *)
Inductive Event : Type :=
| Submit (type : MessageType) (content : Content)     (* [submitFn(type, content)] *)
| EmitConnected (clientId : string)                   (* [emit("connected", clientId)] *)
| EmitLocalHelp (h : IHelpMessage)                    (* [emit("localHelp", message)] *)
| ProposeLeadership (clientId : string)               (* [leaderElector.proposeLeadership()] *)
| SnapshotFn (message : string)                       (* [snapshotFn(message)] *)
| CloseFn.                                            (* [closeFn()] *)

(* ===================================================================== *)
(** ** The state of a [Runtime] and the shape of its methods *)
(* ===================================================================== *)

Record Runtime : Type := mkRuntime {
  id : string;
  clientId : string;
  connectionState : ConnectionState;
  closed : bool;
  channels : JsMap.t IChannelState;
  channelsDeferred : JsMap.t Deferred;
  pendingAttach : JsMap.t IAttachMessage;
  tasks : list string;
  version : option string;
  leaderElector : option LeaderElector;
  connectedHandlers : nat;      (* [leaderElectionHandler]s waiting on "connected" *)
  quorum : IQuorum;
  deltaManager : option DeltaManager;
  chaincode : IChaincode;
  storageService : IDocumentStorageService;
  trace : list Event
}.

(** The constructor: empty maps, not closed, no tasks, no elector. *)
Definition newRuntime (id clientId : string) (deltaManager : option DeltaManager)
           (quorum : IQuorum) (chaincode : IChaincode)
           (storageService : IDocumentStorageService)
           (connectionState : ConnectionState) : Runtime :=
  mkRuntime id clientId connectionState false JsMap.empty JsMap.empty JsMap.empty
            [] None None 0 quorum deltaManager chaincode storageService [].

Definition set_clientId (v : string) (r : Runtime) : Runtime :=
  mkRuntime (id r) v (connectionState r) (closed r) (channels r)
            (channelsDeferred r) (pendingAttach r) (tasks r) (version r)
            (leaderElector r) (connectedHandlers r) (quorum r) (deltaManager r)
            (chaincode r) (storageService r) (trace r).

Definition set_connectionState (v : ConnectionState) (r : Runtime) : Runtime :=
  mkRuntime (id r) (clientId r) v (closed r) (channels r)
            (channelsDeferred r) (pendingAttach r) (tasks r) (version r)
            (leaderElector r) (connectedHandlers r) (quorum r) (deltaManager r)
            (chaincode r) (storageService r) (trace r).

Definition set_closed (v : bool) (r : Runtime) : Runtime :=
  mkRuntime (id r) (clientId r) (connectionState r) v (channels r)
            (channelsDeferred r) (pendingAttach r) (tasks r) (version r)
            (leaderElector r) (connectedHandlers r) (quorum r) (deltaManager r)
            (chaincode r) (storageService r) (trace r).

Definition set_channels (v : JsMap.t IChannelState) (r : Runtime) : Runtime :=
  mkRuntime (id r) (clientId r) (connectionState r) (closed r) v
            (channelsDeferred r) (pendingAttach r) (tasks r) (version r)
            (leaderElector r) (connectedHandlers r) (quorum r) (deltaManager r)
            (chaincode r) (storageService r) (trace r).

Definition set_channelsDeferred (v : JsMap.t Deferred) (r : Runtime) : Runtime :=
  mkRuntime (id r) (clientId r) (connectionState r) (closed r) (channels r)
            v (pendingAttach r) (tasks r) (version r)
            (leaderElector r) (connectedHandlers r) (quorum r) (deltaManager r)
            (chaincode r) (storageService r) (trace r).

Definition set_pendingAttach (v : JsMap.t IAttachMessage) (r : Runtime) : Runtime :=
  mkRuntime (id r) (clientId r) (connectionState r) (closed r) (channels r)
            (channelsDeferred r) v (tasks r) (version r)
            (leaderElector r) (connectedHandlers r) (quorum r) (deltaManager r)
            (chaincode r) (storageService r) (trace r).

Definition set_tasks (v : list string) (w : option string) (r : Runtime) : Runtime :=
  mkRuntime (id r) (clientId r) (connectionState r) (closed r) (channels r)
            (channelsDeferred r) (pendingAttach r) v w
            (leaderElector r) (connectedHandlers r) (quorum r) (deltaManager r)
            (chaincode r) (storageService r) (trace r).

Definition set_leaderElector (v : option LeaderElector) (r : Runtime) : Runtime :=
  mkRuntime (id r) (clientId r) (connectionState r) (closed r) (channels r)
            (channelsDeferred r) (pendingAttach r) (tasks r) (version r)
            v (connectedHandlers r) (quorum r) (deltaManager r)
            (chaincode r) (storageService r) (trace r).

Definition set_connectedHandlers (v : nat) (r : Runtime) : Runtime :=
  mkRuntime (id r) (clientId r) (connectionState r) (closed r) (channels r)
            (channelsDeferred r) (pendingAttach r) (tasks r) (version r)
            (leaderElector r) v (quorum r) (deltaManager r)
            (chaincode r) (storageService r) (trace r).

Definition set_quorum (v : IQuorum) (r : Runtime) : Runtime :=
  mkRuntime (id r) (clientId r) (connectionState r) (closed r) (channels r)
            (channelsDeferred r) (pendingAttach r) (tasks r) (version r)
            (leaderElector r) (connectedHandlers r) v (deltaManager r)
            (chaincode r) (storageService r) (trace r).

Definition log (e : Event) (r : Runtime) : Runtime :=
  mkRuntime (id r) (clientId r) (connectionState r) (closed r) (channels r)
            (channelsDeferred r) (pendingAttach r) (tasks r) (version r)
            (leaderElector r) (connectedHandlers r) (quorum r) (deltaManager r)
            (chaincode r) (storageService r) (trace r ++ [e]).

(** What a call can throw. *)
Inductive Error : Type :=
| RuntimeClosed        (* [new Error("Runtime is closed")] *)
| AssertionError       (* a failed [assert] *)
| TypeError            (* a property read or a call on [undefined] or [null] *)
| Rejected.            (* a rejected read of the storage service *)

Inductive Result (A : Type) : Type :=
| Ok (a : A) (r : Runtime)
| Throw (e : Error) (r : Runtime).
Arguments Ok {A}.
Arguments Throw {A}.

Definition M (A : Type) : Type := Runtime -> Result A.

Definition ret {A : Type} (a : A) : M A := fun r => Ok a r.

Definition bind {A B : Type} (m : M A) (k : A -> M B) : M B :=
  fun r => match m r with
           | Ok a r' => k a r'
           | Throw e r' => Throw e r'
           end.

Definition throw {A : Type} (e : Error) : M A := fun r => Throw e r.

Definition gets {A : Type} (f : Runtime -> A) : M A := fun r => Ok (f r) r.

Definition modify (f : Runtime -> Runtime) : M unit := fun r => Ok tt (f r).

(** A value that must be there: reading through [undefined] throws [e]. *)
Definition expect {A : Type} (e : Error) (o : option A) : M A :=
  match o with Some a => ret a | None => throw e end.

Definition assert (b : bool) : M unit :=
  if b then ret tt else throw AssertionError.

Definition stateOf {A : Type} (x : Result A) : Runtime :=
  match x with Ok _ r => r | Throw _ r => r end.

Definition returns {A : Type} (x : Result A) : bool :=
  match x with Ok _ _ => true | Throw _ _ => false end.

Declare Scope rt_scope.
Delimit Scope rt_scope with rt.
Notation "x <- m ;; k" := (bind m (fun x => k))
  (at level 61, m at next level, right associativity) : rt_scope.
Notation "m ;; k" := (bind m (fun _ => k))
  (at level 61, right associativity) : rt_scope.
Local Open Scope rt_scope.

(** [for (const x of xs) body(x)]. *)
Fixpoint forEach {A : Type} (xs : list A) (body : A -> M unit) : M unit :=
  match xs with
  | [] => ret tt
  | x :: xs' => body x ;; forEach xs' body
  end.

(** [for (const [, object] of map) body(object)] where the body mutates the
    entry it is given, or throws: the entries visited so far keep their
    mutation, the others are as they were. *)
Fixpoint forEachEntry {V : Type} (body : V -> Error + V) (m : JsMap.t V)
  : JsMap.t V * option Error :=
  match m with
  | [] => ([], None)
  | (k, v) :: m' =>
      match body v with
      | inl e => ((k, v) :: m', Some e)
      | inr v' => let (m'', e) := forEachEntry body m' in ((k, v') :: m'', e)
      end
  end.

(** A departure from the quorum, as the elector reports it. *)
Inductive MembershipChange : Type :=
| LeaderLeft (clientId : string)
| MemberLeft (clientId : string).

Record IHelpTasks : Type := mkHelpTasks {
  browser : list string;
  robot : list string
}.

Definition nonEmpty {A : Type} (l : list A) : bool :=
  match l with [] => false | _ => true end.

(* ===================================================================== *)
(** ** The methods of [Runtime] *)
(* ===================================================================== *)

Section RuntimeMethods.

(** [getLeaderCandidate] and [analyzeTasks] come from [./taskAnalyzer], which
    is not among the sources: the methods take them as they find them. *)
Variable getLeaderCandidate : JsMap.t IClient -> option string.
Variable analyzeTasks : string -> JsMap.t IClient -> list string -> option IHelpTasks.

Definition verifyNotClosed : M unit :=
  fun r => if closed r then Throw RuntimeClosed r else Ok tt r.

Definition connected (r : Runtime) : bool :=
  ConnectionState_eqb (connectionState r) Connected.

Definition submit (type : MessageType) (content : Content) : M unit :=
  verifyNotClosed ;;
  modify (log (Submit type content)).

Definition getObjectServices (id : string) (tree : option ISnapshotTree)
           (storage : IDocumentStorageService) : M IObjectServices :=
  state <- gets connectionState ;;
  ret (mkObjectServices (ChannelDeltaConnection.new id state)
                        (ChannelStorageService tree storage)).

Definition getChannel (id : string) : M Deferred :=
  verifyNotClosed ;;
  deferreds <- gets channelsDeferred ;;
  (if negb (JsMap.has id deferreds)
   then modify (set_channelsDeferred (JsMap.set id Pending deferreds))
   else ret tt) ;;
  deferreds' <- gets channelsDeferred ;;
  expect TypeError (JsMap.get id deferreds').

(** The [if (this.channelsDeferred.has(id)) ... else ...] block that
    [createChannel] and [processAttach] both end with. *)
Definition resolveChannel (id : string) (channel : IChannel.t) : M unit :=
  deferreds <- gets channelsDeferred ;;
  match JsMap.get id deferreds with
  | Some d => modify (set_channelsDeferred (JsMap.set id (resolve channel d) deferreds))
  | None => modify (set_channelsDeferred (JsMap.set id (resolve channel Pending) deferreds))
  end.

Definition createChannel (id type : string) : M IChannel.t :=
  verifyNotClosed ;;
  getModule <- gets chaincode ;;
  extension <- expect TypeError (getModule type) ;;
  let channel := create extension id in
  modify (fun r => set_channels
                     (JsMap.set id (mkChannelState channel None None) (channels r)) r) ;;
  resolveChannel id channel ;;
  ret channel.

Definition attachChannel (channel : IChannel.t) : M IObjectServices :=
  verifyNotClosed ;;
  let snapshot := IChannel.snapshot channel in
  let message := mkAttachMessage (IChannel.id channel) snapshot (IChannel.type channel) in
  modify (fun r => set_pendingAttach
                     (JsMap.set (IChannel.id channel) message (pendingAttach r)) r) ;;
  submit Attach (AttachContent message) ;;
  storage <- gets storageService ;;
  services <- getObjectServices (IChannel.id channel) None storage ;;
  chans <- gets channels ;;
  entry <- expect TypeError (JsMap.get (IChannel.id channel) chans) ;;
  assert (Nat.eqb (IChannel.ref (object entry)) (IChannel.ref channel)) ;;
  modify (set_channels
            (JsMap.set (IChannel.id channel)
                       (mkChannelState (object entry)
                                       (Some (objectStorage services))
                                       (Some (deltaConnection services)))
                       chans)) ;;
  ret services.

Definition getQuorum : M IQuorum :=
  verifyNotClosed ;;
  gets quorum.

Definition optionStringEqb (o : option string) (s : string) : bool :=
  match o with Some s' => String.eqb s' s | None => false end.

Definition proposeLeadership : M unit :=
  q <- getQuorum ;;
  me <- gets clientId ;;
  if optionStringEqb (getLeaderCandidate (getMembers q)) me then
    elector <- gets leaderElector ;;
    e <- expect TypeError elector ;;
    modify (log (ProposeLeadership (le_clientId e)))
  else ret tt.

Definition submitMessage (type : MessageType) (content : Content) : M unit :=
  submit type content.

Definition runTaskAnalyzer : M unit :=
  elector <- gets leaderElector ;;
  e <- expect TypeError elector ;;
  me <- gets clientId ;;
  if optionStringEqb (getLeader e) me then
    q <- getQuorum ;;
    ts <- gets tasks ;;
    v <- gets version ;;
    match analyzeTasks me (getMembers q) ts with
    | Some helpTasks =>
        if nonEmpty (browser helpTasks) || nonEmpty (robot helpTasks) then
          (if nonEmpty (browser helpTasks)
           then modify (log (EmitLocalHelp (mkHelpMessage (browser helpTasks) v)))
           else ret tt) ;;
          (if nonEmpty (robot helpTasks)
           then submitMessage RemoteHelp (HelpContent (mkHelpMessage (robot helpTasks) v))
           else ret tt)
        else ret tt
    | None => ret tt
    end
  else ret tt.

Definition initLeaderElection : M unit :=
  q <- getQuorum ;;
  me <- gets clientId ;;
  modify (set_leaderElector (Some (newLeaderElector q me))) ;;
  proposeLeadership.

(** The three listeners [initLeaderElection] installs on the elector, for
    ["newLeader"], ["leaderLeft"] and ["memberLeft"]. *)
Definition onNewLeader (clientId : string) : M unit :=
  runTaskAnalyzer.

Definition onLeaderLeft (clientId : string) : M unit :=
  proposeLeadership.

Definition onMemberLeft (clientId : string) : M unit :=
  runTaskAnalyzer.

(** Modelled from the spec: the elector records who leads. *)
Definition electorRecords (leader : option string) : M unit :=
  modify (fun r => match leaderElector r with
                   | Some e => set_leaderElector
                                 (Some (mkLeaderElector (le_clientId e) leader)) r
                   | None => r
                   end).

(** Modelled from the spec: what the elector does when a member has left the
    quorum. If it was the leader, the elector forgets it and emits
    ["leaderLeft"]; otherwise it emits ["memberLeft"]. *)
Definition onMembershipChange (change : MembershipChange) : M unit :=
  match change with
  | LeaderLeft leader => electorRecords None ;; onLeaderLeft leader
  | MemberLeft member => onMemberLeft member
  end.

(** Modelled from the spec: what the elector does when the quorum has accepted
    a proposal: it records the leader and emits ["newLeader"]. *)
Definition onProposalAccepted (leader : string) : M unit :=
  electorRecords (Some leader) ;; onNewLeader leader.

(** [this.emit("connected", clientId)]: the host is told, then every waiting
    [leaderElectionHandler] runs and removes itself. *)
Fixpoint runConnectedHandlers (n : nat) : M unit :=
  match n with
  | O => ret tt
  | S n' =>
      initLeaderElection ;;
      modify (fun r => set_connectedHandlers (Nat.pred (connectedHandlers r)) r) ;;
      runConnectedHandlers n'
  end.

Definition emitConnected (clientId : string) : M unit :=
  modify (log (EmitConnected clientId)) ;;
  n <- gets connectedHandlers ;;
  runConnectedHandlers n.

Definition startLeaderElection : M unit :=
  dm <- gets deltaManager ;;
  match dm with
  | Some d =>
      if String.eqb (clientType d) Browser then
        isConnected <- gets connected ;;
        if isConnected then initLeaderElection
        else modify (fun r => set_connectedHandlers (S (connectedHandlers r)) r)
      else ret tt
  | None => ret tt
  end.

Definition registerTasks (tasks : list string) (version : option string) : M unit :=
  verifyNotClosed ;;
  modify (set_tasks tasks version) ;;
  startLeaderElection.

(** The body of the last loop of [changeConnectionState]. *)
Definition notifyConnection (value : ConnectionState) (entry : IChannelState)
  : Error + IChannelState :=
  match connection entry with
  | Some c =>
      inr (mkChannelState (object entry) (storage entry)
                          (Some (ChannelDeltaConnection.setConnectionState value c)))
  | None => inr entry
  end.

(** Run a loop over the entries of [this.channels]. *)
Definition overChannels (body : IChannelState -> Error + IChannelState) : M unit :=
  fun r =>
    let (chans, e) := forEachEntry body (channels r) in
    match e with
    | None => Ok tt (set_channels chans r)
    | Some err => Throw err (set_channels chans r)
    end.

Definition changeConnectionState (value : ConnectionState) (clientId : string) : M unit :=
  verifyNotClosed ;;
  current <- gets connectionState ;;
  if ConnectionState_eqb value current then ret tt
  else
    modify (set_connectionState value) ;;
    modify (set_clientId clientId) ;;
    (if ConnectionState_eqb value Connected then
       pending <- gets pendingAttach ;;
       forEach (JsMap.values pending)
               (fun message => submit Attach (AttachContent message)) ;;
       emitConnected clientId
     else ret tt) ;;
    overChannels (notifyConnection value).

Definition processAttach (message : ISequencedDocumentMessage IAttachMessage)
           (local : bool) (context : option IChannelState) : M IChannel.t :=
  verifyNotClosed ;;
  let attachMessage := contents message in
  (if local then
     pending <- gets pendingAttach ;;
     assert (JsMap.has (am_id attachMessage) pending) ;;
     modify (set_pendingAttach (JsMap.delete (am_id attachMessage) pending)) ;;
     chans <- gets channels ;;
     entry <- expect TypeError (JsMap.get (am_id attachMessage) chans) ;;
     c <- expect TypeError (connection entry) ;;
     c' <- expect AssertionError
             (ChannelDeltaConnection.setBaseMapping 0 (minimumSequenceNumber message) c) ;;
     modify (set_channels
               (JsMap.set (am_id attachMessage)
                          (mkChannelState (object entry) (storage entry) (Some c'))
                          chans))
   else
     channelState <- expect TypeError context ;;
     modify (fun r => set_channels
                        (JsMap.set (IChannel.id (object channelState)) channelState
                                   (channels r)) r) ;;
     resolveChannel (IChannel.id (object channelState)) (object channelState)) ;;
  chans <- gets channels ;;
  entry <- expect TypeError (JsMap.get (am_id attachMessage) chans) ;;
  ret (object entry).

Definition loadChannel (id type : string) (sequenceNumber minSequenceNumber : Z)
           (messages : list ISequencedObjectMessage) (services : IObjectServices)
           (originBranch : string) : M IChannelState :=
  getModule <- gets chaincode ;;
  extension <- expect TypeError (getModule type) ;;
  let value := load extension id
                    (ChannelDeltaConnection.sequenceNumber (deltaConnection services))
                    minSequenceNumber messages services originBranch in
  ret (mkChannelState value (Some (objectStorage services))
                      (Some (deltaConnection services))).

Definition prepareAttach (message : ISequencedDocumentMessage IAttachMessage)
           (local : bool) : M (option IChannelState) :=
  verifyNotClosed ;;
  if local then ret None
  else
    let attachMessage := contents message in
    let localStorage := LocalChannelStorageService (am_snapshot attachMessage) in
    state <- gets connectionState ;;
    let connection := ChannelDeltaConnection.new (am_id attachMessage) state in
    connection' <- expect AssertionError
                     (ChannelDeltaConnection.setBaseMapping
                        0 (minimumSequenceNumber message) connection) ;;
    let services := mkObjectServices connection' localStorage in
    me <- gets id ;;
    let origin := match origin message with Some o => o | None => me end in
    value <- loadChannel (am_id attachMessage) (am_type attachMessage) 0 0 []
                         services origin ;;
    ret (Some value).

Definition hasUnackedOps : M bool :=
  verifyNotClosed ;;
  chans <- gets channels ;;
  ret (existsb (fun state => IChannel.dirty (object state)) (JsMap.values chans)).

Definition snapshot (message : string) : M unit :=
  verifyNotClosed ;;
  modify (log (SnapshotFn message)).

Definition save (tag : string) : M unit :=
  verifyNotClosed ;;
  submit Save (SaveContent tag).

Definition transform (message : ISequencedDocumentMessage IEnvelope)
  : M (ISequencedDocumentMessage IEnvelope) :=
  let envelope := contents message in
  chans <- gets channels ;;
  objectDetails <- expect TypeError (JsMap.get (address envelope) chans) ;;
  c <- expect TypeError (connection objectDetails) ;;
  dm <- gets deltaManager ;;
  d <- expect TypeError dm ;;
  n <- expect AssertionError
         (ChannelDeltaConnection.transformDocumentSequenceNumber
            (Z.max (referenceSequenceNumber message) (dm_minimumSequenceNumber d)) c) ;;
  ret (mkSequencedMessage
         (mkEnvelope (address envelope)
                     (IChannel.transform (object objectDetails) (env_contents envelope) n))
         (minimumSequenceNumber message) (referenceSequenceNumber message)
         (sequenceNumber message) (origin message)).

(** The test [!object.object.isLocal() && object.connection.baseMappingIsSet()];
    reading [baseMappingIsSet] off a [null] connection throws. *)
Definition attachedAndMapped (entry : IChannelState) : Error + bool :=
  if negb (IChannel.isLocal (object entry)) then
    match connection entry with
    | Some c => inr (ChannelDeltaConnection.baseMappingIsSet c)
    | None => inl TypeError
    end
  else inr false.

(** The body of the loop of [updateMinSequenceNumber]. What the call
    [object.connection.updateMinSequenceNumber(msn)] does to the connection is
    [update]: the class of the connection is not among the sources, and the
    loop is the same whatever that method does. *)
Definition forwardMinSequenceNumberWith
           (update : Z -> ChannelDeltaConnection.t -> ChannelDeltaConnection.t)
           (msn : Z) (entry : IChannelState) : Error + IChannelState :=
  if negb (IChannel.isLocal (object entry)) then
    match connection entry with
    | Some c =>
        if ChannelDeltaConnection.baseMappingIsSet c then
          inr (mkChannelState (object entry) (storage entry) (Some (update msn c)))
        else inr entry
    | None => inl TypeError
    end
  else inr entry.

Definition updateMinSequenceNumberWith
           (update : Z -> ChannelDeltaConnection.t -> ChannelDeltaConnection.t)
           (msn : Z) : M unit :=
  overChannels (forwardMinSequenceNumberWith update msn).

(** The loop body and the method, with the connection as the spec has it. *)
Definition forwardMinSequenceNumber : Z -> IChannelState -> Error + IChannelState :=
  forwardMinSequenceNumberWith ChannelDeltaConnection.updateMinSequenceNumber.

Definition updateMinSequenceNumber (msn : Z) : M unit :=
  updateMinSequenceNumberWith ChannelDeltaConnection.updateMinSequenceNumber msn.

(** The [.attributes] blob of a channel. *)
Definition attributesEntry (entry : IChannelState) (c : ChannelDeltaConnection.t)
  : ITreeEntry :=
  let objectAttributes :=
    mkObjectAttributes (ChannelDeltaConnection.minimumSequenceNumber c)
                       (IChannel.type (object entry)) in
  mkTreeEntry File ".attributes" Blob
              (BlobValue (stringifyObjectAttributes objectAttributes) "utf-8").

(** The tree entry of one channel: its own snapshot with the attributes pushed
    at the end, stored as a directory named by the channel's id. *)
Definition channelEntry (objectId : string) (entry : IChannelState)
           (c : ChannelDeltaConnection.t) : ITreeEntry :=
  let snapshot := IChannel.snapshot (object entry) in
  mkTreeEntry Directory objectId Tree
              (TreeValue (mkTree (entries snapshot ++ [attributesEntry entry c]))).

(** The loop of [snapshotInternal]. *)
Fixpoint snapshotEntries (chans : JsMap.t IChannelState) : Error + list ITreeEntry :=
  match chans with
  | [] => inr []
  | (objectId, entry) :: rest =>
      if negb (IChannel.isLocal (object entry)) then
        match connection entry with
        | Some c =>
            if ChannelDeltaConnection.baseMappingIsSet c then
              match snapshotEntries rest with
              | inr es => inr (channelEntry objectId entry c :: es)
              | inl e => inl e
              end
            else snapshotEntries rest
        | None => inl TypeError
        end
      else snapshotEntries rest
  end.

Definition snapshotInternal : M (list ITreeEntry) :=
  fun r => match snapshotEntries (channels r) with
           | inr es => Ok es r
           | inl e => Throw e r
           end.

Definition stop : M (list ITreeEntry) :=
  verifyNotClosed ;;
  modify (set_closed true) ;;
  snapshotInternal.

Definition close : M unit :=
  modify (log CloseFn).

Definition reserve (id : string) : M unit :=
  deferreds <- gets channelsDeferred ;;
  if negb (JsMap.has id deferreds)
  then modify (set_channelsDeferred (JsMap.set id Pending deferreds))
  else ret tt.

Fixpoint translateAll (c : ChannelDeltaConnection.t)
         (messages : list (ISequencedDocumentMessage IEnvelope))
  : option (list ISequencedObjectMessage) :=
  match messages with
  | [] => Some []
  | m :: ms =>
      match translateToObjectMessage c m, translateAll c ms with
      | Some m', Some ms' => Some (m' :: ms')
      | _, _ => None
      end
  end.

(** The awaits of [loadSnapshotChannel] touch nothing of the runtime; what it
    does to [channels] and [channelsDeferred] happens in its last three
    statements, in one go. *)
Definition loadSnapshotChannel (id : string) (tree : ISnapshotTree)
           (storage : IDocumentStorageService)
           (messages : list (ISequencedDocumentMessage IEnvelope))
           (branch : string) (minimumSequenceNumber : Z) : M unit :=
  channelAttributes <-
    expect Rejected (match JsMap.get ".attributes" (blobs tree) with
                     | Some sha => readAndParse storage sha
                     | None => None
                     end) ;;
  services <- getObjectServices id (Some tree) storage ;;
  connection <- expect AssertionError
                  (ChannelDeltaConnection.setBaseMapping
                     (attr_sequenceNumber channelAttributes) minimumSequenceNumber
                     (deltaConnection services)) ;;
  let services := mkObjectServices connection (objectStorage services) in
  transformedObjectMessages <- expect AssertionError (translateAll connection messages) ;;
  channelDetails <- loadChannel id (attr_type channelAttributes)
                                (attr_sequenceNumber channelAttributes)
                                (attr_sequenceNumber channelAttributes)
                                transformedObjectMessages services branch ;;
  chans <- gets channels ;;
  assert (negb (JsMap.has id chans)) ;;
  modify (set_channels (JsMap.set id channelDetails chans)) ;;
  deferreds <- gets channelsDeferred ;;
  d <- expect TypeError (JsMap.get id deferreds) ;;
  modify (set_channelsDeferred (JsMap.set id (resolve (object channelDetails) d) deferreds)).

End RuntimeMethods.

(* ===================================================================== *)
(** ** Component contexts: package paths and the attribute blob *)
(* ===================================================================== *)

Module ComponentContext.

(** The persisted attribute blob, as [readAndParse<IComponentAttributes>]
    returns it. *)
Record IComponentAttributes : Type := mkAttributes {
  pkg : string;
  snapshotFormatVersion : option string
}.

Definition currentSnapshotFormatVersion : string := "0.1".

(** [JSON.stringify(attributes)]; an absent version is left out. *)
Definition stringifyAttributes (a : IComponentAttributes) : string :=
  "{" ++ Json.stringifyString "pkg" ++ ":" ++ Json.stringifyString (pkg a)
      ++ match snapshotFormatVersion a with
         | Some v => "," ++ Json.stringifyString "snapshotFormatVersion" ++ ":"
                         ++ Json.stringifyString v
         | None => EmptyString
         end
      ++ "}".

(** What a registry answers for a package name: the entry may provide a
    factory ([IComponentFactory]), a registry ([IComponentRegistry]), both or
    neither. Registries are named by a reference, so that an entry can point
    back to the registry it sits in, as the one of the test suite does. *)
Record Entry : Type := mkEntry {
  IComponentFactory : option nat;      (* the factory, by reference *)
  IComponentRegistry : option nat      (* the sub-registry, by reference *)
}.

(** All the registries of a container: [get] of each of them. *)
Definition Registries : Type := nat -> string -> option Entry.

Inductive RealizeError : Type :=
| UnresolvedTypeError          (* no entry, or no factory, for a package *)
| MalformedPackagePathError.   (* empty path, or a prefix that is not a registry *)

(** Modelled from the spec: package-path resolution of [realize]
    ([../componentContext] is not among the sources, only its tests are).
    It descends one registry level per path element; an element that is not
    the last must resolve to a sub-registry; the last must resolve to a
    factory; an empty path is malformed. *)
Fixpoint resolvePackagePath (registries : Registries) (registry : nat)
         (path : list string) : RealizeError + nat :=
  match path with
  | [] => inl MalformedPackagePathError
  | [p] =>
      match registries registry p with
      | Some entry =>
          match IComponentFactory entry with
          | Some factory => inr factory
          | None => inl UnresolvedTypeError
          end
      | None => inl UnresolvedTypeError
      end
  | p :: rest =>
      match registries registry p with
      | Some entry =>
          match IComponentRegistry entry with
          | Some sub => resolvePackagePath registries sub rest
          | None => inl MalformedPackagePathError
          end
      | None => inl UnresolvedTypeError
      end
  end.

(** The part of [ContainerRuntime] a context uses: the registries and the
    one the runtime itself exposes. *)
Record ContainerRuntime : Type := mkContainerRuntime {
  registries : Registries;
  rootRegistry : nat
}.

Record LocalComponentContext : Type := mkLocal {
  local_id : string;
  local_pkg : list string;
  local_runtime : ContainerRuntime
}.

(** Modelled from the spec: constructing a local context; an empty package
    path is a fatal construction error. *)
Definition newLocalComponentContext (id : string) (pkg : list string)
           (runtime : ContainerRuntime) : RealizeError + LocalComponentContext :=
  match pkg with
  | [] => inl MalformedPackagePathError
  | _ => inr (mkLocal id pkg runtime)
  end.

(** Modelled from the spec: [realize()] of a local context resolves its
    package path against the registry of the container runtime. *)
Definition realize (c : LocalComponentContext) : RealizeError + nat :=
  resolvePackagePath (registries (local_runtime c)) (rootRegistry (local_runtime c))
                     (local_pkg c).

(** Modelled from the spec: the attribute blob a context writes
    ([../componentContext] is not among the sources), the package path as a
    JSON array and the current format version. *)
Definition attributesOf (path : list string) : IComponentAttributes :=
  mkAttributes (Json.stringifyStringArray path) (Some currentSnapshotFormatVersion).

(** Modelled from the spec: the blob as a tree entry, named [.component] as
    in the stored trees of the tests. *)
Definition attributesBlob (path : list string) : ITreeEntry :=
  mkTreeEntry File ".component" Blob
              (BlobValue (stringifyAttributes (attributesOf path)) "utf-8").

(** Modelled from the spec: [generateAttachMessage()], once a component
    runtime is bound ([runtimeEntries] is what that runtime contributes to the
    snapshot): the message is declared with the last element of the package
    path and carries the attribute blob. *)
Definition generateAttachMessage (c : LocalComponentContext)
           (runtimeEntries : list ITreeEntry) : IAttachMessage :=
  mkAttachMessage (local_id c)
                  (mkTree (runtimeEntries ++ [attributesBlob (local_pkg c)]))
                  (last (local_pkg c) EmptyString).

Record RemotedComponentContext : Type := mkRemoted {
  remoted_id : string;
  remoted_attributes : IComponentAttributes;   (* the blob read from the snapshot tree *)
  remoted_runtime : ContainerRuntime
}.

(** Modelled from the spec: reading the package path out of the blob. Without
    a version the blob is of the earliest format, whose [pkg] is one bare
    identifier; with a version [pkg] is a JSON array of identifiers. *)
Definition packagePathOf (a : IComponentAttributes) : option (list string) :=
  match snapshotFormatVersion a with
  | None => Some [pkg a]
  | Some _ => Json.parseStringArray (pkg a)
  end.

(** Modelled from the spec: [snapshot()] of a context loaded from a tree:
    the path is read, the implementation is resolved, and the tree written
    carries the attributes in canonical form. *)
Definition snapshot (c : RemotedComponentContext) (runtimeEntries : list ITreeEntry)
  : RealizeError + ITree :=
  match packagePathOf (remoted_attributes c) with
  | Some path =>
      match resolvePackagePath (registries (remoted_runtime c))
                               (rootRegistry (remoted_runtime c)) path with
      | inr _ => inr (mkTree (runtimeEntries ++ [attributesBlob path]))
      | inl e => inl e
      end
  | None => inl MalformedPackagePathError
  end.

(** The sub-registry the runtime's registry has under a package name, if the
    name is known and its entry is a registry. *)
Definition subRegistryOf (runtime : ContainerRuntime) (p : string) : option nat :=
  match registries runtime (rootRegistry runtime) p with
  | Some entry => IComponentRegistry entry
  | None => None
  end.

(** The registries of the test suite. In the first, [get] answers every
    package with a factory that is no registry; in the second, with an object
    that is both a factory and the registry itself. *)
Definition factoryOnlyRegistry : ContainerRuntime :=
  mkContainerRuntime (fun _ _ => Some (mkEntry (Some 1%nat) None)) 0%nat.

Definition registryWithSubRegistries : ContainerRuntime :=
  mkContainerRuntime (fun _ _ => Some (mkEntry (Some 0%nat) (Some 0%nat))) 0%nat.

End ComponentContext.

(** Modelled from the spec: the candidate for leadership, the lowest-ordered
    member of the quorum ([getLeaderCandidate] of [./taskAnalyzer] is not
    among the sources). *)
Fixpoint lowest (candidate : string) (ids : list string) : string :=
  match ids with
  | [] => candidate
  | i :: ids' =>
      lowest (if String.ltb i candidate then i else candidate) ids'
  end.

Definition lowestOrderedCandidate (members : JsMap.t IClient) : option string :=
  match JsMap.keys members with
  | [] => None
  | i :: ids => Some (lowest i ids)
  end.

(* ===================================================================== *)
(** ** The life of a container, step by step *)
(* ===================================================================== *)

Section Lifecycle.

Variable getLeaderCandidate : JsMap.t IClient -> option string.

(** What the host's channel object may do to itself between two calls: any of
    its answers can change, its identity and its id cannot. *)
Definition sameChannelObject (a b : IChannel.t) : Prop :=
  IChannel.ref a = IChannel.ref b /\ IChannel.id a = IChannel.id b.

(** One successful operation on the channels of a runtime. A remote attach
    message is prepared, then processed; a channel is loaded from a snapshot
    after its slot was reserved. Ids are unique within a container, so a peer
    never attaches an id this client still has pending. *)
Inductive step (r : Runtime) : Runtime -> Prop :=
| step_createChannel : forall id type channel r',
    createChannel id type r = Ok channel r' -> step r r'
| step_attachChannel : forall channel services r',
    attachChannel channel r = Ok services r' -> step r r'
| step_localAttach : forall message context channel r',
    processAttach message true context r = Ok channel r' -> step r r'
| step_remoteAttach : forall message context channel r1 r',
    prepareAttach message false r = Ok (Some context) r1 ->
    JsMap.has (IChannel.id (object context)) (pendingAttach r) = false ->
    processAttach message false (Some context) r1 = Ok channel r' -> step r r'
| step_loadSnapshot : forall id tree storage messages branch msn r1 r',
    reserve id r = Ok tt r1 ->
    loadSnapshotChannel id tree storage messages branch msn r1 = Ok tt r' ->
    step r r'
| step_changeConnectionState : forall value clientId r',
    changeConnectionState getLeaderCandidate value clientId r = Ok tt r' -> step r r'
| step_updateMinSequenceNumber : forall msn r',
    updateMinSequenceNumber msn r = Ok tt r' -> step r r'
| step_channelObject : forall id entry object',
    JsMap.get id (channels r) = Some entry ->
    sameChannelObject (object entry) object' ->
    step r (set_channels
              (JsMap.set id (mkChannelState object' (storage entry) (connection entry))
                         (channels r)) r).

(** The states a runtime built by the constructor can come to. *)
Inductive reachable : Runtime -> Prop :=
| reachable_new : forall id clientId deltaManager quorum chaincode storage state,
    reachable (newRuntime id clientId deltaManager quorum chaincode storage state)
| reachable_step : forall r r', reachable r -> step r r' -> reachable r'.

End Lifecycle.

Definition isProposal (e : Event) : bool :=
  match e with ProposeLeadership _ => true | _ => false end.

(** Appending several events to the trace. *)
Definition logAll (es : list Event) (r : Runtime) : Runtime :=
  mkRuntime (id r) (clientId r) (connectionState r) (closed r) (channels r)
            (channelsDeferred r) (pendingAttach r) (tasks r) (version r)
            (leaderElector r) (connectedHandlers r) (quorum r) (deltaManager r)
            (chaincode r) (storageService r) (trace r ++ es).

(** [r'] is [r] after leader-election activity only: the elector and the
    waiting handlers may differ, the trace has grown by proposals. *)
Definition electionOnly (r r' : Runtime) : Prop :=
  closed r' = closed r /\ channels r' = channels r /\
  pendingAttach r' = pendingAttach r /\ channelsDeferred r' = channelsDeferred r /\
  connectionState r' = connectionState r /\ clientId r' = clientId r /\
  quorum r' = quorum r /\
  exists proposals, trace r' = (trace r ++ proposals)%list /\
                    forallb isProposal proposals = true.

(** The leadership proposals issued between two states of a runtime. *)
Definition proposalsSince (r r' : Runtime) : list Event :=
  filter isProposal (skipn (List.length (trace r)) (trace r')).

(** On a departure from the quorum, the client issues a leadership proposal
    if and only if it is itself the candidate computed from the members. *)
Definition proposesIffCandidate
           (getLeaderCandidate : JsMap.t IClient -> option string)
           (analyzeTasks : string -> JsMap.t IClient -> list string -> option IHelpTasks)
           (change : MembershipChange) (r : Runtime) : Prop :=
  proposalsSince r (stateOf (onMembershipChange getLeaderCandidate analyzeTasks change r))
  <> []
  <-> getLeaderCandidate (getMembers (quorum r)) = Some (clientId r).

(** The channel with the given id is in the snapshot. *)
Definition inSnapshot (id : string) (es : list ITreeEntry) : Prop :=
  In id (map path es).

(** A channel the snapshot takes: not local, base mapping established. *)
Definition included (entry : IChannelState) : bool :=
  negb (IChannel.isLocal (object entry)) &&
  match connection entry with
  | Some c => ChannelDeltaConnection.baseMappingIsSet c
  | None => false
  end.

(* ===================================================================== *)
(** ** A small container, for concrete runs *)
(* ===================================================================== *)

Module Scenario.

Definition header : ITree :=
  mkTree [mkTreeEntry File "header" Blob (BlobValue "{}" "utf-8")].

(** A channel of the host: local until attached, nothing unacknowledged. *)
Definition channel (ref : nat) (id type : string) (isLocal : bool) : IChannel.t :=
  IChannel.mk ref id type isLocal false header (fun contents _ => contents).

(** A chaincode with two channel types. *)
Definition typeModule (ref : nat) (type : string) : IChaincodeModule :=
  mkModule (fun id => channel ref id type true)
           (fun id _ _ _ _ _ => channel (10 + ref) id type false).

Definition chaincode : IChaincode :=
  fun type =>
    if String.eqb type "TypeA" then Some (typeModule 1 type)
    else if String.eqb type "TypeB" then Some (typeModule 2 type)
    else None.

Definition members : JsMap.t IClient :=
  [("A", mkClient Browser); ("B", mkClient Browser); ("C", mkClient Browser)].

(** A fresh runtime of client ["B"], not yet connected. *)
Definition fresh : Runtime :=
  newRuntime "doc" "B" (Some (mkDeltaManager Browser 0)) (mkQuorum members)
             chaincode (mkStorage (fun _ => None)) Disconnected.

(** The channel's own [attach()], on the host's side: it hands itself to
    [attachChannel], keeps the services, and from then on answers [false] to
    [isLocal()]. *)
Definition attach (id : string) : M unit :=
  (chans <- gets channels ;;
   entry <- expect TypeError (JsMap.get id chans) ;;
   _ <- attachChannel (object entry) ;;
   chans' <- gets channels ;;
   entry' <- expect TypeError (JsMap.get id chans') ;;
   let o := object entry' in
   modify (set_channels
             (JsMap.set id
                (mkChannelState
                   (IChannel.mk (IChannel.ref o) (IChannel.id o) (IChannel.type o) false
                                (IChannel.dirty o) (IChannel.snapshot o)
                                (IChannel.transform o))
                   (storage entry') (connection entry'))
                chans')))%rt.

(** Scenario A: channel ["c1"] created and attached, its attach message not
    yet acknowledged. *)
Definition created : Runtime := stateOf (createChannel "c1" "TypeA" fresh).

Definition pending : Runtime := stateOf (attach "c1" created).

(** The attach message of ["c1"], echoed back with minimum sequence number 7. *)
Definition echo : ISequencedDocumentMessage IAttachMessage :=
  mkSequencedMessage (mkAttachMessage "c1" header "TypeA") 7 5 9 None.

Definition attached : Runtime := stateOf (processAttach echo true None pending).

(** The container after [stop()]. *)
Definition stopped : Runtime := stateOf (stop attached).

(** Client ["B"] with its elector, once leader ["A"] has left the quorum. *)
Definition electing : Runtime :=
  set_quorum (mkQuorum [("B", mkClient Browser); ("C", mkClient Browser)])
             (set_leaderElector (Some (mkLeaderElector "B" (Some "A"))) fresh).

(** Leader ["A"], after member ["C"] has left ["A"] and ["B"]. *)
Definition leading : Runtime :=
  set_clientId "A"
    (set_quorum (mkQuorum [("A", mkClient Browser); ("B", mkClient Browser)])
                (set_leaderElector (Some (mkLeaderElector "A" (Some "A"))) fresh)).

(** A task analysis that finds nothing to ask for. *)
Definition noTasks (clientId : string) (members : JsMap.t IClient) (tasks : list string)
  : option IHelpTasks := None.

(** An operation addressed to ["c1"]. *)
Definition operation : ISequencedDocumentMessage IEnvelope :=
  mkSequencedMessage (mkEnvelope "c1" "op") 8 9 10 None.

(** The entry of ["c1"] once its attach message is acknowledged. *)
Definition attachedEntry (msn : Z) : IChannelState :=
  mkChannelState (channel 1 "c1" "TypeA" false)
                 (Some (ChannelStorageService None (storageService fresh)))
                 (Some (ChannelDeltaConnection.mk "c1" Disconnected (Some (0, 7)) msn)).

End Scenario.

(** What a channel entry becomes when a minimum sequence number is forwarded
    to its delta connection. *)
Definition forwardedTo (msn : Z) (entry : IChannelState) : IChannelState :=
  mkChannelState (object entry) (storage entry)
                 (option_map (ChannelDeltaConnection.updateMinSequenceNumber msn)
                             (connection entry)).

(** The same, whatever the connection does with the update. *)
Definition forwardedWith
           (update : Z -> ChannelDeltaConnection.t -> ChannelDeltaConnection.t)
           (msn : Z) (entry : IChannelState) : IChannelState :=
  mkChannelState (object entry) (storage entry)
                 (option_map (update msn) (connection entry)).

(** A delta connection that takes every minimum sequence number it is given,
    mapped or not. *)
Definition eagerConnection (msn : Z) (c : ChannelDeltaConnection.t)
  : ChannelDeltaConnection.t :=
  ChannelDeltaConnection.mk (ChannelDeltaConnection.id c)
                            (ChannelDeltaConnection.connectionState c)
                            (ChannelDeltaConnection.baseMapping c) msn.

(** What a channel entry becomes when its delta connection is replaced. *)
Definition withConnection (c : ChannelDeltaConnection.t) (entry : IChannelState)
  : IChannelState :=
  mkChannelState (object entry) (storage entry) (Some c).

(** The base mapping of the entry's delta connection is established. *)
Definition mapped (entry : IChannelState) : bool :=
  match connection entry with
  | Some c => ChannelDeltaConnection.baseMappingIsSet c
  | None => false
  end.

(** The snapshot in the words of its description: for each channel that is
    not local and whose base mapping is established, in the order of the
    channel map, the channel's own snapshot with the attributes appended,
    under the channel's id. *)
Definition expectedSnapshot (chans : JsMap.t IChannelState) : list ITreeEntry :=
  flat_map (fun binding : string * IChannelState =>
              let (objectId, entry) := binding in
              match connection entry with
              | Some c => if included entry then [channelEntry objectId entry c] else []
              | None => []
              end) chans.

(** The discipline of the host's channels: a channel answers [false] to
    [isLocal()] only once it holds the services [attachChannel] or a load gave
    it, that is, once its entry has a delta connection. *)
Definition hostDiscipline (chans : JsMap.t IChannelState) : Prop :=
  forall id entry,
    In (id, entry) chans -> IChannel.isLocal (object entry) = false ->
    connection entry <> None.

(** What holds of the channel map and the pending set in every state a
    container comes to. *)
Record channelInvariant (r : Runtime) : Prop := mkChannelInvariant {
  inv_unique : NoDup (JsMap.keys (channels r));
  inv_registered : forall id,
      JsMap.has id (pendingAttach r) = true -> JsMap.has id (channels r) = true;
  inv_unmapped : forall id entry,
      JsMap.has id (pendingAttach r) = true ->
      JsMap.get id (channels r) = Some entry -> mapped entry = false
}.

(** What a channel entry becomes when its delta connection, if it has one, is
    told of a connection state. *)
Definition notified (value : ConnectionState) (entry : IChannelState) : IChannelState :=
  match connection entry with
  | Some c => withConnection (ChannelDeltaConnection.setConnectionState value c) entry
  | None => entry
  end.

(** What [proposeLeadership] adds to the trace of a runtime whose elector
    proposes under the runtime's own client id: a proposal if the client is
    the candidate, nothing otherwise. *)
Definition proposalOf (getLeaderCandidate : JsMap.t IClient -> option string)
           (r : Runtime) : list Event :=
  if optionStringEqb (getLeaderCandidate (getMembers (quorum r))) (clientId r)
  then [ProposeLeadership (clientId r)]
  else [].

(* ===================================================================== *)
(** ** More concrete runs *)
(* ===================================================================== *)

Module Runs.

(** The attach message of channel ["r1"], sent by a peer. *)
Definition peerAttach : ISequencedDocumentMessage IAttachMessage :=
  mkSequencedMessage (mkAttachMessage "r1" Scenario.header "TypeA") 4 3 6 (Some "peer").

(** A stored tree whose attributes blob is ["sha1"], and a storage service
    that reads it as a channel of type ["TypeB"] stored at sequence number 3. *)
Definition storedTree : ISnapshotTree :=
  mkSnapshotTree [(".attributes", "sha1"); ("header", "sha2")] [].

Definition storage : IDocumentStorageService :=
  mkStorage (fun sha => if String.eqb sha "sha1"
                        then Some (mkObjectAttributes 3 "TypeB") else None).

(** An operation for the stored channel, kept from before the load. *)
Definition backlog : list (ISequencedDocumentMessage IEnvelope) :=
  [mkSequencedMessage (mkEnvelope "s1" "op") 10 11 12 None].

(** While this client has the attach message of ["c1"] pending, a peer's
    attach message for the same id arrives, and is prepared. *)
Definition sameIdAttach : ISequencedDocumentMessage IAttachMessage :=
  mkSequencedMessage (mkAttachMessage "c1" Scenario.header "TypeA") 4 3 6 (Some "peer").

Definition sameIdContext : IChannelState :=
  mkChannelState (Scenario.channel 11 "c1" "TypeA" false)
                 (Some (LocalChannelStorageService Scenario.header))
                 (Some (ChannelDeltaConnection.mk "c1" Disconnected (Some (0, 4)) 0)).

End Runs.

(** From [r] to [r'] no deferred was removed and none that was resolved has
    changed. *)
Definition deferredGrows (r r' : Runtime) : Prop :=
  (forall id channel,
      JsMap.get id (channelsDeferred r) = Some (Resolved channel) ->
      JsMap.get id (channelsDeferred r') = Some (Resolved channel)) /\
  (forall id,
      JsMap.has id (channelsDeferred r) = true ->
      JsMap.has id (channelsDeferred r') = true).

(** What task analysis asks for: the host is told of the tasks a browser can
    take, then the agents are asked for the others. *)
Definition helpRequests (version : option string) (helpTasks : option IHelpTasks)
  : list Event :=
  match helpTasks with
  | Some h =>
      (if nonEmpty (browser h)
       then [EmitLocalHelp (mkHelpMessage (browser h) version)] else [])
      ++ (if nonEmpty (robot h)
          then [Submit RemoteHelp (HelpContent (mkHelpMessage (robot h) version))]
          else [])
  | None => []
  end.

(* ===================================================================== *)
(** ** Every call, whatever its outcome *)
(* ===================================================================== *)

Section Calls.

Variable getLeaderCandidate : JsMap.t IClient -> option string.
Variable analyzeTasks : string -> JsMap.t IClient -> list string -> option IHelpTasks.

(** The delta manager has moved on to another minimum sequence number. *)
Definition set_deltaManager (v : option DeltaManager) (r : Runtime) : Runtime :=
  mkRuntime (id r) (clientId r) (connectionState r) (closed r) (channels r)
            (channelsDeferred r) (pendingAttach r) (tasks r) (version r)
            (leaderElector r) (connectedHandlers r) (quorum r) v
            (chaincode r) (storageService r) (trace r).

(** One thing that happens to a runtime, and the state it is in afterwards.
    A call of a method counts whether it returns or throws, with any
    arguments: the state is the one the call leaves behind. The private
    [reserve] and [loadSnapshotChannel] are run by [LoadFromSnapshot], which
    reserves every path before it loads any; the listeners are run by the
    elector. The last four are what the objects the runtime holds do on their
    own: a channel changes its answers, members come and go, the elector
    learns of a leader, the delta manager advances. The methods that are not
    embedded ([ready], [start], [prepare], [process], [uploadBlob], [getBlob],
    [getBlobMetadata]) are not among them. *)
Inductive call (r : Runtime) : Runtime -> Prop :=
| call_getChannel : forall id, call r (stateOf (getChannel id r))
| call_createChannel : forall id type, call r (stateOf (createChannel id type r))
| call_attachChannel : forall channel, call r (stateOf (attachChannel channel r))
| call_changeConnectionState : forall value clientId,
    call r (stateOf (changeConnectionState getLeaderCandidate value clientId r))
| call_processAttach : forall message local context,
    call r (stateOf (processAttach message local context r))
| call_prepareAttach : forall message local,
    call r (stateOf (prepareAttach message local r))
| call_getQuorum : call r (stateOf (getQuorum r))
| call_hasUnackedOps : call r (stateOf (hasUnackedOps r))
| call_snapshot : forall message, call r (stateOf (snapshot message r))
| call_save : forall tag, call r (stateOf (save tag r))
| call_transform : forall message, call r (stateOf (transform message r))
| call_stop : call r (stateOf (stop r))
| call_close : call r (stateOf (close r))
| call_updateMinSequenceNumber : forall msn,
    call r (stateOf (updateMinSequenceNumber msn r))
| call_snapshotInternal : call r (stateOf (snapshotInternal r))
| call_submitMessage : forall type content,
    call r (stateOf (submitMessage type content r))
| call_registerTasks : forall tasks version,
    call r (stateOf (registerTasks getLeaderCandidate tasks version r))
| call_reserve : forall id, call r (stateOf (reserve id r))
| call_loadSnapshotChannel : forall id tree storage messages branch msn,
    JsMap.has id (channelsDeferred r) = true ->
    call r (stateOf (loadSnapshotChannel id tree storage messages branch msn r))
| call_onNewLeader : forall leader,
    call r (stateOf (onNewLeader analyzeTasks leader r))
| call_onLeaderLeft : forall leader,
    call r (stateOf (onLeaderLeft getLeaderCandidate leader r))
| call_onMemberLeft : forall member,
    call r (stateOf (onMemberLeft analyzeTasks member r))
| call_channelObject : forall id entry object',
    JsMap.get id (channels r) = Some entry ->
    sameChannelObject (object entry) object' ->
    call r (set_channels
              (JsMap.set id (mkChannelState object' (storage entry) (connection entry))
                         (channels r)) r)
| call_quorum : forall members, call r (set_quorum members r)
| call_elector : forall leader, call r (stateOf (electorRecords leader r))
| call_deltaManager : forall deltaManager, call r (set_deltaManager deltaManager r).

(** Any number of them, one after the other. *)
Inductive calls (r : Runtime) : Runtime -> Prop :=
| calls_none : calls r r
| calls_call : forall r1 r2, calls r r1 -> call r1 r2 -> calls r r2.

(** The states a runtime comes to in this way: the one the constructor
    builds, and those that follow. *)
Inductive history : Runtime -> Prop :=
| history_new : forall id clientId deltaManager quorum chaincode storage state,
    history (newRuntime id clientId deltaManager quorum chaincode storage state)
| history_call : forall r r', history r -> call r r' -> history r'.

End Calls.

(** From [r] to [r'] the channel map has kept its ids in their order, the
    deferreds and the pending set are the same, and the trace has only
    grown. *)
Definition sameIds (r r' : Runtime) : Prop :=
  JsMap.keys (channels r') = JsMap.keys (channels r) /\
  channelsDeferred r' = channelsDeferred r /\
  pendingAttach r' = pendingAttach r /\
  exists es, trace r' = (trace r ++ es)%list.

(** A computation that, returning or throwing, leaves such a state. *)
Definition quiet {A : Type} (m : M A) : Prop :=
  forall r, sameIds r (stateOf (m r)).

(** Every attach message of the pending set is kept under the id it carries
    and has been handed to [submitFn]. *)
Definition pendingWasSubmitted (r : Runtime) : Prop :=
  forall id message,
    JsMap.get id (pendingAttach r) = Some message ->
    am_id message = id /\
    In (Submit Attach (AttachContent message)) (trace r).

(** What no call undoes, from [r] to [r']: the deferreds only grow, the trace
    only grows, the ids of the channel map stay distinct, an id new to the
    channel map has a resolved deferred, and a message new to the pending set
    sits under its own id and has been submitted. *)
Definition kept (r r' : Runtime) : Prop :=
  deferredGrows r r' /\
  (exists es, trace r' = (trace r ++ es)%list) /\
  (NoDup (JsMap.keys (channels r)) -> NoDup (JsMap.keys (channels r'))) /\
  (forall id, JsMap.has id (channels r') = true ->
              JsMap.has id (channels r) = true \/
              exists first, JsMap.get id (channelsDeferred r') = Some (Resolved first)) /\
  (forall id message,
      JsMap.get id (pendingAttach r') = Some message ->
      JsMap.get id (pendingAttach r) = Some message \/
      (am_id message = id /\
       In (Submit Attach (AttachContent message)) (trace r'))).

(* ===================================================================== *)
(** * Properties *)
(* ===================================================================== *)

(** Unfolding the plumbing of a method, down to a case analysis on what it
    reads from the state. *)
Ltac run_method :=
  unfold bind, verifyNotClosed, gets, modify, assert, expect, ret, throw.

(** ** Maps *)

Module JsMapFacts.
Import JsMap.

Lemma get_set_same {V : Type} (k : string) (v : V) (m : t V) :
  get k (set k v m) = Some v.
Proof.
  induction m as [|[k' v'] m IH]; simpl.
  - now rewrite String.eqb_refl.
  - destruct (String.eqb k k') eqn:E; simpl; rewrite E; auto.
Qed.

Lemma get_set_other {V : Type} (k k' : string) (v : V) (m : t V) :
  k <> k' -> get k' (set k v m) = get k' m.
Proof.
  intros Hne. induction m as [|[k0 v0] m IH]; simpl.
  - destruct (String.eqb k' k) eqn:E; auto.
    apply String.eqb_eq in E. congruence.
  - destruct (String.eqb k k0) eqn:E; simpl.
    + apply String.eqb_eq in E. subst k0.
      destruct (String.eqb k' k) eqn:E'; auto.
      apply String.eqb_eq in E'. congruence.
    + now rewrite IH.
Qed.

Lemma has_set_same {V : Type} (k : string) (v : V) (m : t V) :
  has k (set k v m) = true.
Proof. unfold has. now rewrite get_set_same. Qed.

Lemma has_set_other {V : Type} (k k' : string) (v : V) (m : t V) :
  k <> k' -> has k' (set k v m) = has k' m.
Proof. intros. unfold has. now rewrite get_set_other. Qed.

Lemma has_In_keys {V : Type} (k : string) (m : t V) :
  has k m = true <-> In k (keys m).
Proof.
  unfold has, keys. induction m as [|[k' v'] m IH]; simpl.
  - split; [discriminate | tauto].
  - destruct (String.eqb k k') eqn:E.
    + apply String.eqb_eq in E. subst. split; auto.
    + apply String.eqb_neq in E. rewrite IH. split; [auto | intros [H|H]; congruence].
Qed.

Lemma get_In {V : Type} (k : string) (v : V) (m : t V) :
  get k m = Some v -> In (k, v) m.
Proof.
  induction m as [|[k' v'] m IH]; simpl; [discriminate|].
  destruct (String.eqb k k') eqn:E.
  - apply String.eqb_eq in E. intros [= ->]. subst. now left.
  - auto.
Qed.

Lemma In_get {V : Type} (k : string) (v : V) (m : t V) :
  NoDup (keys m) -> In (k, v) m -> get k m = Some v.
Proof.
  unfold keys. induction m as [|[k' v'] m IH]; simpl; [tauto|].
  intros Hnd [H|H].
  - inversion H; subst. now rewrite String.eqb_refl.
  - inversion Hnd as [|? ? Hnotin Hnd']; subst.
    destruct (String.eqb k k') eqn:E.
    + apply String.eqb_eq in E. subst k'. exfalso. apply Hnotin.
      change k with (fst (k, v)). now apply in_map.
    + auto.
Qed.

Lemma keys_set_has {V : Type} (k : string) (v : V) (m : t V) :
  has k m = true -> keys (set k v m) = keys m.
Proof.
  unfold has, keys. induction m as [|[k' v'] m IH]; simpl; [discriminate|].
  destruct (String.eqb k k') eqn:E; simpl; auto.
  intros H. now rewrite IH.
Qed.

Lemma keys_set_new {V : Type} (k : string) (v : V) (m : t V) :
  has k m = false -> keys (set k v m) = (keys m ++ [k])%list.
Proof.
  unfold has, keys. induction m as [|[k' v'] m IH]; simpl; auto.
  destruct (String.eqb k k') eqn:E; simpl; [discriminate|].
  intros H. now rewrite IH.
Qed.

Lemma NoDup_keys_set {V : Type} (k : string) (v : V) (m : t V) :
  NoDup (keys m) -> NoDup (keys (set k v m)).
Proof.
  intros Hnd. destruct (has k m) eqn:E.
  - now rewrite keys_set_has.
  - rewrite keys_set_new by assumption.
    apply NoDup_app; auto.
    + constructor; [tauto | constructor].
    + intros x Hx [<-|[]]. apply has_In_keys in Hx. congruence.
Qed.

Lemma has_delete_same {V : Type} (k : string) (m : t V) :
  has k (delete k m) = false.
Proof.
  unfold has. induction m as [|[k' v'] m IH]; simpl; auto.
  destruct (String.eqb k k') eqn:E; simpl; auto. now rewrite E.
Qed.

Lemma get_delete_other {V : Type} (k k' : string) (m : t V) :
  k <> k' -> get k' (delete k m) = get k' m.
Proof.
  intros Hne. induction m as [|[k0 v0] m IH]; simpl; auto.
  destruct (String.eqb k k0) eqn:E; simpl.
  - apply String.eqb_eq in E. subst k0.
    destruct (String.eqb k' k) eqn:E'; auto.
    apply String.eqb_eq in E'. congruence.
  - now rewrite IH.
Qed.

Lemma has_delete_other {V : Type} (k k' : string) (m : t V) :
  k <> k' -> has k' (delete k m) = has k' m.
Proof. intros. unfold has. now rewrite get_delete_other. Qed.

(** A loop over the entries neither adds nor removes nor reorders keys. *)
Lemma keys_forEachEntry {V : Type} (body : V -> Error + V) (m : t V) :
  keys (fst (forEachEntry body m)) = keys m.
Proof.
  unfold keys. induction m as [|[k v] m IH]; simpl; auto.
  destruct (body v); simpl; auto.
  destruct (forEachEntry body m); simpl in *. now rewrite IH.
Qed.

(** A loop that runs to its end has applied its body to every entry. *)
Lemma forEachEntry_done {V : Type} (body : V -> Error + V) (m m' : t V) :
  forEachEntry body m = (m', None) ->
  Forall2 (fun a b => fst a = fst b /\ body (snd a) = inr (snd b)) m m'.
Proof.
  revert m'. induction m as [|[k v] m IH]; simpl; intros m' H.
  - inversion H. constructor.
  - destruct (body v) eqn:Eb; [discriminate|].
    destruct (forEachEntry body m) as [m'' e] eqn:El.
    inversion H; subst. constructor; auto.
Qed.

(** An entry the body leaves alone is left alone by the loop, whether the
    loop runs to its end or not. *)
Lemma forEachEntry_get_fixed {V : Type} (body : V -> Error + V) (m : t V)
      (k : string) (v : V) :
  get k m = Some v ->
  (forall v', body v = inr v' -> v' = v) ->
  get k (fst (forEachEntry body m)) = Some v.
Proof.
  intros Hget Hfix. induction m as [|[k' w] m IH]; simpl in *; [discriminate|].
  destruct (String.eqb k k') eqn:E.
  - inversion Hget; subst w.
    destruct (body v) eqn:Eb; simpl; [now rewrite E|].
    destruct (forEachEntry body m); simpl. rewrite E.
    now rewrite (Hfix _ eq_refl).
  - destruct (body w) eqn:Eb; simpl; [now rewrite E|].
    destruct (forEachEntry body m); simpl in *. rewrite E. auto.
Qed.

Lemma forEachEntry_get {V : Type} (body : V -> Error + V) (m m' : t V)
      (k : string) (v : V) :
  forEachEntry body m = (m', None) ->
  get k m = Some v ->
  exists v', body v = inr v' /\ get k m' = Some v'.
Proof.
  revert m'. induction m as [|[k' w] m IH]; simpl; intros m' H Hget; [discriminate|].
  destruct (body w) eqn:Eb; [discriminate|].
  destruct (forEachEntry body m) as [m'' e] eqn:El.
  inversion H; subst. simpl.
  destruct (String.eqb k k') eqn:E.
  - inversion Hget; subst. eauto.
  - eauto.
Qed.

End JsMapFacts.

(** ** Connection state *)

Lemma ConnectionState_eqb_eq (a b : ConnectionState) :
  ConnectionState_eqb a b = true <-> a = b.
Proof. destruct a, b; simpl; split; congruence. Qed.

Lemma ConnectionState_eqb_refl (a : ConnectionState) : ConnectionState_eqb a a = true.
Proof. now destruct a. Qed.

Lemma logAll_nil (r : Runtime) : logAll [] r = r.
Proof. destruct r; unfold logAll; simpl. now rewrite app_nil_r. Qed.

Lemma logAll_log (e : Event) (es : list Event) (r : Runtime) :
  logAll es (log e r) = logAll (e :: es) r.
Proof. unfold logAll, log; simpl. now rewrite <- app_assoc. Qed.

Lemma electionOnly_refl (r : Runtime) : electionOnly r r.
Proof.
  unfold electionOnly. repeat split; auto.
  exists []. now rewrite app_nil_r.
Qed.

Lemma electionOnly_trans (a b c : Runtime) :
  electionOnly a b -> electionOnly b c -> electionOnly a c.
Proof.
  unfold electionOnly.
  intros (H1 & H2 & H3 & H4 & H5 & H6 & H7 & p & Hp & Hf)
         (K1 & K2 & K3 & K4 & K5 & K6 & K7 & q & Hq & Hg).
  repeat split; try congruence.
  exists (p ++ q)%list. split.
  - rewrite Hq, Hp. now rewrite app_assoc.
  - rewrite forallb_app. now rewrite Hf, Hg.
Qed.

Section ConnectionFacts.

Variable getLeaderCandidate : JsMap.t IClient -> option string.

(** Resubmitting a list of attach messages on an open runtime logs one
    submission per message, in order, and does nothing else. *)
Lemma forEach_submit_attach (ms : list IAttachMessage) (r : Runtime) :
  closed r = false ->
  forEach ms (fun message => submit Attach (AttachContent message)) r
  = Ok tt (logAll (map (fun message => Submit Attach (AttachContent message)) ms) r).
Proof.
  revert r. induction ms as [|m ms IH]; intros r Hopen; simpl.
  - now rewrite logAll_nil.
  - unfold bind at 1. unfold submit at 1. unfold bind, verifyNotClosed, modify.
    rewrite Hopen. rewrite IH by exact Hopen. now rewrite logAll_log.
Qed.

Lemma proposeLeadership_open (r : Runtime) (e : LeaderElector) :
  closed r = false -> leaderElector r = Some e ->
  proposeLeadership getLeaderCandidate r
  = Ok tt (if optionStringEqb (getLeaderCandidate (getMembers (quorum r))) (clientId r)
           then log (ProposeLeadership (le_clientId e)) r else r).
Proof.
  intros Hopen He.
  unfold proposeLeadership, getQuorum, bind, verifyNotClosed, gets.
  rewrite Hopen.
  destruct (optionStringEqb _ _); auto.
  unfold bind, gets, expect. rewrite He. reflexivity.
Qed.

Lemma initLeaderElection_open (r : Runtime) :
  closed r = false ->
  exists r', initLeaderElection getLeaderCandidate r = Ok tt r' /\ electionOnly r r'.
Proof.
  intros Hopen.
  unfold initLeaderElection, getQuorum, bind, verifyNotClosed, gets, modify.
  rewrite Hopen.
  erewrite proposeLeadership_open; [|exact Hopen|reflexivity].
  eexists. split; [reflexivity|].
  simpl. destruct (optionStringEqb _ _); unfold electionOnly; simpl.
  - repeat split; auto. eexists [_]. split; reflexivity.
  - repeat split; auto. exists []. now rewrite app_nil_r.
Qed.

Lemma runConnectedHandlers_open (n : nat) (r : Runtime) :
  closed r = false ->
  exists r', runConnectedHandlers getLeaderCandidate n r = Ok tt r' /\ electionOnly r r'.
Proof.
  revert r. induction n as [|n IH]; intros r Hopen; simpl.
  - exists r. split; [reflexivity | apply electionOnly_refl].
  - destruct (initLeaderElection_open r Hopen) as (r1 & E1 & F1).
    unfold bind at 1. rewrite E1.
    unfold bind at 1. unfold modify at 1.
    set (r2 := set_connectedHandlers _ r1).
    assert (F2 : electionOnly r1 r2).
    { unfold electionOnly, r2; simpl. repeat split; auto.
      exists []. now rewrite app_nil_r. }
    assert (Hopen2 : closed r2 = false).
    { destruct F1 as (F & _). unfold r2; simpl. congruence. }
    destruct (IH r2 Hopen2) as (r3 & E3 & F3).
    exists r3. split; [exact E3|].
    eapply electionOnly_trans; [exact F1|].
    eapply electionOnly_trans; [exact F2|exact F3].
Qed.

(** Telling the delta connections of a state change never throws and keeps
    the keys of the channel map. *)
Lemma forEachEntry_notifyConnection (value : ConnectionState) (m : JsMap.t IChannelState) :
  snd (forEachEntry (notifyConnection value) m) = None.
Proof.
  induction m as [|[k v] m IH]; simpl; auto.
  unfold notifyConnection at 1.
  destruct (connection v); destruct (forEachEntry (notifyConnection value) m); simpl in *; auto.
Qed.

Lemma overChannels_notifyConnection (value : ConnectionState) (r : Runtime) :
  exists chans,
    overChannels (notifyConnection value) r = Ok tt (set_channels chans r) /\
    JsMap.keys chans = JsMap.keys (channels r).
Proof.
  unfold overChannels.
  pose proof (forEachEntry_notifyConnection value (channels r)) as Hs.
  pose proof (JsMapFacts.keys_forEachEntry (notifyConnection value) (channels r)) as Hk.
  destruct (forEachEntry (notifyConnection value) (channels r)) as [chans e].
  simpl in *. subst e. eauto.
Qed.

End ConnectionFacts.

(** C10. Calling [changeConnectionState] with the state the runtime is already
    in changes nothing at all: the call returns (or throws, on a closed
    runtime) with the runtime exactly as it was, so the stored client id is
    not replaced by the supplied one, the trace has no new submission and no
    connected notification, and no delta connection has been told anything. *)
Theorem changeConnectionState_same_state_is_noop :
  forall (getLeaderCandidate : JsMap.t IClient -> option string)
         (r : Runtime) (suppliedId : string),
    let result := changeConnectionState getLeaderCandidate (connectionState r) suppliedId r in
    result = (if closed r then Throw RuntimeClosed r else Ok tt r) /\
    stateOf result = r /\
    clientId (stateOf result) = clientId r /\
    trace (stateOf result) = trace r /\
    pendingAttach (stateOf result) = pendingAttach r /\
    channels (stateOf result) = channels r.
Proof.
  intros cand r suppliedId result.
  assert (E : result = if closed r then Throw RuntimeClosed r else Ok tt r).
  { unfold result, changeConnectionState, bind, verifyNotClosed, gets.
    destruct (closed r); [reflexivity|].
    now rewrite ConnectionState_eqb_refl. }
  rewrite E. split; [reflexivity|].
  destruct (closed r); simpl; auto.
Qed.

(** C4. On an open runtime, a transition to [Connected] submits again every
    attach message of the pending set, each exactly as it is stored and in the
    order of the set, then emits the connected notification (after which only
    leadership proposals may follow); the pending set is what it was and the
    channel map has the same ids as before. *)
Theorem changeConnectionState_connected_resubmits_pending :
  forall (getLeaderCandidate : JsMap.t IClient -> option string)
         (r : Runtime) (newClientId : string),
    closed r = false ->
    connectionState r <> Connected ->
    exists r' proposals,
      changeConnectionState getLeaderCandidate Connected newClientId r = Ok tt r' /\
      trace r' = (trace r
                  ++ map (fun message => Submit Attach (AttachContent message))
                         (JsMap.values (pendingAttach r))
                  ++ [EmitConnected newClientId] ++ proposals)%list /\
      forallb isProposal proposals = true /\
      pendingAttach r' = pendingAttach r /\
      JsMap.keys (channels r') = JsMap.keys (channels r) /\
      connectionState r' = Connected /\
      clientId r' = newClientId.
Proof.
  intros cand r cid Hopen Hstate.
  unfold changeConnectionState.
  unfold bind at 1. unfold verifyNotClosed. rewrite Hopen.
  unfold bind at 1. unfold gets at 1.
  destruct (ConnectionState_eqb Connected (connectionState r)) eqn:E.
  { apply ConnectionState_eqb_eq in E. congruence. }
  unfold bind at 1. unfold modify at 1.
  unfold bind at 1. unfold modify at 1.
  set (r1 := set_clientId cid (set_connectionState Connected r)).
  simpl ConnectionState_eqb. cbv iota.
  unfold emitConnected, bind, gets, modify.
  change (pendingAttach r1) with (pendingAttach r).
  rewrite forEach_submit_attach by exact Hopen.
  set (r2 := logAll _ r1).
  destruct (runConnectedHandlers_open cand (connectedHandlers (log (EmitConnected cid) r2))
              (log (EmitConnected cid) r2) Hopen)
    as (r3 & E3 & F3).
  rewrite E3.
  destruct (overChannels_notifyConnection Connected r3) as (chans & E4 & K4).
  rewrite E4.
  destruct F3 as (F1 & F2 & F3 & _ & F5 & F6 & _ & proposals & Ft & Fp).
  exists (set_channels chans r3), proposals.
  split; [reflexivity|].
  simpl. rewrite Ft. simpl.
  repeat split; auto.
  - now rewrite <- !app_assoc.
  - now rewrite K4, F2.
Qed.

(** A run of C4: one attach message is pending when the client reconnects. *)
Lemma changeConnectionState_connected_resubmits_pending_witness :
  exists r' proposals,
    changeConnectionState lowestOrderedCandidate Connected "B2" Scenario.pending
      = Ok tt r' /\
    trace r' = (trace Scenario.pending
                ++ map (fun message => Submit Attach (AttachContent message))
                       (JsMap.values (pendingAttach Scenario.pending))
                ++ [EmitConnected "B2"] ++ proposals)%list /\
    forallb isProposal proposals = true /\
    pendingAttach r' = pendingAttach Scenario.pending /\
    JsMap.keys (channels r') = JsMap.keys (channels Scenario.pending) /\
    connectionState r' = Connected /\
    clientId r' = "B2".
Proof.
  apply (changeConnectionState_connected_resubmits_pending
           lowestOrderedCandidate Scenario.pending "B2").
  - reflexivity.
  - discriminate.
Defined.

(** ** Minimum sequence numbers *)

Lemma forwardMinSequenceNumberWith_included
      (update : Z -> ChannelDeltaConnection.t -> ChannelDeltaConnection.t)
      (msn : Z) (entry entry' : IChannelState) :
  forwardMinSequenceNumberWith update msn entry = inr entry' ->
  entry' = if included entry then forwardedWith update msn entry else entry.
Proof.
  unfold forwardMinSequenceNumberWith, included, forwardedWith.
  destruct (IChannel.isLocal (object entry)); simpl.
  - now intros [= <-].
  - destruct (connection entry) as [c|]; [|discriminate].
    destruct (ChannelDeltaConnection.baseMappingIsSet c); now intros [= <-].
Qed.

(** C8. [updateMinSequenceNumber] touches nothing of the runtime but the
    entries of the channel map, and it calls [updateMinSequenceNumber] on the
    delta connection of a channel only when the channel is not local and the
    connection has its base mapping. Whatever that method of the connection
    does with the number: a channel that is local, or whose connection has no
    base mapping, is left exactly as it was, whether the call returns or
    throws; when the call returns, each channel that is not local and has its
    base mapping has the connection the method made of its own, and no other
    has. The runtime's method is this loop with the connection of the
    container, for which an update without base mapping would have had no
    effect either. *)
Theorem updateMinSequenceNumber_forwards_only_when_mapped :
  forall (update : Z -> ChannelDeltaConnection.t -> ChannelDeltaConnection.t)
         (msn : Z) (r : Runtime) (id : string) (entry : IChannelState),
    JsMap.get id (channels r) = Some entry ->
    let result := updateMinSequenceNumberWith update msn r in
    (included entry = false ->
     JsMap.get id (channels (stateOf result)) = Some entry) /\
    (forall r', result = Ok tt r' ->
       JsMap.get id (channels r')
       = Some (if included entry then forwardedWith update msn entry else entry)) /\
    (exists chans, stateOf result = set_channels chans r /\
                   JsMap.keys chans = JsMap.keys (channels r)) /\
    updateMinSequenceNumber msn r
    = updateMinSequenceNumberWith ChannelDeltaConnection.updateMinSequenceNumber msn r /\
    forwardedWith ChannelDeltaConnection.updateMinSequenceNumber msn entry
    = forwardedTo msn entry.
Proof.
  intros update msn r id entry Hget result.
  unfold result, updateMinSequenceNumberWith, overChannels.
  pose proof (JsMapFacts.keys_forEachEntry
                (forwardMinSequenceNumberWith update msn) (channels r)) as Hk.
  pose proof (JsMapFacts.forEachEntry_get_fixed
                (forwardMinSequenceNumberWith update msn) (channels r) id entry Hget)
    as Hfix.
  pose proof (fun m' => JsMapFacts.forEachEntry_get
                (forwardMinSequenceNumberWith update msn) (channels r) m' id entry)
    as Hdone.
  destruct (forEachEntry (forwardMinSequenceNumberWith update msn) (channels r))
    as [chans e].
  simpl in Hk, Hfix.
  assert (Hstate : stateOf (match e with
                            | Some err => Throw err (set_channels chans r)
                            | None => Ok tt (set_channels chans r)
                            end) = set_channels chans r)
    by (destruct e; reflexivity).
  split; [|split; [|split; [|split]]].
  - intros Hexcl. rewrite Hstate. simpl. apply Hfix.
    intros v' Hv'. apply forwardMinSequenceNumberWith_included in Hv'.
    now rewrite Hexcl in Hv'.
  - intros r' Hr'. destruct e as [err|]; [discriminate|].
    inversion Hr'; subst r'. simpl.
    destruct (Hdone chans eq_refl Hget) as (v' & Hv' & Hg).
    apply forwardMinSequenceNumberWith_included in Hv'. now rewrite Hg, Hv'.
  - exists chans. split; [exact Hstate | exact Hk].
  - reflexivity.
  - reflexivity.
Qed.

(** A run of C8: the channel still waiting for its attach acknowledgment has
    no base mapping, and a connection that would take any number it is given
    is given none. *)
Lemma updateMinSequenceNumber_forwards_only_when_mapped_witness :
  let entry := mkChannelState (Scenario.channel 1 "c1" "TypeA" false)
                 (Some (ChannelStorageService None (storageService Scenario.fresh)))
                 (Some (ChannelDeltaConnection.new "c1" Disconnected)) in
  let result := updateMinSequenceNumberWith eagerConnection 12 Scenario.pending in
  JsMap.get "c1" (channels Scenario.pending) = Some entry /\
  forwardedWith eagerConnection 12 entry <> entry /\
  JsMap.get "c1" (channels (stateOf result)) = Some entry.
Proof.
  intros entry result.
  split; [reflexivity|]. split; [discriminate|].
  apply (updateMinSequenceNumber_forwards_only_when_mapped
           eagerConnection 12 Scenario.pending "c1" entry eq_refl).
  reflexivity.
Defined.

(** ** Attach messages *)

(** C2. Processing the echo of the client's own attach message, on an open
    runtime that has the message pending: the id leaves the pending set
    (whatever happens afterwards); if the channel has a delta connection
    without base mapping, the call returns the channel, and what it did to the
    runtime is exactly that removal and [setBaseMapping(0,
    message.minimumSequenceNumber)] on that connection; and the call never
    returns without having made that [setBaseMapping] call. *)
Theorem processAttach_local_sets_base_mapping :
  forall (message : ISequencedDocumentMessage IAttachMessage)
         (context : option IChannelState) (r : Runtime),
    closed r = false ->
    JsMap.has (am_id (contents message)) (pendingAttach r) = true ->
    let id := am_id (contents message) in
    let msn := minimumSequenceNumber message in
    let result := processAttach message true context r in
    pendingAttach (stateOf result) = JsMap.delete id (pendingAttach r) /\
    JsMap.has id (pendingAttach (stateOf result)) = false /\
    (forall entry c,
        JsMap.get id (channels r) = Some entry ->
        connection entry = Some c ->
        ChannelDeltaConnection.baseMappingIsSet c = false ->
        exists c',
          ChannelDeltaConnection.setBaseMapping 0 msn c = Some c' /\
          ChannelDeltaConnection.baseMapping c' = Some (0, msn) /\
          result = Ok (object entry)
                      (set_channels
                         (JsMap.set id (withConnection c' entry) (channels r))
                         (set_pendingAttach (JsMap.delete id (pendingAttach r)) r))) /\
    (forall channel r',
        result = Ok channel r' ->
        exists entry c c',
          JsMap.get id (channels r) = Some entry /\
          connection entry = Some c /\
          ChannelDeltaConnection.setBaseMapping 0 msn c = Some c' /\
          JsMap.get id (channels r') = Some (withConnection c' entry) /\
          channel = object entry).
Proof.
  intros message context r Hopen Hpending id msn result.
  subst result. unfold processAttach.
  run_method.
  rewrite Hopen. fold id in Hpending |- *. fold msn. rewrite Hpending. simpl.
  destruct (JsMap.get id (channels r)) as [entry|] eqn:Hentry; simpl.
  2:{ repeat split; auto using JsMapFacts.has_delete_same; try discriminate. }
  destruct (connection entry) as [c|] eqn:Hc; simpl.
  2:{ repeat split; auto using JsMapFacts.has_delete_same; try discriminate.
      intros e c [= <-]. congruence. }
  destruct (ChannelDeltaConnection.setBaseMapping 0 msn c) as [c'|] eqn:Hset; simpl.
  2:{ repeat split; auto using JsMapFacts.has_delete_same; try discriminate.
      intros e c0 [= <-] Hc0 Hunset.
      assert (c0 = c) by congruence. subst c0.
      unfold ChannelDeltaConnection.setBaseMapping in Hset.
      rewrite Hunset in Hset. discriminate. }
  rewrite JsMapFacts.get_set_same. simpl.
  repeat split; auto using JsMapFacts.has_delete_same.
  - intros e c0 [= <-] Hc0 Hunset.
    assert (c0 = c) by congruence. subst c0.
    exists c'. repeat split; auto.
    unfold ChannelDeltaConnection.setBaseMapping in Hset.
    rewrite Hunset in Hset. inversion Hset. reflexivity.
  - intros channel r' [= <- <-].
    exists entry, c, c'. simpl. rewrite JsMapFacts.get_set_same. auto.
Qed.

(** A run of C2: the echo of the attach message of ["c1"]. *)
Lemma processAttach_local_sets_base_mapping_witness :
  let result := processAttach Scenario.echo true None Scenario.pending in
  pendingAttach (stateOf result) = JsMap.delete "c1" (pendingAttach Scenario.pending) /\
  JsMap.has "c1" (pendingAttach (stateOf result)) = false /\
  (forall entry c,
      JsMap.get "c1" (channels Scenario.pending) = Some entry ->
      connection entry = Some c ->
      ChannelDeltaConnection.baseMappingIsSet c = false ->
      exists c',
        ChannelDeltaConnection.setBaseMapping 0 7 c = Some c' /\
        ChannelDeltaConnection.baseMapping c' = Some (0, 7) /\
        result = Ok (object entry)
                    (set_channels
                       (JsMap.set "c1" (withConnection c' entry) (channels Scenario.pending))
                       (set_pendingAttach
                          (JsMap.delete "c1" (pendingAttach Scenario.pending))
                          Scenario.pending))) /\
  (forall channel r',
      result = Ok channel r' ->
      exists entry c c',
        JsMap.get "c1" (channels Scenario.pending) = Some entry /\
        connection entry = Some c /\
        ChannelDeltaConnection.setBaseMapping 0 7 c = Some c' /\
        JsMap.get "c1" (channels r') = Some (withConnection c' entry) /\
        channel = object entry).
Proof.
  apply (processAttach_local_sets_base_mapping Scenario.echo None Scenario.pending);
    reflexivity.
Defined.

(** ** What each operation does to the channel map and the pending set *)

Lemma createChannel_inv (id type : string) (r r' : Runtime) (channel : IChannel.t) :
  createChannel id type r = Ok channel r' ->
  closed r = false /\
  (exists extension, chaincode r type = Some extension /\ channel = create extension id) /\
  channels r' = JsMap.set id (mkChannelState channel None None) (channels r) /\
  pendingAttach r' = pendingAttach r.
Proof.
  unfold createChannel, resolveChannel, bind, verifyNotClosed, gets, modify, expect, ret, throw.
  destruct (closed r); [discriminate|].
  destruct (chaincode r type) as [extension|] eqn:E; simpl; [|discriminate].
  destruct (JsMap.get id (channelsDeferred r)); simpl;
    intros [= <- <-]; simpl; eauto 6.
Qed.

Lemma attachChannel_inv (channel : IChannel.t) (r r' : Runtime) (services : IObjectServices) :
  attachChannel channel r = Ok services r' ->
  closed r = false /\
  exists entry,
    JsMap.get (IChannel.id channel) (channels r) = Some entry /\
    IChannel.ref (object entry) = IChannel.ref channel /\
    channels r'
    = JsMap.set (IChannel.id channel)
        (mkChannelState (object entry)
           (Some (ChannelStorageService None (storageService r)))
           (Some (ChannelDeltaConnection.new (IChannel.id channel) (connectionState r))))
        (channels r) /\
    pendingAttach r'
    = JsMap.set (IChannel.id channel)
        (mkAttachMessage (IChannel.id channel) (IChannel.snapshot channel)
                         (IChannel.type channel))
        (pendingAttach r) /\
    trace r' = (trace r ++ [Submit Attach
                              (AttachContent
                                 (mkAttachMessage (IChannel.id channel)
                                    (IChannel.snapshot channel)
                                    (IChannel.type channel)))])%list.
Proof.
  unfold attachChannel, submit, getObjectServices.
  unfold bind, verifyNotClosed, gets, modify, expect, assert, ret, throw.
  destruct (closed r) eqn:Hopen; [discriminate|]. simpl. rewrite Hopen. simpl.
  destruct (JsMap.get (IChannel.id channel) (channels r)) as [entry|] eqn:E; simpl;
    [|discriminate].
  destruct (Nat.eqb (IChannel.ref (object entry)) (IChannel.ref channel)) eqn:Eref;
    simpl; [|discriminate].
  intros [= <- <-]. simpl. split; [reflexivity|].
  exists entry. apply Nat.eqb_eq in Eref. auto.
Qed.

Lemma processAttach_local_inv (message : ISequencedDocumentMessage IAttachMessage)
      (context : option IChannelState) (r r' : Runtime) (channel : IChannel.t) :
  processAttach message true context r = Ok channel r' ->
  exists entry c c',
    JsMap.get (am_id (contents message)) (channels r) = Some entry /\
    connection entry = Some c /\
    ChannelDeltaConnection.setBaseMapping 0 (minimumSequenceNumber message) c = Some c' /\
    channels r' = JsMap.set (am_id (contents message)) (withConnection c' entry) (channels r) /\
    pendingAttach r' = JsMap.delete (am_id (contents message)) (pendingAttach r).
Proof.
  unfold processAttach.
  run_method.
  destruct (closed r); [discriminate|].
  destruct (JsMap.has (am_id (contents message)) (pendingAttach r)); simpl; [|discriminate].
  destruct (JsMap.get (am_id (contents message)) (channels r)) as [entry|] eqn:E; simpl;
    [|discriminate].
  destruct (connection entry) as [c|] eqn:Ec; simpl; [|discriminate].
  destruct (ChannelDeltaConnection.setBaseMapping 0 (minimumSequenceNumber message) c)
    as [c'|] eqn:Es; simpl; [|discriminate].
  rewrite JsMapFacts.get_set_same. simpl.
  intros [= <- <-]. simpl. exists entry, c, c'. auto.
Qed.

Lemma prepareAttach_state (message : ISequencedDocumentMessage IAttachMessage)
      (local : bool) (r r1 : Runtime) (context : option IChannelState) :
  prepareAttach message local r = Ok context r1 -> r1 = r.
Proof.
  unfold prepareAttach, loadChannel.
  run_method.
  destruct (closed r); [discriminate|].
  destruct local; [now intros [= <- <-]|].
  destruct (ChannelDeltaConnection.setBaseMapping _ _ _); simpl; [|discriminate].
  destruct (chaincode r (am_type (contents message))); simpl; [|discriminate].
  now intros [= <- <-].
Qed.

Lemma processAttach_remote_inv (message : ISequencedDocumentMessage IAttachMessage)
      (context : IChannelState) (r r' : Runtime) (channel : IChannel.t) :
  processAttach message false (Some context) r = Ok channel r' ->
  channels r' = JsMap.set (IChannel.id (object context)) context (channels r) /\
  pendingAttach r' = pendingAttach r.
Proof.
  unfold processAttach, resolveChannel.
  run_method.
  destruct (closed r); [discriminate|]. simpl.
  destruct (JsMap.get (IChannel.id (object context)) (channelsDeferred r)); simpl;
    match goal with
    | |- context [JsMap.get ?k (JsMap.set ?k' ?v ?m)] =>
        destruct (JsMap.get k (JsMap.set k' v m)); simpl; [|discriminate]
    end;
    intros [= <- <-]; simpl; auto.
Qed.

Lemma reserve_inv (id : string) (r r1 : Runtime) :
  reserve id r = Ok tt r1 ->
  channels r1 = channels r /\ pendingAttach r1 = pendingAttach r.
Proof.
  unfold reserve, bind, gets, modify, ret.
  destruct (negb _); intros [= <-]; simpl; auto.
Qed.

Lemma loadSnapshotChannel_inv (id : string) (tree : ISnapshotTree)
      (storage : IDocumentStorageService)
      (messages : list (ISequencedDocumentMessage IEnvelope))
      (branch : string) (msn : Z) (r r' : Runtime) :
  loadSnapshotChannel id tree storage messages branch msn r = Ok tt r' ->
  JsMap.has id (channels r) = false /\
  pendingAttach r' = pendingAttach r /\
  exists details, channels r' = JsMap.set id details (channels r).
Proof.
  unfold loadSnapshotChannel, loadChannel, getObjectServices.
  unfold bind, gets, modify, assert, expect, ret, throw.
  destruct (match JsMap.get ".attributes" (blobs tree) with
            | Some sha => readAndParse storage sha
            | None => None
            end) as [attributes|]; simpl; [|discriminate].
  match goal with
  | |- context [translateAll ?c messages] =>
      destruct (translateAll c messages) as [ms|]; simpl; [|discriminate]
  end.
  destruct (chaincode r (attr_type attributes)) as [extension|]; simpl; [|discriminate].
  destruct (JsMap.has id (channels r)) eqn:Ehas; simpl; [discriminate|].
  destruct (JsMap.get id (channelsDeferred r)); simpl; [|discriminate].
  intros [= <-]. simpl. eauto.
Qed.

Lemma updateMinSequenceNumber_inv (msn : Z) (r r' : Runtime) :
  updateMinSequenceNumber msn r = Ok tt r' ->
  pendingAttach r' = pendingAttach r /\
  forEachEntry (forwardMinSequenceNumber msn) (channels r) = (channels r', None).
Proof.
  unfold updateMinSequenceNumber, updateMinSequenceNumberWith, overChannels.
  fold forwardMinSequenceNumber.
  destruct (forEachEntry (forwardMinSequenceNumber msn) (channels r)) as [chans [e|]];
    [discriminate|].
  intros [= <-]. simpl. auto.
Qed.

Lemma overChannels_inv (body : IChannelState -> Error + IChannelState) (r r' : Runtime) :
  overChannels body r = Ok tt r' ->
  forEachEntry body (channels r) = (channels r', None) /\
  pendingAttach r' = pendingAttach r.
Proof.
  unfold overChannels.
  destruct (forEachEntry body (channels r)) as [chans [e|]]; [discriminate|].
  intros [= <-]. simpl. auto.
Qed.

Section LifecycleFacts.

Variable getLeaderCandidate : JsMap.t IClient -> option string.

Lemma changeConnectionState_inv (value : ConnectionState) (suppliedId : string)
      (r r' : Runtime) :
  changeConnectionState getLeaderCandidate value suppliedId r = Ok tt r' ->
  pendingAttach r' = pendingAttach r /\
  (channels r' = channels r \/
   forEachEntry (notifyConnection value) (channels r) = (channels r', None)).
Proof.
  unfold changeConnectionState.
  unfold bind at 1. unfold verifyNotClosed.
  destruct (closed r) eqn:Hopen; [discriminate|].
  unfold bind at 1. unfold gets at 1.
  destruct (ConnectionState_eqb value (connectionState r)).
  { intros [= <-]. auto. }
  unfold bind at 1. unfold modify at 1.
  unfold bind at 1. unfold modify at 1.
  set (r1 := set_clientId suppliedId (set_connectionState value r)).
  destruct (ConnectionState_eqb value Connected).
  - unfold emitConnected, bind, gets, modify.
    change (pendingAttach r1) with (pendingAttach r).
    rewrite forEach_submit_attach by exact Hopen.
    match goal with
    | |- context [runConnectedHandlers _ ?n ?x] =>
        destruct (runConnectedHandlers_open getLeaderCandidate n x Hopen)
          as (r3 & E3 & F3)
    end.
    rewrite E3. intros H. apply overChannels_inv in H. destruct H as [H1 H2].
    destruct F3 as (_ & F2 & F3 & _).
    simpl in F2, F3. rewrite F2 in H1. split; [congruence | now right].
  - unfold bind, ret. intros H. apply overChannels_inv in H. destruct H as [H1 H2].
    split; [exact H2 | now right].
Qed.

(** A loop whose body leaves the base mapping of each entry as it is. *)
Lemma forEachEntry_mapped (body : IChannelState -> Error + IChannelState)
      (m m' : JsMap.t IChannelState) :
  forEachEntry body m = (m', None) ->
  (forall v v', body v = inr v' -> mapped v' = mapped v) ->
  JsMap.keys m' = JsMap.keys m /\
  forall id e', JsMap.get id m' = Some e' ->
                exists e, JsMap.get id m = Some e /\ mapped e' = mapped e.
Proof.
  intros Hloop Hbody. split.
  - pose proof (JsMapFacts.keys_forEachEntry body m) as H. now rewrite Hloop in H.
  - revert m' Hloop. induction m as [|[k v] m IH]; simpl; intros m' Hloop id e' Hget.
    + inversion Hloop; subst. discriminate.
    + destruct (body v) as [|v'] eqn:Eb; [discriminate|].
      destruct (forEachEntry body m) as [m'' e] eqn:El.
      inversion Hloop; subst. simpl in Hget.
      destruct (String.eqb id k).
      * inversion Hget; subst. eauto.
      * eauto.
Qed.

Lemma notifyConnection_mapped (value : ConnectionState) (v v' : IChannelState) :
  notifyConnection value v = inr v' -> mapped v' = mapped v.
Proof.
  unfold notifyConnection, mapped.
  destruct (connection v) eqn:E; intros [= <-]; simpl; [reflexivity | now rewrite E].
Qed.

Lemma forwardMinSequenceNumber_mapped (msn : Z) (v v' : IChannelState) :
  forwardMinSequenceNumber msn v = inr v' -> mapped v' = mapped v.
Proof.
  unfold forwardMinSequenceNumber, forwardMinSequenceNumberWith, mapped.
  destruct (IChannel.isLocal (object v)); simpl; [now intros [= <-]|].
  destruct (connection v) as [c|] eqn:E; [|discriminate].
  destruct (ChannelDeltaConnection.baseMappingIsSet c) eqn:Em; intros [= <-]; simpl.
  - unfold ChannelDeltaConnection.updateMinSequenceNumber. rewrite Em.
    exact Em.
  - now rewrite E.
Qed.

(** The invariant survives a [set] in the channel map, if the new entry of
    a pending id has no base mapping. *)
Lemma invariant_set (r r' : Runtime) (id : string) (st : IChannelState) :
  channelInvariant r ->
  pendingAttach r' = pendingAttach r ->
  channels r' = JsMap.set id st (channels r) ->
  (JsMap.has id (pendingAttach r) = true -> mapped st = false) ->
  channelInvariant r'.
Proof.
  intros [Hu Hr Hm] Hp Hc Hst. constructor; rewrite ?Hp, Hc.
  - now apply JsMapFacts.NoDup_keys_set.
  - intros id0 H0. destruct (string_dec id id0) as [<-|Hne].
    + apply JsMapFacts.has_set_same.
    + rewrite JsMapFacts.has_set_other by assumption. auto.
  - intros id0 entry H0. destruct (string_dec id id0) as [<-|Hne].
    + rewrite JsMapFacts.get_set_same. intros [= <-]. auto.
    + rewrite JsMapFacts.get_set_other by assumption. eauto.
Qed.

(** The invariant survives a loop that keeps base mappings. *)
Lemma invariant_loop (r r' : Runtime) (body : IChannelState -> Error + IChannelState) :
  channelInvariant r ->
  pendingAttach r' = pendingAttach r ->
  forEachEntry body (channels r) = (channels r', None) ->
  (forall v v', body v = inr v' -> mapped v' = mapped v) ->
  channelInvariant r'.
Proof.
  intros [Hu Hr Hm] Hp Hloop Hbody.
  destruct (forEachEntry_mapped body _ _ Hloop Hbody) as [Hk Hg].
  constructor; rewrite ?Hp.
  - now rewrite Hk.
  - intros id0 H0. apply JsMapFacts.has_In_keys. rewrite Hk.
    apply JsMapFacts.has_In_keys. auto.
  - intros id0 e' H0 Hget. destruct (Hg _ _ Hget) as (e & He & Hme).
    rewrite Hme. eauto.
Qed.

Lemma step_invariant (r r' : Runtime) :
  step getLeaderCandidate r r' -> channelInvariant r -> channelInvariant r'.
Proof.
  intros Hstep Hinv. destruct Hstep.
  - (* createChannel *)
    apply createChannel_inv in H. destruct H as (_ & _ & Hc & Hp).
    eapply invariant_set; eauto.
  - (* attachChannel *)
    apply attachChannel_inv in H.
    destruct H as (_ & entry & Hget & _ & Hc & Hp & _).
    destruct Hinv as [Hu Hr Hm]. constructor; rewrite ?Hp, ?Hc.
    + now apply JsMapFacts.NoDup_keys_set.
    + intros id0. destruct (string_dec (IChannel.id channel) id0) as [<-|Hne].
      * intros _. apply JsMapFacts.has_set_same.
      * rewrite !JsMapFacts.has_set_other by assumption. auto.
    + intros id0 e. destruct (string_dec (IChannel.id channel) id0) as [<-|Hne].
      * rewrite JsMapFacts.get_set_same. now intros _ [= <-].
      * rewrite JsMapFacts.has_set_other, JsMapFacts.get_set_other by assumption. eauto.
  - (* the echo of an attach message *)
    apply processAttach_local_inv in H.
    destruct H as (entry & c & c' & Hget & _ & _ & Hc & Hp).
    destruct Hinv as [Hu Hr Hm]. constructor; rewrite ?Hp, ?Hc.
    + now apply JsMapFacts.NoDup_keys_set.
    + intros id0. destruct (string_dec (am_id (contents message)) id0) as [<-|Hne].
      * now rewrite JsMapFacts.has_delete_same.
      * rewrite JsMapFacts.has_delete_other, JsMapFacts.has_set_other by assumption. auto.
    + intros id0 e. destruct (string_dec (am_id (contents message)) id0) as [<-|Hne].
      * now rewrite JsMapFacts.has_delete_same.
      * rewrite JsMapFacts.has_delete_other, JsMapFacts.get_set_other by assumption. eauto.
  - (* an attach message of a peer *)
    apply prepareAttach_state in H. subst r1.
    apply processAttach_remote_inv in H1. destruct H1 as [Hc Hp].
    eapply invariant_set; eauto. congruence.
  - (* a channel loaded from a snapshot *)
    apply reserve_inv in H. destruct H as [Hc1 Hp1].
    apply loadSnapshotChannel_inv in H0. destruct H0 as (Hnew & Hp & details & Hc).
    rewrite Hc1 in Hnew, Hc. rewrite Hp1 in Hp.
    eapply invariant_set; eauto.
    intros Hpending. apply (inv_registered _ Hinv) in Hpending. congruence.
  - (* changeConnectionState *)
    apply changeConnectionState_inv in H. destruct H as [Hp [Hc|Hloop]].
    + destruct Hinv as [Hu Hr Hm]. constructor; rewrite ?Hp, Hc; auto.
    + eapply invariant_loop; eauto using notifyConnection_mapped.
  - (* updateMinSequenceNumber *)
    apply updateMinSequenceNumber_inv in H. destruct H as [Hp Hloop].
    eapply invariant_loop; eauto using forwardMinSequenceNumber_mapped.
  - (* the channel object changes *)
    eapply invariant_set; [exact Hinv | reflexivity | reflexivity |].
    intros Hpending. exact (inv_unmapped _ Hinv _ _ Hpending H).
Qed.

Lemma reachable_invariant (r : Runtime) :
  reachable getLeaderCandidate r -> channelInvariant r.
Proof.
  induction 1.
  - constructor; simpl.
    + constructor.
    + discriminate.
    + discriminate.
  - eauto using step_invariant.
Qed.

End LifecycleFacts.

(** ** Snapshots *)

Lemma snapshotEntries_expected (chans : JsMap.t IChannelState) (es : list ITreeEntry) :
  snapshotEntries chans = inr es -> es = expectedSnapshot chans.
Proof.
  revert es. induction chans as [|[k entry] chans IH]; simpl; intros es.
  - now intros [= <-].
  - unfold included.
    destruct (IChannel.isLocal (object entry)); simpl.
    + destruct (connection entry); simpl; auto.
    + destruct (connection entry) as [c|]; [|discriminate].
      destruct (ChannelDeltaConnection.baseMappingIsSet c); simpl; auto.
      destruct (snapshotEntries chans) as [e|es']; [discriminate|].
      intros [= <-]. now rewrite (IH es' eq_refl).
Qed.

Lemma snapshotEntries_total (chans : JsMap.t IChannelState) :
  hostDiscipline chans -> exists es, snapshotEntries chans = inr es.
Proof.
  unfold hostDiscipline.
  induction chans as [|[k entry] chans IH]; simpl; intros Hhost.
  - eauto.
  - destruct IH as [es Hes]; [intros; eapply Hhost; eauto|].
    rewrite Hes.
    destruct (IChannel.isLocal (object entry)) eqn:El; simpl; eauto.
    destruct (connection entry) as [c|] eqn:Ec.
    + destruct (ChannelDeltaConnection.baseMappingIsSet c); eauto.
    + exfalso. eapply Hhost; eauto.
Qed.

Lemma expectedSnapshot_In (chans : JsMap.t IChannelState) (e : ITreeEntry) :
  In e (expectedSnapshot chans) <->
  exists id entry c,
    In (id, entry) chans /\ included entry = true /\ connection entry = Some c /\
    e = channelEntry id entry c.
Proof.
  unfold expectedSnapshot. rewrite in_flat_map. split.
  - intros [[id entry] [Hin He]].
    destruct (connection entry) as [c|] eqn:Ec; [|contradiction].
    destruct (included entry) eqn:Ei; [|contradiction].
    destruct He as [<-|[]]. exists id, entry, c. auto.
  - intros (id & entry & c & Hin & Hi & Hc & ->).
    exists (id, entry). split; [assumption|]. rewrite Hc, Hi. now left.
Qed.

Lemma included_connection (entry : IChannelState) :
  included entry = true -> exists c, connection entry = Some c.
Proof.
  unfold included. destruct (connection entry); eauto.
  rewrite andb_false_r. discriminate.
Qed.

Lemma included_mapped (entry : IChannelState) :
  included entry = true -> mapped entry = true.
Proof. unfold included, mapped. now intros [_ H]%andb_prop. Qed.

Lemma inSnapshot_expected (chans : JsMap.t IChannelState) (id : string) :
  inSnapshot id (expectedSnapshot chans) <->
  exists entry, In (id, entry) chans /\ included entry = true.
Proof.
  unfold inSnapshot. rewrite in_map_iff. split.
  - intros (e & Hpath & He). apply expectedSnapshot_In in He.
    destruct He as (id' & entry & c & Hin & Hi & _ & ->). simpl in Hpath. subst. eauto.
  - intros (entry & Hin & Hi).
    destruct (included_connection _ Hi) as [c Hc].
    exists (channelEntry id entry c). split; [reflexivity|].
    apply expectedSnapshot_In. eauto 7.
Qed.

(** C1. [snapshotInternal] changes nothing of the runtime, and returns if the
    host's channels keep their discipline. Whenever it returns, the tree is
    the one described: it has an entry for a channel if and only if the
    channel is not local and has its base mapping, and each entry is a
    directory named by the channel's id that holds the channel's own snapshot
    followed by an [.attributes] blob recording the minimum sequence number of
    the channel's delta connection and the channel's type. In every state a
    container comes to, moreover, the channel under an id is the one the map
    answers for that id, and no id of the pending attach set is in the tree. *)
Theorem snapshotInternal_takes_attached_mapped_channels :
  forall (getLeaderCandidate : JsMap.t IClient -> option string) (r : Runtime),
    (hostDiscipline (channels r) -> exists es, snapshotInternal r = Ok es r) /\
    forall es r',
      snapshotInternal r = Ok es r' ->
      r' = r /\
      es = expectedSnapshot (channels r) /\
      (forall id,
          inSnapshot id es <->
          exists entry, In (id, entry) (channels r) /\ included entry = true) /\
      (forall e,
          In e es ->
          exists id entry c,
            In (id, entry) (channels r) /\ included entry = true /\
            connection entry = Some c /\
            e = mkTreeEntry Directory id Tree
                  (TreeValue
                     (mkTree
                        (entries (IChannel.snapshot (object entry))
                         ++ [mkTreeEntry File ".attributes" Blob
                               (BlobValue
                                  (stringifyObjectAttributes
                                     (mkObjectAttributes
                                        (ChannelDeltaConnection.minimumSequenceNumber c)
                                        (IChannel.type (object entry))))
                                  "utf-8")])))) /\
      (reachable getLeaderCandidate r ->
       (forall id,
           inSnapshot id es <->
           exists entry, JsMap.get id (channels r) = Some entry /\
                         included entry = true) /\
       (forall id, JsMap.has id (pendingAttach r) = true -> ~ inSnapshot id es)).
Proof.
  intros cand r. split.
  - intros Hhost. destruct (snapshotEntries_total _ Hhost) as [es Hes].
    exists es. unfold snapshotInternal. now rewrite Hes.
  - intros es r'. unfold snapshotInternal.
    destruct (snapshotEntries (channels r)) as [e|es'] eqn:Hes; [discriminate|].
    intros [= <- <-]. apply snapshotEntries_expected in Hes. subst es'.
    split; [reflexivity|]. split; [reflexivity|].
    split; [apply inSnapshot_expected|]. split.
    + intros e He. apply expectedSnapshot_In in He.
      destruct He as (id & entry & c & Hin & Hi & Hc & ->).
      exists id, entry, c. repeat split; auto.
    + intros Hreach.
      pose proof (reachable_invariant cand r Hreach) as Hinv.
      assert (Hiff : forall id,
                 inSnapshot id (expectedSnapshot (channels r)) <->
                 exists entry, JsMap.get id (channels r) = Some entry /\
                               included entry = true).
      { intros id. rewrite inSnapshot_expected. split.
        - intros (entry & Hin & Hi). exists entry. split; [|assumption].
          apply JsMapFacts.In_get; [apply (inv_unique _ Hinv) | assumption].
        - intros (entry & Hget & Hi). exists entry. split; [|assumption].
          now apply JsMapFacts.get_In. }
      split; [exact Hiff|].
      intros id Hpending Hin. apply Hiff in Hin.
      destruct Hin as (entry & Hget & Hi).
      apply included_mapped in Hi.
      rewrite (inv_unmapped _ Hinv _ _ Hpending Hget) in Hi. discriminate.
Qed.

(** Scenario A is a state the container comes to: create, attach, and the
    channel no longer answers that it is local. *)
Lemma pending_reachable (getLeaderCandidate : JsMap.t IClient -> option string) :
  reachable getLeaderCandidate Scenario.pending.
Proof.
  pose (ch := Scenario.channel 1 "c1" "TypeA" true).
  pose (r2 := stateOf (attachChannel ch Scenario.created)).
  apply reachable_step with (r := r2).
  - apply reachable_step with (r := Scenario.created).
    + apply reachable_step with (r := Scenario.fresh); [apply reachable_new|].
      apply step_createChannel with (id := "c1") (type := "TypeA") (channel := ch).
      reflexivity.
    + apply step_attachChannel
        with (channel := ch)
             (services := mkObjectServices
                            (ChannelDeltaConnection.new "c1" Disconnected)
                            (ChannelStorageService None (storageService Scenario.fresh))).
      reflexivity.
  - exact (step_channelObject getLeaderCandidate r2 "c1"
             (mkChannelState ch
                (Some (ChannelStorageService None (storageService Scenario.fresh)))
                (Some (ChannelDeltaConnection.new "c1" Disconnected)))
             (Scenario.channel 1 "c1" "TypeA" false)
             eq_refl (conj eq_refl eq_refl)).
Qed.

(** A run of C1, on scenario A: the snapshot taken before the acknowledgment
    of the attach message of ["c1"] is empty, and so has no entry for ["c1"]. *)
Lemma snapshotInternal_takes_attached_mapped_channels_witness :
  snapshotInternal Scenario.pending = Ok [] Scenario.pending /\
  JsMap.has "c1" (pendingAttach Scenario.pending) = true /\
  [] = expectedSnapshot (channels Scenario.pending) /\
  ~ inSnapshot "c1" [].
Proof.
  destruct (snapshotInternal_takes_attached_mapped_channels
              lowestOrderedCandidate Scenario.pending) as [_ H].
  destruct (H [] Scenario.pending eq_refl) as (_ & Hexpected & _ & _ & Hreach).
  destruct (Hreach (pending_reachable lowestOrderedCandidate)) as [_ Hpending].
  split; [reflexivity|]. split; [reflexivity|]. split; [exact Hexpected|].
  apply Hpending. reflexivity.
Defined.

Example scenario_A_snapshot :
  snapshotInternal Scenario.pending = Ok [] Scenario.pending.
Proof. reflexivity. Qed.

Example acknowledged_snapshot :
  exists es, snapshotInternal Scenario.attached = Ok es Scenario.attached /\
             map path es = ["c1"].
Proof. eexists. split; reflexivity. Qed.

(** ** The closed flag *)

(** X5. On a closed runtime each of these twelve methods, which begin with
    [verifyNotClosed], throws the closed-runtime error and leaves the runtime
    exactly as it is: [getChannel], [createChannel], [attachChannel],
    [changeConnectionState], [processAttach], [prepareAttach], [getQuorum],
    [hasUnackedOps], [snapshot], [save], [stop] and [registerTasks]; and so
    does [submitMessage], which reaches the check through [submit]. (The six
    other methods that begin with the check, [ready], [start], [prepare],
    [process], [uploadBlob] and [getBlob], hand over to the host and are not
    embedded.) *)
Lemma guarded_methods_throw_when_closed
      (getLeaderCandidate : JsMap.t IClient -> option string) (r : Runtime) :
  closed r = true ->
  (forall id, getChannel id r = Throw RuntimeClosed r) /\
  (forall id type, createChannel id type r = Throw RuntimeClosed r) /\
  (forall channel, attachChannel channel r = Throw RuntimeClosed r) /\
  (forall value clientId,
      changeConnectionState getLeaderCandidate value clientId r = Throw RuntimeClosed r) /\
  (forall message local context,
      processAttach message local context r = Throw RuntimeClosed r) /\
  (forall message local, prepareAttach message local r = Throw RuntimeClosed r) /\
  getQuorum r = Throw RuntimeClosed r /\
  hasUnackedOps r = Throw RuntimeClosed r /\
  (forall message, snapshot message r = Throw RuntimeClosed r) /\
  (forall tag, save tag r = Throw RuntimeClosed r) /\
  stop r = Throw RuntimeClosed r /\
  (forall tasks version,
      registerTasks getLeaderCandidate tasks version r = Throw RuntimeClosed r) /\
  (forall type content, submitMessage type content r = Throw RuntimeClosed r).
Proof.
  intros Hclosed.
  repeat split; intros;
    unfold getChannel, createChannel, attachChannel, changeConnectionState,
      processAttach, prepareAttach, getQuorum, hasUnackedOps, snapshot, save, stop,
      registerTasks, submitMessage, submit, bind, verifyNotClosed;
    now rewrite Hclosed.
Qed.

Lemma stop_closes (r : Runtime) :
  closed r = false -> closed (stateOf (stop r)) = true.
Proof.
  intros Hopen. unfold stop, snapshotInternal, bind, verifyNotClosed, modify.
  rewrite Hopen. simpl. destruct (snapshotEntries (channels r)); reflexivity.
Qed.

(** [updateMinSequenceNumber] never throws the closed-runtime error: it does
    not look at the flag. *)
Lemma updateMinSequenceNumber_never_closed_error (msn : Z) (r r' : Runtime) :
  updateMinSequenceNumber msn r <> Throw RuntimeClosed r'.
Proof.
  unfold updateMinSequenceNumber, updateMinSequenceNumberWith, overChannels.
  fold forwardMinSequenceNumber.
  assert (H : forall m, snd (forEachEntry (forwardMinSequenceNumber msn) m)
                        <> Some RuntimeClosed).
  { induction m as [|[k v] m IH]; simpl; [discriminate|].
    unfold forwardMinSequenceNumber at 1. unfold forwardMinSequenceNumberWith.
    destruct (IChannel.isLocal (object v)); simpl.
    - destruct (forEachEntry (forwardMinSequenceNumber msn) m); exact IH.
    - destruct (connection v) as [c|]; [|discriminate].
      destruct (ChannelDeltaConnection.baseMappingIsSet c);
        destruct (forEachEntry (forwardMinSequenceNumber msn) m); exact IH. }
  specialize (H (channels r)).
  destruct (forEachEntry (forwardMinSequenceNumber msn) (channels r)) as [chans [e|]];
    simpl in H; [|discriminate].
  intros [= -> _]. now apply H.
Qed.

(** C3. A run after [stop()]: the runtime is closed and [submitMessage] is
    refused with the closed-runtime error, but [updateMinSequenceNumber(12)]
    returns normally and has forwarded the update to the delta connection of
    ["c1"], whose minimum sequence number moves from 0 to 12, and [transform]
    returns a transformed message. *)
Theorem closed_runtime_still_serves_some_calls :
  closed Scenario.stopped = true /\
  submitMessage Save (SaveContent "tag") Scenario.stopped
  = Throw RuntimeClosed Scenario.stopped /\
  JsMap.get "c1" (channels Scenario.stopped) = Some (Scenario.attachedEntry 0) /\
  (exists r', updateMinSequenceNumber 12 Scenario.stopped = Ok tt r' /\
              closed r' = true /\
              JsMap.get "c1" (channels r')
              = Some (forwardedTo 12 (Scenario.attachedEntry 0)) /\
              forwardedTo 12 (Scenario.attachedEntry 0) = Scenario.attachedEntry 12) /\
  transform Scenario.operation Scenario.stopped
  = Ok (mkSequencedMessage (mkEnvelope "c1" "op") 8 9 10 None) Scenario.stopped.
Proof.
  repeat split; try reflexivity.
  exists (stateOf (updateMinSequenceNumber 12 Scenario.stopped)).
  repeat split; reflexivity.
Qed.

(** ** One channel per id *)

(** The ids of the channel map are pairwise distinct in every state a
    container comes to. *)
Lemma reachable_channel_ids_unique
      (getLeaderCandidate : JsMap.t IClient -> option string) (r : Runtime) :
  reachable getLeaderCandidate r -> NoDup (JsMap.keys (channels r)).
Proof. intros H. exact (inv_unique _ (reachable_invariant _ _ H)). Qed.

(** Loading a channel from a snapshot under an id the map already has throws
    and changes nothing. *)
Lemma loadSnapshotChannel_existing_id_throws (id : string) (tree : ISnapshotTree)
      (storage : IDocumentStorageService)
      (messages : list (ISequencedDocumentMessage IEnvelope))
      (branch : string) (msn : Z) (r : Runtime) :
  JsMap.has id (channels r) = true ->
  exists e, loadSnapshotChannel id tree storage messages branch msn r = Throw e r.
Proof.
  intros Hhas.
  unfold loadSnapshotChannel, loadChannel, getObjectServices.
  unfold bind, gets, modify, assert, expect, ret, throw.
  destruct (match JsMap.get ".attributes" (blobs tree) with
            | Some sha => readAndParse storage sha
            | None => None
            end) as [attributes|]; simpl; [|eauto].
  match goal with
  | |- context [translateAll ?c messages] =>
      destruct (translateAll c messages) as [ms|]; simpl; [|eauto]
  end.
  destruct (chaincode r (attr_type attributes)) as [extension|]; simpl; [|eauto].
  rewrite Hhas. simpl. eauto.
Qed.

(** [createChannel] on an open runtime with a known type returns, whatever the
    channel map held under the id, and the map then holds the new channel. *)
Lemma createChannel_overwrites (id type : string) (extension : IChaincodeModule)
      (r : Runtime) :
  closed r = false -> chaincode r type = Some extension ->
  exists r', createChannel id type r = Ok (create extension id) r' /\
             JsMap.get id (channels r')
             = Some (mkChannelState (create extension id) None None) /\
             JsMap.get id (channelsDeferred r')
             = Some (match JsMap.get id (channelsDeferred r) with
                     | Some d => resolve (create extension id) d
                     | None => Resolved (IChannel.ref (create extension id))
                     end).
Proof.
  intros Hopen Hmodule.
  unfold createChannel, resolveChannel, bind, verifyNotClosed, gets, modify, expect, ret.
  rewrite Hopen, Hmodule. simpl.
  destruct (JsMap.get id (channelsDeferred r)); simpl;
    eexists; (split; [reflexivity|]); simpl;
    now rewrite !JsMapFacts.get_set_same.
Qed.

(** C9. A run that ends with two channels having lived under one id: ["c1"]
    is an acknowledged channel of type ["TypeA"]; [createChannel("c1",
    "TypeB")] returns normally; the channel map then holds, under ["c1"], the
    new unattached channel of type ["TypeB"], a different object, while the
    deferred of ["c1"] still resolves to the first one. *)
Theorem createChannel_replaces_existing_channel :
  JsMap.get "c1" (channels Scenario.attached) = Some (Scenario.attachedEntry 0) /\
  exists r',
    createChannel "c1" "TypeB" Scenario.attached
    = Ok (Scenario.channel 2 "c1" "TypeB" true) r' /\
    JsMap.get "c1" (channels r')
    = Some (mkChannelState (Scenario.channel 2 "c1" "TypeB" true) None None) /\
    JsMap.keys (channels r') = ["c1"] /\
    JsMap.get "c1" (channelsDeferred r') = Some (Resolved 1).
Proof.
  split; [reflexivity|].
  exists (stateOf (createChannel "c1" "TypeB" Scenario.attached)).
  repeat split; reflexivity.
Qed.

(** ** Leader election *)

Lemma optionStringEqb_true (o : option string) (s : string) :
  optionStringEqb o s = true <-> o = Some s.
Proof.
  unfold optionStringEqb. destruct o as [s'|].
  - rewrite String.eqb_eq. split; congruence.
  - split; discriminate.
Qed.

Lemma ltb_asym (a b : string) : String.ltb a b = true -> String.ltb b a = false.
Proof.
  unfold String.ltb. rewrite (String.compare_antisym a b).
  destruct (String.compare b a); simpl; congruence.
Qed.

(** Of two members, the lowest-ordered is the candidate, in whichever order
    they joined. *)
Lemma lowestOrderedCandidate_of_two (members : JsMap.t IClient) (b c : string) :
  String.ltb b c = true ->
  JsMap.keys members = [b; c] \/ JsMap.keys members = [c; b] ->
  lowestOrderedCandidate members = Some b.
Proof.
  intros Hlt Hkeys. unfold lowestOrderedCandidate.
  destruct Hkeys as [-> | ->]; simpl.
  - now rewrite (ltb_asym _ _ Hlt).
  - now rewrite Hlt.
Qed.

Lemma skipn_length_app {A : Type} (l l' : list A) :
  skipn (List.length l) (l ++ l') = l'.
Proof. induction l; simpl; auto. Qed.

(** Task analysis talks to the host and to the agents; it never proposes. *)
Lemma runTaskAnalyzer_no_proposal
      (analyzeTasks : string -> JsMap.t IClient -> list string -> option IHelpTasks)
      (r : Runtime) :
  proposalsSince r (stateOf (runTaskAnalyzer analyzeTasks r)) = [].
Proof.
  assert (H : exists es, trace (stateOf (runTaskAnalyzer analyzeTasks r))
                         = (trace r ++ es)%list /\
                         filter isProposal es = []).
  { unfold runTaskAnalyzer, getQuorum, submitMessage, submit.
    unfold bind, verifyNotClosed, gets, modify, expect, ret, throw.
    destruct (leaderElector r) as [e|]; simpl;
      [|exists []; now rewrite app_nil_r].
    destruct (optionStringEqb (getLeader e) (clientId r)); simpl;
      [|exists []; now rewrite app_nil_r].
    destruct (closed r) eqn:Hopen; simpl; [exists []; now rewrite app_nil_r|].
    destruct (analyzeTasks _ _ _) as [helpTasks|]; simpl;
      [|exists []; now rewrite app_nil_r].
    destruct (browser helpTasks), (robot helpTasks); simpl; rewrite ?Hopen; simpl;
      rewrite <- ?app_assoc;
      first [ exists []; now rewrite app_nil_r | eexists; split; reflexivity ]. }
  destruct H as (es & Ht & Hf).
  unfold proposalsSince. now rewrite Ht, skipn_length_app.
Qed.

(** C6, as the runtime has it. The candidate is computed from the member list
    of the quorum and from nothing else, so two clients that see the same
    members compute the same candidate. On an open runtime with an elector:
    [proposeLeadership], which runs when the election starts and when the
    leader has left, issues a proposal when the candidate is the client's own
    id and does nothing at all otherwise; when a member other than the leader
    has left, no proposal is issued. With the lowest-ordered member as
    candidate: when leader [a] has left and [b < c] remain, the candidate is
    [b], and the client proposes exactly when it is [b]. *)
Theorem proposeLeadership_only_by_candidate :
  forall (getLeaderCandidate : JsMap.t IClient -> option string)
         (analyzeTasks : string -> JsMap.t IClient -> list string -> option IHelpTasks)
         (r : Runtime) (elector : LeaderElector),
    closed r = false ->
    leaderElector r = Some elector ->
    let candidate := getLeaderCandidate (getMembers (quorum r)) in
    (forall r2, getMembers (quorum r2) = getMembers (quorum r) ->
                getLeaderCandidate (getMembers (quorum r2)) = candidate) /\
    (exists r',
        proposeLeadership getLeaderCandidate r = Ok tt r' /\
        ((candidate = Some (clientId r) /\
          r' = log (ProposeLeadership (le_clientId elector)) r) \/
         (candidate <> Some (clientId r) /\ r' = r))) /\
    (forall leader,
        exists r',
          onMembershipChange getLeaderCandidate analyzeTasks (LeaderLeft leader) r
          = Ok tt r' /\
          ((candidate = Some (clientId r) /\
            trace r' = (trace r ++ [ProposeLeadership (le_clientId elector)])%list) \/
           (candidate <> Some (clientId r) /\ trace r' = trace r))) /\
    (forall leader,
        proposesIffCandidate getLeaderCandidate analyzeTasks (LeaderLeft leader) r) /\
    (forall member,
        proposalsSince
          r (stateOf (onMembershipChange getLeaderCandidate analyzeTasks
                                         (MemberLeft member) r)) = []) /\
    (forall a b c,
        String.ltb a b = true -> String.ltb b c = true ->
        JsMap.keys (getMembers (quorum r)) = [b; c] \/
        JsMap.keys (getMembers (quorum r)) = [c; b] ->
        lowestOrderedCandidate (getMembers (quorum r)) = Some b /\
        exists r',
          onMembershipChange lowestOrderedCandidate analyzeTasks (LeaderLeft a) r
          = Ok tt r' /\
          ((clientId r = b /\
            trace r' = (trace r ++ [ProposeLeadership (le_clientId elector)])%list) \/
           (clientId r <> b /\ trace r' = trace r))).
Proof.
  intros cand analyze r elector Hopen Helector candidate.
  assert (Hleft : forall g leader,
             onMembershipChange g analyze (LeaderLeft leader) r
             = Ok tt (let r1 := set_leaderElector
                                  (Some (mkLeaderElector (le_clientId elector) None)) r in
                      if optionStringEqb (g (getMembers (quorum r))) (clientId r)
                      then log (ProposeLeadership (le_clientId elector)) r1 else r1)).
  { intros g leader. unfold onMembershipChange, onLeaderLeft, electorRecords.
    unfold bind at 1. unfold modify at 1. rewrite Helector.
    erewrite proposeLeadership_open; [|exact Hopen|reflexivity]. reflexivity. }
  split; [|split; [|split; [|split; [|split]]]].
  - intros r2 H. unfold candidate. now rewrite H.
  - rewrite (proposeLeadership_open cand r elector Hopen Helector).
    fold candidate.
    destruct (optionStringEqb candidate (clientId r)) eqn:E.
    + apply optionStringEqb_true in E. eauto.
    + eexists. split; [reflexivity|]. right. split; [|reflexivity].
      intros H. apply optionStringEqb_true in H. congruence.
  - intros leader. rewrite Hleft. eexists. split; [reflexivity|].
    fold candidate. cbv zeta.
    destruct (optionStringEqb candidate (clientId r)) eqn:E.
    + apply optionStringEqb_true in E. left. split; [exact E | reflexivity].
    + right. split; [|reflexivity].
      intros H. apply optionStringEqb_true in H. congruence.
  - intros leader. unfold proposesIffCandidate, proposalsSince.
    rewrite Hleft. fold candidate. cbv zeta.
    destruct (optionStringEqb candidate (clientId r)) eqn:E; simpl.
    + apply optionStringEqb_true in E. rewrite skipn_length_app. simpl.
      split; [intros _; exact E | discriminate].
    + rewrite skipn_all. simpl. split; [congruence|].
      intros H. apply optionStringEqb_true in H. congruence.
  - intros member. apply runTaskAnalyzer_no_proposal.
  - intros a b c _ Hbc Hkeys.
    pose proof (lowestOrderedCandidate_of_two _ b c Hbc Hkeys) as Hcand.
    split; [exact Hcand|].
    rewrite Hleft. eexists. split; [reflexivity|].
    rewrite Hcand. cbv zeta. simpl optionStringEqb.
    destruct (String.eqb b (clientId r)) eqn:E.
    + apply String.eqb_eq in E. left. split; [congruence | reflexivity].
    + apply String.eqb_neq in E. right. split; [congruence | reflexivity].
Qed.

(** A run of C6: client ["B"], after leader ["A"] left ["B"] and ["C"]. *)
Lemma proposeLeadership_only_by_candidate_witness :
  let r := Scenario.electing in
  let elector := mkLeaderElector "B" (Some "A") in
  let candidate := lowestOrderedCandidate (getMembers (quorum r)) in
  (forall r2, getMembers (quorum r2) = getMembers (quorum r) ->
              lowestOrderedCandidate (getMembers (quorum r2)) = candidate) /\
  (exists r',
      proposeLeadership lowestOrderedCandidate r = Ok tt r' /\
      ((candidate = Some (clientId r) /\
        r' = log (ProposeLeadership (le_clientId elector)) r) \/
       (candidate <> Some (clientId r) /\ r' = r))) /\
  (forall leader,
      exists r',
        onMembershipChange lowestOrderedCandidate Scenario.noTasks (LeaderLeft leader) r
        = Ok tt r' /\
        ((candidate = Some (clientId r) /\
          trace r' = (trace r ++ [ProposeLeadership (le_clientId elector)])%list) \/
         (candidate <> Some (clientId r) /\ trace r' = trace r))) /\
  (forall leader,
      proposesIffCandidate lowestOrderedCandidate Scenario.noTasks (LeaderLeft leader) r) /\
  (forall member,
      proposalsSince
        r (stateOf (onMembershipChange lowestOrderedCandidate Scenario.noTasks
                                       (MemberLeft member) r)) = []) /\
  (forall a b c,
      String.ltb a b = true -> String.ltb b c = true ->
      JsMap.keys (getMembers (quorum r)) = [b; c] \/
      JsMap.keys (getMembers (quorum r)) = [c; b] ->
      lowestOrderedCandidate (getMembers (quorum r)) = Some b /\
      exists r',
        onMembershipChange lowestOrderedCandidate Scenario.noTasks (LeaderLeft a) r
        = Ok tt r' /\
        ((clientId r = b /\
          trace r' = (trace r ++ [ProposeLeadership (le_clientId elector)])%list) \/
         (clientId r <> b /\ trace r' = trace r))).
Proof.
  apply (proposeLeadership_only_by_candidate lowestOrderedCandidate Scenario.noTasks
           Scenario.electing (mkLeaderElector "B" (Some "A")));
    reflexivity.
Defined.

(** Against C6 as it is worded: member ["C"] leaves the quorum of ["A"] and
    ["B"], whose leader is ["A"]. The runtime of client ["A"] is open and has
    its elector, the candidate computed from the members is ["A"] itself, and
    yet the change makes it issue no proposal: the runtime is left exactly as
    it was. *)
Lemma member_left_candidate_issues_no_proposal :
  closed Scenario.leading = false /\
  leaderElector Scenario.leading = Some (mkLeaderElector "A" (Some "A")) /\
  lowestOrderedCandidate (getMembers (quorum Scenario.leading))
  = Some (clientId Scenario.leading) /\
  onMembershipChange lowestOrderedCandidate Scenario.noTasks (MemberLeft "C")
                     Scenario.leading
  = Ok tt Scenario.leading /\
  ~ proposesIffCandidate lowestOrderedCandidate Scenario.noTasks (MemberLeft "C")
                         Scenario.leading.
Proof.
  repeat split; try reflexivity.
  intros [_ H]. apply H; reflexivity.
Qed.

Example scenario_D_B_proposes :
  trace (stateOf (onLeaderLeft lowestOrderedCandidate "A" Scenario.electing))
  = [ProposeLeadership "B"].
Proof. reflexivity. Qed.

Example scenario_D_C_is_silent :
  trace (stateOf (onLeaderLeft lowestOrderedCandidate "A"
                    (set_leaderElector (Some (mkLeaderElector "C" (Some "A")))
                                       (set_clientId "C" Scenario.electing))))
  = [].
Proof. reflexivity. Qed.

(** ** Component contexts *)

Lemma last_cons_nonempty (first : string) (rest : list string) :
  rest <> [] -> last (first :: rest) EmptyString = last rest EmptyString.
Proof. destruct rest; [congruence | reflexivity]. Qed.

(** C5. For a local context whose package path has more than one element: if
    the registry has no sub-registry under the first element, [realize] fails
    (with the malformed-path error when the first element is known but is no
    registry); if it has one, in which the rest of the path resolves,
    [realize] succeeds and the attach message is declared with the last
    element of the path. *)
Theorem realize_descends_through_sub_registry :
  forall (runtime : ComponentContext.ContainerRuntime) (id first : string)
         (rest : list string),
    rest <> [] ->
    let context := ComponentContext.mkLocal id (first :: rest) runtime in
    (ComponentContext.subRegistryOf runtime first = None ->
     (exists e, ComponentContext.realize context = inl e) /\
     (forall entry,
         ComponentContext.registries runtime (ComponentContext.rootRegistry runtime) first
         = Some entry ->
         ComponentContext.realize context
         = inl ComponentContext.MalformedPackagePathError)) /\
    (forall sub factory,
        ComponentContext.subRegistryOf runtime first = Some sub ->
        ComponentContext.resolvePackagePath (ComponentContext.registries runtime) sub rest
        = inr factory ->
        ComponentContext.realize context = inr factory /\
        forall runtimeEntries,
          am_type (ComponentContext.generateAttachMessage context runtimeEntries)
          = last (first :: rest) EmptyString).
Proof.
  intros runtime id first rest Hrest context.
  unfold context, ComponentContext.realize, ComponentContext.subRegistryOf.
  cbn [ComponentContext.local_runtime ComponentContext.local_pkg].
  destruct rest as [|second rest]; [congruence|].
  cbn [ComponentContext.resolvePackagePath].
  destruct (ComponentContext.registries runtime
              (ComponentContext.rootRegistry runtime) first) as [entry|].
  - split.
    + intros ->. split; [eauto|]. now intros entry' [= <-].
    + intros sub factory -> Hresolve. split; [exact Hresolve | reflexivity].
  - split.
    + intros _. split; [eauto | discriminate].
    + discriminate.
Qed.

(** A run of C5: the path of the test suite against the registry whose
    entries are registries themselves. *)
Lemma realize_descends_through_sub_registry_witness :
  let context := ComponentContext.mkLocal "Test1" ["TestComp"; "SubComp"]
                   ComponentContext.registryWithSubRegistries in
  ComponentContext.realize context = inr 0%nat /\
  forall runtimeEntries,
    am_type (ComponentContext.generateAttachMessage context runtimeEntries) = "SubComp".
Proof.
  destruct (realize_descends_through_sub_registry
              ComponentContext.registryWithSubRegistries "Test1" "TestComp" ["SubComp"])
    as [_ H].
  - discriminate.
  - apply (H 0%nat 0%nat); reflexivity.
Defined.

Example realize_without_sub_registry_fails :
  ComponentContext.realize
    (ComponentContext.mkLocal "Test1" ["TestComp"; "SubComp"]
                              ComponentContext.factoryOnlyRegistry)
  = inl ComponentContext.MalformedPackagePathError.
Proof. reflexivity. Qed.

Example realize_with_sub_registry_succeeds :
  let context := ComponentContext.mkLocal "Test1" ["TestComp"; "SubComp"]
                   ComponentContext.registryWithSubRegistries in
  ComponentContext.realize context = inr 0%nat /\
  am_type (ComponentContext.generateAttachMessage context []) = "SubComp".
Proof. split; reflexivity. Qed.

(** C7. A context loaded from an attribute blob whose [pkg] is a bare
    identifier and which has no version reads the one-element path of that
    identifier; if that package resolves, its snapshot returns a tree whose
    attribute blob has, for [pkg], the JSON text of the one-element array of
    the identifier and, for [snapshotFormatVersion], ["0.1"]. *)
Theorem snapshot_normalizes_bare_package :
  forall (context : ComponentContext.RemotedComponentContext) (identifier : string)
         (factory : nat) (runtimeEntries : list ITreeEntry),
    ComponentContext.remoted_attributes context
    = ComponentContext.mkAttributes identifier None ->
    ComponentContext.resolvePackagePath
      (ComponentContext.registries (ComponentContext.remoted_runtime context))
      (ComponentContext.rootRegistry (ComponentContext.remoted_runtime context))
      [identifier] = inr factory ->
    let canonical :=
      ComponentContext.mkAttributes
        ("[" ++ Json.stringifyString identifier ++ "]") (Some "0.1") in
    ComponentContext.packagePathOf (ComponentContext.remoted_attributes context)
    = Some [identifier] /\
    ComponentContext.attributesOf [identifier] = canonical /\
    ComponentContext.snapshot context runtimeEntries
    = inr (mkTree (runtimeEntries
                   ++ [mkTreeEntry File ".component" Blob
                         (BlobValue (ComponentContext.stringifyAttributes canonical)
                                    "utf-8")])).
Proof.
  intros context identifier factory runtimeEntries Hattributes Hresolve canonical.
  unfold ComponentContext.snapshot, ComponentContext.packagePathOf.
  rewrite Hattributes. cbn [ComponentContext.snapshotFormatVersion ComponentContext.pkg].
  rewrite Hresolve.
  repeat split.
Qed.

(** A run of C7: the blob of the test suite, [{ pkg: "TestComponent1" }]. *)
Lemma snapshot_normalizes_bare_package_witness :
  let context :=
    ComponentContext.mkRemoted "Test1"
      (ComponentContext.mkAttributes "TestComponent1" None)
      ComponentContext.factoryOnlyRegistry in
  let canonical :=
    ComponentContext.mkAttributes
      ("[" ++ Json.stringifyString "TestComponent1" ++ "]") (Some "0.1") in
  ComponentContext.packagePathOf (ComponentContext.remoted_attributes context)
  = Some ["TestComponent1"] /\
  ComponentContext.attributesOf ["TestComponent1"] = canonical /\
  ComponentContext.snapshot context []
  = inr (mkTree ([] ++ [mkTreeEntry File ".component" Blob
                          (BlobValue (ComponentContext.stringifyAttributes canonical)
                                     "utf-8")])).
Proof.
  apply (snapshot_normalizes_bare_package
           (ComponentContext.mkRemoted "Test1"
              (ComponentContext.mkAttributes "TestComponent1" None)
              ComponentContext.factoryOnlyRegistry)
           "TestComponent1" 1%nat []);
    reflexivity.
Defined.

(** The canonical package text of ["Foo"]: an opening bracket, the identifier
    between double quotes, a closing bracket. *)
Example canonical_package_of_Foo :
  ComponentContext.pkg (ComponentContext.attributesOf ["Foo"])
  = "[" ++ Json.str1 Json.dquote ++ "Foo" ++ Json.str1 Json.dquote ++ "]".
Proof. reflexivity. Qed.

Example json_array_roundtrip :
  Json.parseStringArray (Json.stringifyStringArray ["TestComp"; "SubComp"])
  = Some ["TestComp"; "SubComp"].
Proof. reflexivity. Qed.

Example json_number : Json.stringifyNumber 42 = "42".
Proof. reflexivity. Qed.

(* ===================================================================== *)
(** * Further properties of the runtime *)
(* ===================================================================== *)

(** Reading a field of a runtime that was just written. *)
Ltac fields_all :=
  unfold set_clientId, set_connectionState, set_closed, set_channels,
    set_channelsDeferred, set_pendingAttach, set_tasks, set_leaderElector,
    set_connectedHandlers, set_quorum, log, logAll in *;
  cbn [id clientId connectionState closed channels channelsDeferred pendingAttach
       tasks version leaderElector connectedHandlers quorum deltaManager chaincode
       storageService trace] in *.

Ltac fields :=
  unfold set_clientId, set_connectionState, set_closed, set_channels,
    set_channelsDeferred, set_pendingAttach, set_tasks, set_leaderElector,
    set_connectedHandlers, set_quorum, log, logAll;
  cbn [id clientId connectionState closed channels channelsDeferred pendingAttach
       tasks version leaderElector connectedHandlers quorum deltaManager chaincode
       storageService trace].

(** ** Waiting for a channel, creating it *)

(** What [getChannel] does, in one equation. *)
Lemma getChannel_exact (id : string) (r : Runtime) :
  getChannel id r
  = if closed r then Throw RuntimeClosed r
    else Ok (match JsMap.get id (channelsDeferred r) with
             | Some d => d
             | None => Pending
             end)
            (if JsMap.has id (channelsDeferred r) then r
             else set_channelsDeferred (JsMap.set id Pending (channelsDeferred r)) r).
Proof.
  unfold getChannel. run_method. destruct (closed r); [reflexivity|].
  unfold JsMap.has.
  destruct (JsMap.get id (channelsDeferred r)) as [d0|] eqn:Eg; simpl.
  - now rewrite Eg.
  - now rewrite JsMapFacts.get_set_same.
Qed.

(** X1. On an open runtime [getChannel] returns the deferred kept for the id.
    If the id has a deferred, the runtime is left exactly as it was; if it has
    none, the runtime it leaves is the one it found with a pending deferred
    registered under the id, and nothing else of it differs: every other
    field, and the deferred of every other id, is what it was. Asking again
    returns the same deferred and changes nothing at all. *)
Theorem getChannel_registers_once :
  forall (channelId : string) (r : Runtime),
    closed r = false ->
    let d := match JsMap.get channelId (channelsDeferred r) with
             | Some d => d
             | None => Pending
             end in
    let r1 := if JsMap.has channelId (channelsDeferred r) then r
              else set_channelsDeferred
                     (JsMap.set channelId Pending (channelsDeferred r)) r in
    getChannel channelId r = Ok d r1 /\
    JsMap.get channelId (channelsDeferred r1) = Some d /\
    (forall other, channelId <> other ->
                   JsMap.get other (channelsDeferred r1)
                   = JsMap.get other (channelsDeferred r)) /\
    (id r1 = id r /\ clientId r1 = clientId r /\
     connectionState r1 = connectionState r /\ closed r1 = closed r /\
     channels r1 = channels r /\ pendingAttach r1 = pendingAttach r /\
     tasks r1 = tasks r /\ version r1 = version r /\
     leaderElector r1 = leaderElector r /\
     connectedHandlers r1 = connectedHandlers r /\ quorum r1 = quorum r /\
     deltaManager r1 = deltaManager r /\ chaincode r1 = chaincode r /\
     storageService r1 = storageService r /\ trace r1 = trace r) /\
    getChannel channelId r1 = Ok d r1.
Proof.
  intros channelId r Hopen d r1.
  split; [rewrite getChannel_exact, Hopen; reflexivity|].
  rewrite (getChannel_exact channelId r1).
  unfold r1, d, JsMap.has.
  destruct (JsMap.get channelId (channelsDeferred r)) as [d0|] eqn:Eg; fields.
  - rewrite Hopen, Eg. repeat split; auto.
  - rewrite Hopen, JsMapFacts.get_set_same.
    repeat split; auto.
    intros other Hne. now apply JsMapFacts.get_set_other.
Qed.

(** A run of X1: waiting for ["c1"] before anyone has created it. *)
Lemma getChannel_registers_once_witness :
  let r1 := set_channelsDeferred [("c1", Pending)] Scenario.fresh in
  getChannel "c1" Scenario.fresh = Ok Pending r1 /\
  getChannel "c1" r1 = Ok Pending r1.
Proof.
  destruct (getChannel_registers_once "c1" Scenario.fresh eq_refl)
    as (H1 & _ & _ & _ & H2).
  split; [exact H1 | exact H2].
Defined.

(** X2. On an open runtime [createChannel] returns exactly when the chaincode
    has a module for the type. If it has none the call throws a [TypeError]
    and the runtime is as it was. If it has one, the new unattached channel is
    set under the id, nothing is submitted and the pending set is untouched;
    the deferred of the id is resolved with the new channel, unless it was
    resolved before, in which case it keeps the channel it had; and
    [getChannel] then answers that resolved deferred. *)
Theorem createChannel_resolves_waiters :
  forall (id type : string) (r : Runtime),
    closed r = false ->
    match chaincode r type with
    | None => createChannel id type r = Throw TypeError r
    | Some extension =>
        let channel := create extension id in
        let resolved :=
          Resolved (match JsMap.get id (channelsDeferred r) with
                    | Some (Resolved first) => first
                    | _ => IChannel.ref channel
                    end) in
        exists r',
          createChannel id type r = Ok channel r' /\
          channels r' = JsMap.set id (mkChannelState channel None None) (channels r) /\
          JsMap.get id (channelsDeferred r') = Some resolved /\
          (forall other, id <> other ->
                         JsMap.get other (channelsDeferred r')
                         = JsMap.get other (channelsDeferred r)) /\
          pendingAttach r' = pendingAttach r /\
          trace r' = trace r /\
          getChannel id r' = Ok resolved r'
    end.
Proof.
  intros id type r Hopen.
  unfold createChannel, resolveChannel. run_method. rewrite Hopen.
  destruct (chaincode r type) as [extension|]; [|reflexivity].
  cbv zeta. fields_all.
  assert (Hget : forall (d : Deferred) (r0 : Runtime),
             closed r0 = false ->
             JsMap.get id (channelsDeferred r0) = Some d ->
             getChannel id r0 = Ok d r0).
  { intros d r0 H0 Hd. unfold getChannel. run_method. rewrite H0.
    unfold JsMap.has. rewrite Hd. simpl. now rewrite Hd. }
  destruct (JsMap.get id (channelsDeferred r)) as [[|first]|] eqn:Eg;
    eexists; (split; [reflexivity|]); fields_all;
    (repeat split; auto;
     [ apply JsMapFacts.get_set_same
     | intros other Hne; now apply JsMapFacts.get_set_other
     | apply Hget; fields_all; [exact Hopen | apply JsMapFacts.get_set_same] ]).
Qed.

(** A run of X2: ["c1"] of type ["TypeA"] on the fresh runtime. *)
Lemma createChannel_resolves_waiters_witness :
  exists r',
    createChannel "c1" "TypeA" Scenario.fresh
    = Ok (Scenario.channel 1 "c1" "TypeA" true) r' /\
    channels r'
    = JsMap.set "c1" (mkChannelState (Scenario.channel 1 "c1" "TypeA" true) None None)
                (channels Scenario.fresh) /\
    JsMap.get "c1" (channelsDeferred r') = Some (Resolved 1) /\
    (forall other, "c1" <> other ->
                   JsMap.get other (channelsDeferred r')
                   = JsMap.get other (channelsDeferred Scenario.fresh)) /\
    pendingAttach r' = pendingAttach Scenario.fresh /\
    trace r' = trace Scenario.fresh /\
    getChannel "c1" r' = Ok (Resolved 1) r'.
Proof.
  exact (createChannel_resolves_waiters "c1" "TypeA" Scenario.fresh eq_refl).
Defined.

(** ** Attaching *)

(** X3. On an open runtime [attachChannel] first records the attach message
    (the channel's id, snapshot and type) as pending under the channel's id
    and submits that same message, and only then looks for the channel: in
    all three outcomes the pending set and the trace have grown by it. If no
    channel is registered under the id the call throws a [TypeError], if a
    different object is registered it fails its assertion, and in both cases
    the channel map is as it was; otherwise it returns the services it has
    just stored in the channel's entry, whose delta connection is new, in the
    runtime's connection state and without base mapping. *)
Theorem attachChannel_submits_before_binding :
  forall (channel : IChannel.t) (r : Runtime),
    closed r = false ->
    let message := mkAttachMessage (IChannel.id channel) (IChannel.snapshot channel)
                                   (IChannel.type channel) in
    let submitted :=
      log (Submit Attach (AttachContent message))
          (set_pendingAttach
             (JsMap.set (IChannel.id channel) message (pendingAttach r)) r) in
    let services :=
      mkObjectServices
        (ChannelDeltaConnection.new (IChannel.id channel) (connectionState r))
        (ChannelStorageService None (storageService r)) in
    JsMap.get (IChannel.id channel) (pendingAttach (stateOf (attachChannel channel r)))
    = Some message /\
    trace (stateOf (attachChannel channel r))
    = (trace r ++ [Submit Attach (AttachContent message)])%list /\
    attachChannel channel r
    = match JsMap.get (IChannel.id channel) (channels r) with
      | None => Throw TypeError submitted
      | Some entry =>
          if Nat.eqb (IChannel.ref (object entry)) (IChannel.ref channel)
          then Ok services
                  (set_channels
                     (JsMap.set (IChannel.id channel)
                        (mkChannelState (object entry)
                                        (Some (objectStorage services))
                                        (Some (deltaConnection services)))
                        (channels r))
                     submitted)
          else Throw AssertionError submitted
      end.
Proof.
  intros channel r Hopen message submitted services.
  assert (E : attachChannel channel r
              = match JsMap.get (IChannel.id channel) (channels r) with
                | None => Throw TypeError submitted
                | Some entry =>
                    if Nat.eqb (IChannel.ref (object entry)) (IChannel.ref channel)
                    then Ok services
                            (set_channels
                               (JsMap.set (IChannel.id channel)
                                  (mkChannelState (object entry)
                                     (Some (objectStorage services))
                                     (Some (deltaConnection services)))
                                  (channels r))
                               submitted)
                    else Throw AssertionError submitted
                end).
  { unfold attachChannel, submit, getObjectServices. run_method.
    rewrite Hopen. simpl. rewrite Hopen. simpl.
    destruct (JsMap.get (IChannel.id channel) (channels r)) as [entry|]; [|reflexivity].
    simpl. destruct (Nat.eqb _ _); reflexivity. }
  rewrite E. split; [|split; [|reflexivity]].
  - destruct (JsMap.get (IChannel.id channel) (channels r)) as [entry|];
      [destruct (Nat.eqb _ _)|]; simpl; apply JsMapFacts.get_set_same.
  - destruct (JsMap.get (IChannel.id channel) (channels r)) as [entry|];
      [destruct (Nat.eqb _ _)|]; reflexivity.
Qed.

(** A run of X3: attaching a channel the runtime has never seen. *)
Lemma attachChannel_submits_before_binding_witness :
  let channel := Scenario.channel 5 "ghost" "TypeA" true in
  let message := mkAttachMessage "ghost" Scenario.header "TypeA" in
  JsMap.get "ghost" (pendingAttach (stateOf (attachChannel channel Scenario.fresh)))
  = Some message /\
  trace (stateOf (attachChannel channel Scenario.fresh))
  = [Submit Attach (AttachContent message)] /\
  returns (attachChannel channel Scenario.fresh) = false.
Proof.
  destruct (attachChannel_submits_before_binding
              (Scenario.channel 5 "ghost" "TypeA" true) Scenario.fresh eq_refl)
    as (Hpending & Htrace & Hresult).
  split; [exact Hpending|]. split; [exact Htrace|].
  rewrite Hresult. reflexivity.
Defined.

(** ** Stopping *)

(** X4. [stop] on an open runtime sets the closed flag before it takes the
    snapshot: whatever the snapshot does, the runtime it leaves is the one it
    found with the flag set, its outcome is the outcome of [snapshotInternal]
    on that runtime, returned entries or thrown error alike, and a second
    [stop] is refused with the closed-runtime error. *)
Theorem stop_closes_then_snapshots :
  forall (r : Runtime),
    closed r = false ->
    stateOf (stop r) = set_closed true r /\
    stop r = snapshotInternal (set_closed true r) /\
    (forall es, snapshotInternal r = Ok es r -> stop r = Ok es (set_closed true r)) /\
    (forall e, snapshotInternal r = Throw e r -> stop r = Throw e (set_closed true r)) /\
    stop (stateOf (stop r)) = Throw RuntimeClosed (set_closed true r).
Proof.
  intros r Hopen.
  assert (E : stop r = snapshotInternal (set_closed true r)).
  { unfold stop. run_method. now rewrite Hopen. }
  assert (S : stateOf (stop r) = set_closed true r).
  { rewrite E. unfold snapshotInternal. fields_all.
    destruct (snapshotEntries (channels r)); reflexivity. }
  split; [exact S|]. split; [exact E|]. split; [|split].
  - intros es H. rewrite E. unfold snapshotInternal in *. fields_all.
    destruct (snapshotEntries (channels r)); inversion H; reflexivity.
  - intros e H. rewrite E. unfold snapshotInternal in *. fields_all.
    destruct (snapshotEntries (channels r)); inversion H; reflexivity.
  - rewrite S. unfold stop. run_method. reflexivity.
Qed.

(** A run of X4: stopping the container of scenario A. *)
Lemma stop_closes_then_snapshots_witness :
  stop Scenario.pending = Ok [] (set_closed true Scenario.pending) /\
  stop (stateOf (stop Scenario.pending))
  = Throw RuntimeClosed (set_closed true Scenario.pending).
Proof.
  destruct (stop_closes_then_snapshots Scenario.pending eq_refl)
    as (_ & _ & Hok & _ & Hagain).
  split; [apply Hok; reflexivity | exact Hagain].
Defined.

(** A run of the closed flag: every guarded method on the stopped container. *)
Lemma guarded_methods_throw_when_closed_witness :
  createChannel "c2" "TypeA" Scenario.stopped = Throw RuntimeClosed Scenario.stopped /\
  getQuorum Scenario.stopped = Throw RuntimeClosed Scenario.stopped /\
  stop Scenario.stopped = Throw RuntimeClosed Scenario.stopped.
Proof.
  destruct (guarded_methods_throw_when_closed lowestOrderedCandidate Scenario.stopped eq_refl)
    as (_ & Hcreate & _ & _ & _ & _ & Hquorum & _ & _ & _ & Hstop & _).
  split; [apply Hcreate|]. split; [exact Hquorum | exact Hstop].
Defined.

(** ** Connection state, once more *)

Lemma forEachEntry_notifyConnection_map (value : ConnectionState)
      (m : JsMap.t IChannelState) :
  forEachEntry (notifyConnection value) m
  = (map (fun kv => (fst kv, notified value (snd kv))) m, None).
Proof.
  induction m as [|[k v] m IH]; simpl; [reflexivity|].
  unfold notifyConnection at 1, notified at 1, withConnection.
  rewrite IH. destruct (connection v); reflexivity.
Qed.

Section ElectionFacts.

Variable getLeaderCandidate : JsMap.t IClient -> option string.

(** Starting the election on an open runtime: a new elector for the client,
    and the proposal of the candidate. *)
Lemma initLeaderElection_exact (r : Runtime) :
  closed r = false ->
  exists r',
    initLeaderElection getLeaderCandidate r = Ok tt r' /\
    electionOnly r r' /\
    trace r' = (trace r ++ proposalOf getLeaderCandidate r)%list /\
    leaderElector r' = Some (mkLeaderElector (clientId r) None) /\
    connectedHandlers r' = connectedHandlers r /\
    tasks r' = tasks r /\ version r' = version r /\
    deltaManager r' = deltaManager r.
Proof.
  intros Hopen.
  destruct (initLeaderElection_open getLeaderCandidate r Hopen) as (r' & E & F).
  exists r'. split; [exact E|]. split; [exact F|].
  revert E. unfold initLeaderElection, getQuorum, bind, verifyNotClosed, gets, modify.
  rewrite Hopen.
  erewrite proposeLeadership_open; [|exact Hopen|reflexivity].
  unfold proposalOf. fields_all.
  destruct (optionStringEqb _ _); intros [= <-]; fields_all; repeat split; auto.
  now rewrite app_nil_r.
Qed.

Lemma runConnectedHandlers_exact (n : nat) (r : Runtime) :
  closed r = false ->
  exists r',
    runConnectedHandlers getLeaderCandidate n r = Ok tt r' /\
    electionOnly r r' /\
    trace r' = (trace r ++ List.concat (repeat (proposalOf getLeaderCandidate r) n))%list /\
    leaderElector r' = match n with
                       | O => leaderElector r
                       | S _ => Some (mkLeaderElector (clientId r) None)
                       end /\
    connectedHandlers r' = (connectedHandlers r - n)%nat /\
    tasks r' = tasks r /\ version r' = version r /\
    deltaManager r' = deltaManager r.
Proof.
  revert r. induction n as [|n IH]; intros r Hopen; simpl.
  - exists r. split; [reflexivity|]. split; [apply electionOnly_refl|].
    split; [now rewrite app_nil_r|]. split; [reflexivity|].
    split; [now rewrite Nat.sub_0_r|]. auto.
  - destruct (initLeaderElection_exact r Hopen)
      as (r1 & E1 & F1 & T1 & L1 & H1 & K1 & V1 & D1).
    unfold bind at 1. rewrite E1.
    unfold bind at 1. unfold modify at 1.
    set (r2 := set_connectedHandlers _ r1).
    assert (F2 : electionOnly r1 r2).
    { unfold electionOnly, r2; fields_all. repeat split; auto.
      exists []. now rewrite app_nil_r. }
    assert (Hopen2 : closed r2 = false).
    { destruct F1 as (F & _). unfold r2; fields_all. congruence. }
    destruct (IH r2 Hopen2) as (r3 & E3 & F3 & T3 & L3 & H3 & K3 & V3 & D3).
    exists r3. split; [exact E3|].
    split; [eauto using electionOnly_trans|].
    assert (P : proposalOf getLeaderCandidate r2 = proposalOf getLeaderCandidate r).
    { destruct F1 as (_ & _ & _ & _ & _ & Fc & Fq & _).
      unfold proposalOf, r2. fields_all. now rewrite Fc, Fq. }
    assert (C : clientId r2 = clientId r).
    { destruct F1 as (_ & _ & _ & _ & _ & Fc & _). unfold r2. fields_all. exact Fc. }
    repeat split.
    + rewrite T3, P. unfold r2 at 1. fields_all. rewrite T1. now rewrite <- app_assoc.
    + rewrite L3. destruct n; [|now rewrite C].
      unfold r2. fields_all. exact L1.
    + rewrite H3. unfold r2. fields_all. rewrite H1.
      destruct (connectedHandlers r); simpl; auto using Nat.sub_0_r.
    + rewrite K3. unfold r2. fields_all. exact K1.
    + rewrite V3. unfold r2. fields_all. exact V1.
    + rewrite D3. unfold r2. fields_all. exact D1.
Qed.

(** What [changeConnectionState] does on an open runtime when the state is new. *)
Lemma changeConnectionState_exact :
  forall (value : ConnectionState) (suppliedId : string) (r : Runtime),
    closed r = false ->
    value <> connectionState r ->
    exists r',
      changeConnectionState getLeaderCandidate value suppliedId r = Ok tt r' /\
      connectionState r' = value /\
      clientId r' = suppliedId /\
      channels r' = map (fun kv => (fst kv, notified value (snd kv))) (channels r) /\
      pendingAttach r' = pendingAttach r /\
      channelsDeferred r' = channelsDeferred r /\
      closed r' = false /\
      match value with
      | Connected =>
          trace r'
          = (trace r
             ++ map (fun message => Submit Attach (AttachContent message))
                    (JsMap.values (pendingAttach r))
             ++ [EmitConnected suppliedId]
             ++ List.concat (repeat (proposalOf getLeaderCandidate
                                           (set_clientId suppliedId r))
                               (connectedHandlers r)))%list /\
          connectedHandlers r' = O /\
          leaderElector r' = match connectedHandlers r with
                             | O => leaderElector r
                             | S _ => Some (mkLeaderElector suppliedId None)
                             end
      | _ =>
          trace r' = trace r /\
          connectedHandlers r' = connectedHandlers r /\
          leaderElector r' = leaderElector r
      end.
Proof.
  intros value cid r Hopen Hstate.
  unfold changeConnectionState.
  unfold bind at 1. unfold verifyNotClosed. rewrite Hopen.
  unfold bind at 1. unfold gets at 1.
  destruct (ConnectionState_eqb value (connectionState r)) eqn:E.
  { apply ConnectionState_eqb_eq in E. congruence. }
  unfold bind at 1. unfold modify at 1.
  unfold bind at 1. unfold modify at 1.
  set (r1 := set_clientId cid (set_connectionState value r)).
  assert (Hother : value <> Connected ->
            ConnectionState_eqb value Connected = false).
  { destruct value; simpl; congruence. }
  destruct value.
  - (* Disconnected *)
    simpl ConnectionState_eqb. cbv iota. unfold bind, ret, overChannels.
    rewrite forEachEntry_notifyConnection_map.
    eexists. split; [reflexivity|]. unfold r1. fields_all. repeat split; auto.
  - (* Connecting *)
    simpl ConnectionState_eqb. cbv iota. unfold bind, ret, overChannels.
    rewrite forEachEntry_notifyConnection_map.
    eexists. split; [reflexivity|]. unfold r1. fields_all. repeat split; auto.
  - (* Connected *)
    simpl ConnectionState_eqb. cbv iota.
    unfold emitConnected, bind, gets, modify.
    change (pendingAttach r1) with (pendingAttach r).
    rewrite forEach_submit_attach by exact Hopen.
    set (r2 := log (EmitConnected cid) (logAll _ r1)).
    destruct (runConnectedHandlers_exact (connectedHandlers r2) r2 Hopen)
      as (r3 & E3 & F3 & T3 & L3 & H3 & _).
    rewrite E3. unfold overChannels.
    rewrite forEachEntry_notifyConnection_map.
    destruct F3 as (F1 & F2 & F3 & F4 & F5 & F6 & _).
    eexists. split; [reflexivity|]. fields_all.
    rewrite F2, F3, F4, F5, F6, F1, T3, L3, H3.
    unfold r2, r1. fields_all.
    repeat split; auto.
    + unfold proposalOf. fields_all. now rewrite <- !app_assoc.
    + apply Nat.sub_diag.
Qed.


(** X6. On an open runtime a call of [changeConnectionState] with a state
    other than the current one always returns: the runtime is in the new
    state under the supplied client id, the delta connection of every channel
    that has one has been told of the new state and nothing else in the
    channel map has changed, and the pending set and the deferreds are as they
    were. The trace has grown by the resubmission of the pending attach
    messages, the connected notification and one election start for each
    waiting handler if the new state is [Connected], and by nothing otherwise;
    in that second case the elector and the waiting handlers are untouched. *)
Theorem changeConnectionState_tells_every_connection :
  forall (value : ConnectionState) (suppliedId : string) (r : Runtime),
    closed r = false ->
    value <> connectionState r ->
    exists r',
      changeConnectionState getLeaderCandidate value suppliedId r = Ok tt r' /\
      connectionState r' = value /\
      clientId r' = suppliedId /\
      channels r' = map (fun kv => (fst kv, notified value (snd kv))) (channels r) /\
      pendingAttach r' = pendingAttach r /\
      channelsDeferred r' = channelsDeferred r /\
      closed r' = false /\
      match value with
      | Connected =>
          trace r'
          = (trace r
             ++ map (fun message => Submit Attach (AttachContent message))
                    (JsMap.values (pendingAttach r))
             ++ [EmitConnected suppliedId]
             ++ List.concat (repeat (proposalOf getLeaderCandidate
                                           (set_clientId suppliedId r))
                               (connectedHandlers r)))%list /\
          connectedHandlers r' = O /\
          leaderElector r' = match connectedHandlers r with
                             | O => leaderElector r
                             | S _ => Some (mkLeaderElector suppliedId None)
                             end
      | _ =>
          trace r' = trace r /\
          connectedHandlers r' = connectedHandlers r /\
          leaderElector r' = leaderElector r
      end.
Proof. exact changeConnectionState_exact. Qed.

(** X7. [registerTasks] on an open runtime always returns with the tasks and
    the version stored. Without a delta manager, or for a client that is not a
    browser, that is all it does. For a browser that is connected it starts
    the election at once: a new elector for the client, and a proposal if the
    client is the candidate. For a browser that is not connected it proposes
    nothing and leaves the elector alone; one more handler waits for the
    connected notification. *)
Theorem registerTasks_starts_election_for_connected_browsers :
  forall (newTasks : list string) (newVersion : option string) (r : Runtime),
    closed r = false ->
    exists r',
      registerTasks getLeaderCandidate newTasks newVersion r = Ok tt r' /\
      tasks r' = newTasks /\ version r' = newVersion /\
      channels r' = channels r /\ pendingAttach r' = pendingAttach r /\
      connectionState r' = connectionState r /\ clientId r' = clientId r /\
      if match deltaManager r with
         | Some d => String.eqb (clientType d) Browser
         | None => false
         end
      then
        if connected r
        then leaderElector r' = Some (mkLeaderElector (clientId r) None) /\
             trace r' = (trace r ++ proposalOf getLeaderCandidate r)%list /\
             connectedHandlers r' = connectedHandlers r
        else leaderElector r' = leaderElector r /\
             trace r' = trace r /\
             connectedHandlers r' = S (connectedHandlers r)
      else leaderElector r' = leaderElector r /\
           trace r' = trace r /\
           connectedHandlers r' = connectedHandlers r.
Proof.
  intros newTasks newVersion r Hopen.
  unfold registerTasks, startLeaderElection.
  unfold bind at 1. unfold verifyNotClosed. rewrite Hopen.
  unfold bind at 1. unfold modify at 1.
  set (r0 := set_tasks newTasks newVersion r).
  unfold bind at 1. unfold gets at 1.
  change (deltaManager r0) with (deltaManager r).
  destruct (deltaManager r) as [d|].
  2:{ exists r0. unfold r0. fields_all. repeat split; auto. }
  destruct (String.eqb (clientType d) Browser).
  2:{ exists r0. unfold r0. fields_all. repeat split; auto. }
  unfold bind at 1. unfold gets at 1.
  change (connected r0) with (connected r).
  destruct (connected r).
  - destruct (initLeaderElection_exact r0 Hopen)
      as (r' & E & F & T & L & H & K & V & _).
    destruct F as (_ & F2 & F3 & _ & F5 & F6 & _).
    exists r'. split; [exact E|].
    rewrite K, V, F2, F3, F5, F6, L, T, H.
    unfold r0, proposalOf. fields_all. repeat split; auto.
  - eexists. split; [reflexivity|]. unfold r0. fields_all. repeat split; auto.
Qed.

(** X8. An election asked for before the connection starts with it. On an
    open runtime of a browser that is not connected, [registerTasks] followed
    by [changeConnectionState(Connected, id)] leaves an elector built for the
    client id supplied with the connection and no waiting handler; after the
    resubmitted attach messages and the connected notification, the trace has
    one election start for each handler that was waiting, the new one
    included, each proposing if and only if the supplied id is the
    candidate. *)
Theorem election_waits_for_connection :
  forall (newTasks : list string) (newVersion : option string)
         (suppliedId : string) (r : Runtime) (d : DeltaManager),
    closed r = false ->
    deltaManager r = Some d ->
    clientType d = Browser ->
    connectionState r <> Connected ->
    exists r1 r2,
      registerTasks getLeaderCandidate newTasks newVersion r = Ok tt r1 /\
      leaderElector r1 = leaderElector r /\
      trace r1 = trace r /\
      changeConnectionState getLeaderCandidate Connected suppliedId r1 = Ok tt r2 /\
      leaderElector r2 = Some (mkLeaderElector suppliedId None) /\
      connectedHandlers r2 = O /\
      trace r2
      = (trace r
         ++ map (fun message => Submit Attach (AttachContent message))
                (JsMap.values (pendingAttach r))
         ++ [EmitConnected suppliedId]
         ++ List.concat (repeat (proposalOf getLeaderCandidate
                                            (set_clientId suppliedId r))
                                (S (connectedHandlers r))))%list.
Proof.
  intros newTasks newVersion cid r d Hopen Hdm Hbrowser Hstate.
  assert (Hconn : connected r = false).
  { unfold connected. destruct (connectionState r); simpl; congruence. }
  set (r1 := set_connectedHandlers (S (connectedHandlers r))
               (set_tasks newTasks newVersion r)).
  assert (E1 : registerTasks getLeaderCandidate newTasks newVersion r = Ok tt r1).
  { unfold registerTasks, startLeaderElection.
    unfold bind, verifyNotClosed, gets, modify. rewrite Hopen.
    change (deltaManager (set_tasks newTasks newVersion r)) with (deltaManager r).
    rewrite Hdm, Hbrowser, String.eqb_refl.
    change (connected (set_tasks newTasks newVersion r)) with (connected r).
    rewrite Hconn. reflexivity. }
  assert (Hopen1 : closed r1 = false) by exact Hopen.
  assert (Hstate1 : Connected <> connectionState r1).
  { unfold r1. fields_all. congruence. }
  destruct (changeConnectionState_exact Connected cid r1 Hopen1 Hstate1)
    as (r2 & E2 & _ & _ & _ & _ & _ & _ & T2 & H2 & L2).
  exists r1, r2. split; [exact E1|].
  split; [reflexivity|]. split; [reflexivity|]. split; [exact E2|].
  split; [exact L2|]. split; [exact H2|].
  rewrite T2. reflexivity.
Qed.

End ElectionFacts.

(** A run of X6: the container of scenario A loses its connection attempt. *)
Lemma changeConnectionState_tells_every_connection_witness :
  exists r',
    changeConnectionState lowestOrderedCandidate Connecting "B2" Scenario.pending
    = Ok tt r' /\
    connectionState r' = Connecting /\
    clientId r' = "B2" /\
    channels r' = map (fun kv => (fst kv, notified Connecting (snd kv)))
                      (channels Scenario.pending) /\
    pendingAttach r' = pendingAttach Scenario.pending /\
    channelsDeferred r' = channelsDeferred Scenario.pending /\
    closed r' = false /\
    trace r' = trace Scenario.pending /\
    connectedHandlers r' = connectedHandlers Scenario.pending /\
    leaderElector r' = leaderElector Scenario.pending.
Proof.
  apply (changeConnectionState_tells_every_connection lowestOrderedCandidate
           Connecting "B2" Scenario.pending).
  - reflexivity.
  - discriminate.
Defined.

(** A run of X7: tasks registered on the fresh runtime, a browser not yet
    connected. *)
Lemma registerTasks_starts_election_for_connected_browsers_witness :
  exists r',
    registerTasks lowestOrderedCandidate ["intel"] (Some "1.0") Scenario.fresh = Ok tt r' /\
    tasks r' = ["intel"] /\ version r' = Some "1.0" /\
    channels r' = channels Scenario.fresh /\
    pendingAttach r' = pendingAttach Scenario.fresh /\
    connectionState r' = connectionState Scenario.fresh /\
    clientId r' = clientId Scenario.fresh /\
    leaderElector r' = leaderElector Scenario.fresh /\
    trace r' = trace Scenario.fresh /\
    connectedHandlers r' = S (connectedHandlers Scenario.fresh).
Proof.
  exact (registerTasks_starts_election_for_connected_browsers
           lowestOrderedCandidate ["intel"] (Some "1.0") Scenario.fresh eq_refl).
Defined.

(** A run of X8: the same registration, then the connection as client ["A"],
    the lowest-ordered member. *)
Lemma election_waits_for_connection_witness :
  exists r1 r2,
    registerTasks lowestOrderedCandidate ["intel"] None Scenario.fresh = Ok tt r1 /\
    leaderElector r1 = leaderElector Scenario.fresh /\
    trace r1 = trace Scenario.fresh /\
    changeConnectionState lowestOrderedCandidate Connected "A" r1 = Ok tt r2 /\
    leaderElector r2 = Some (mkLeaderElector "A" None) /\
    connectedHandlers r2 = O /\
    trace r2 = [EmitConnected "A"; ProposeLeadership "A"].
Proof.
  apply (election_waits_for_connection lowestOrderedCandidate ["intel"] None "A"
           Scenario.fresh (mkDeltaManager Browser 0)).
  - reflexivity.
  - reflexivity.
  - reflexivity.
  - discriminate.
Defined.

(** ** Attach messages of peers, and repeated acknowledgments *)

(** X9. A channel attached by a peer is registered ready to use. On an open
    runtime that knows the channel type, and with a chaincode that loads a
    channel under the id it is asked for: [prepareAttach] changes nothing of
    the runtime and builds the channel state from the snapshot carried by the
    message, with the delta connection that [setBaseMapping(0,
    message.minimumSequenceNumber)] makes of a new one in the runtime's
    connection state;
    [processAttach] then returns the loaded channel, sets that state under
    the id, resolves the deferred of the id if it was not resolved, and
    touches neither the pending set nor the trace; and a channel that does
    not answer that it is local is in every snapshot taken next. *)
Theorem remote_attach_registers_mapped_channel :
  forall (message : ISequencedDocumentMessage IAttachMessage) (r : Runtime)
         (extension : IChaincodeModule) (c : ChannelDeltaConnection.t),
    closed r = false ->
    chaincode r (am_type (contents message)) = Some extension ->
    let channelId := am_id (contents message) in
    ChannelDeltaConnection.setBaseMapping
      0 (minimumSequenceNumber message)
      (ChannelDeltaConnection.new channelId (connectionState r)) = Some c ->
    let services :=
      mkObjectServices c (LocalChannelStorageService (am_snapshot (contents message))) in
    let loaded :=
      load extension channelId (ChannelDeltaConnection.sequenceNumber c) 0 [] services
           (match origin message with Some o => o | None => id r end) in
    let context := mkChannelState loaded (Some (objectStorage services)) (Some c) in
    IChannel.id loaded = channelId ->
    prepareAttach message false r = Ok (Some context) r /\
    exists r',
      processAttach message false (Some context) r = Ok loaded r' /\
      channels r' = JsMap.set channelId context (channels r) /\
      JsMap.get channelId (channels r') = Some context /\
      mapped context = true /\
      (exists first,
          JsMap.get channelId (channelsDeferred r') = Some (Resolved first)) /\
      pendingAttach r' = pendingAttach r /\
      trace r' = trace r /\
      (IChannel.isLocal loaded = false ->
       forall es, snapshotInternal r' = Ok es r' -> inSnapshot channelId es).
Proof.
  intros message r extension c Hopen Hmodule channelId Hc services loaded context Hid.
  assert (Hmapped : mapped context = true).
  { unfold mapped, context. cbn [connection].
    unfold ChannelDeltaConnection.setBaseMapping in Hc.
    destruct (ChannelDeltaConnection.baseMappingIsSet
                (ChannelDeltaConnection.new channelId (connectionState r)));
      [discriminate|].
    inversion Hc. reflexivity. }
  split.
  - unfold prepareAttach, loadChannel. run_method. rewrite Hopen.
    fold channelId. rewrite Hc. simpl. rewrite Hmodule. reflexivity.
  - assert (E : exists r',
               processAttach message false (Some context) r = Ok loaded r' /\
               channels r' = JsMap.set channelId context (channels r) /\
               (exists first,
                   JsMap.get channelId (channelsDeferred r') = Some (Resolved first)) /\
               pendingAttach r' = pendingAttach r /\
               trace r' = trace r).
    { unfold processAttach, resolveChannel. run_method. rewrite Hopen.
      change (object context) with loaded. rewrite Hid. fields.
      destruct (JsMap.get channelId (channelsDeferred r)) as [[|first]|];
        fields; rewrite JsMapFacts.get_set_same;
        change (object context) with loaded;
        (eexists; split; [reflexivity|]); fields;
        (split; [reflexivity|]);
        (split; [rewrite JsMapFacts.get_set_same; simpl; eauto|]);
        split; reflexivity. }
    destruct E as (r' & E & Hch & Hd & Hp & Ht).
    exists r'. split; [exact E|]. split; [exact Hch|].
    assert (Hget : JsMap.get channelId (channels r') = Some context).
    { rewrite Hch. apply JsMapFacts.get_set_same. }
    split; [exact Hget|]. split; [exact Hmapped|]. split; [exact Hd|].
    split; [exact Hp|]. split; [exact Ht|].
    intros Hlocal es Hes. unfold snapshotInternal in Hes.
    destruct (snapshotEntries (channels r')) as [e|es'] eqn:Hs; [discriminate|].
    inversion Hes; subst es'. apply snapshotEntries_expected in Hs. subst es.
    apply inSnapshot_expected. exists context. split.
    + now apply JsMapFacts.get_In.
    + unfold included. fold (mapped context). rewrite Hmapped.
      unfold context. cbn [object]. now rewrite Hlocal.
Qed.

(** A run of X9: the attach message of ["r1"] arrives from a peer. *)
Lemma remote_attach_registers_mapped_channel_witness :
  let c := ChannelDeltaConnection.mk "r1" Disconnected (Some (0, 4)) 0 in
  let loaded := Scenario.channel 11 "r1" "TypeA" false in
  let context :=
    mkChannelState loaded (Some (LocalChannelStorageService Scenario.header)) (Some c) in
  prepareAttach Runs.peerAttach false Scenario.fresh = Ok (Some context) Scenario.fresh /\
  exists r',
    processAttach Runs.peerAttach false (Some context) Scenario.fresh = Ok loaded r' /\
    channels r' = JsMap.set "r1" context (channels Scenario.fresh) /\
    JsMap.get "r1" (channels r') = Some context /\
    mapped context = true /\
    (exists first, JsMap.get "r1" (channelsDeferred r') = Some (Resolved first)) /\
    pendingAttach r' = pendingAttach Scenario.fresh /\
    trace r' = trace Scenario.fresh /\
    (IChannel.isLocal loaded = false ->
     forall es, snapshotInternal r' = Ok es r' -> inSnapshot "r1" es).
Proof.
  apply (remote_attach_registers_mapped_channel Runs.peerAttach Scenario.fresh
           (Scenario.typeModule 1 "TypeA")
           (ChannelDeltaConnection.mk "r1" Disconnected (Some (0, 4)) 0));
    reflexivity.
Defined.

(** X10. The acknowledgment of an attach message is accepted once. On an open
    runtime, the echo of an attach message whose id is not pending fails its
    assertion and leaves the runtime as it was; and once an echo has been
    processed, processing the same message again fails in that way. *)
Theorem local_acknowledgment_is_accepted_once :
  forall (message : ISequencedDocumentMessage IAttachMessage)
         (context again : option IChannelState) (r : Runtime),
    closed r = false ->
    (JsMap.has (am_id (contents message)) (pendingAttach r) = false ->
     processAttach message true context r = Throw AssertionError r) /\
    (forall channel r',
        processAttach message true context r = Ok channel r' ->
        processAttach message true again r' = Throw AssertionError r').
Proof.
  intros message context again r Hopen.
  assert (Hrefused : forall c0 r0,
             closed r0 = false ->
             JsMap.has (am_id (contents message)) (pendingAttach r0) = false ->
             processAttach message true c0 r0 = Throw AssertionError r0).
  { intros c0 r0 H0 Hp. unfold processAttach. run_method.
    now rewrite H0, Hp. }
  split; [apply Hrefused; exact Hopen|].
  intros channel r' H. apply Hrefused.
  - revert H. unfold processAttach. run_method. rewrite Hopen.
    destruct (JsMap.has _ _); simpl; [|discriminate].
    destruct (JsMap.get _ (channels r)) as [entry|]; simpl; [|discriminate].
    destruct (connection entry) as [c|]; simpl; [|discriminate].
    destruct (ChannelDeltaConnection.setBaseMapping _ _ _); simpl; [|discriminate].
    rewrite JsMapFacts.get_set_same. simpl. intros [= _ <-]. exact Hopen.
  - apply processAttach_local_inv in H.
    destruct H as (_ & _ & _ & _ & _ & _ & _ & Hp).
    rewrite Hp. apply JsMapFacts.has_delete_same.
Qed.

(** A run of X10: the echo of ["c1"] arrives a second time. *)
Lemma local_acknowledgment_is_accepted_once_witness :
  processAttach Scenario.echo true None Scenario.attached
  = Throw AssertionError Scenario.attached.
Proof.
  destruct (local_acknowledgment_is_accepted_once Scenario.echo None None
              Scenario.pending eq_refl) as [_ H].
  apply (H (Scenario.channel 1 "c1" "TypeA" false)). reflexivity.
Defined.

(** ** Loading a channel from a snapshot *)

Lemma set_new {V : Type} (k : string) (v : V) (m : JsMap.t V) :
  JsMap.has k m = false -> JsMap.set k v m = (m ++ [(k, v)])%list.
Proof.
  unfold JsMap.has. induction m as [|[k' v'] m IH]; simpl; auto.
  destruct (String.eqb k k'); [discriminate|].
  intros H. now rewrite IH.
Qed.

(** With a base mapping every message of the backlog translates. *)
Lemma translateAll_mapped (c : ChannelDeltaConnection.t)
      (messages : list (ISequencedDocumentMessage IEnvelope)) :
  ChannelDeltaConnection.baseMappingIsSet c = true ->
  exists ms, translateAll c messages = Some ms /\
             List.length ms = List.length messages.
Proof.
  unfold ChannelDeltaConnection.baseMappingIsSet. intros Hc.
  induction messages as [|m messages IH]; simpl; [eauto|].
  destruct IH as (ms & -> & Hlen).
  unfold translateToObjectMessage,
    ChannelDeltaConnection.transformDocumentSequenceNumber.
  destruct (ChannelDeltaConnection.baseMapping c) as [[l d]|]; [|discriminate].
  eexists. split; [reflexivity|]. simpl. now rewrite Hlen.
Qed.

(** X11. Loading a stored channel into a reserved slot. If the tree has an
    [.attributes] blob that the storage service reads, the chaincode knows the
    stored type and the channel map has nothing under the id, then [reserve]
    followed by [loadSnapshotChannel] returns, on a closed runtime as on an
    open one: the loaded channel is appended to the channel map under the id,
    with a storage view of the tree and the delta connection that
    [setBaseMapping(attributes.sequenceNumber, minimumSequenceNumber)] makes
    of a new one in the runtime's connection state; it was loaded with the
    backlog translated by that connection, message for message; the deferred
    of the id is resolved; and the pending set, the trace and the closed flag
    are as they were. *)
Theorem load_after_reserve_registers_channel :
  forall (id : string) (tree : ISnapshotTree) (storage : IDocumentStorageService)
         (messages : list (ISequencedDocumentMessage IEnvelope))
         (branch : string) (msn : Z) (r : Runtime)
         (sha : string) (attributes : IObjectAttributes) (extension : IChaincodeModule),
    JsMap.get ".attributes" (blobs tree) = Some sha ->
    readAndParse storage sha = Some attributes ->
    chaincode r (attr_type attributes) = Some extension ->
    JsMap.has id (channels r) = false ->
    forall c,
    ChannelDeltaConnection.setBaseMapping
      (attr_sequenceNumber attributes) msn
      (ChannelDeltaConnection.new id (connectionState r)) = Some c ->
    let services := mkObjectServices c (ChannelStorageService (Some tree) storage) in
    exists r1 r' ms,
      reserve id r = Ok tt r1 /\
      loadSnapshotChannel id tree storage messages branch msn r1 = Ok tt r' /\
      translateAll c messages = Some ms /\
      List.length ms = List.length messages /\
      let loaded := load extension id (ChannelDeltaConnection.sequenceNumber c)
                         (attr_sequenceNumber attributes) ms services branch in
      channels r'
      = (channels r
         ++ [(id, mkChannelState loaded (Some (objectStorage services)) (Some c))])%list /\
      (exists first, JsMap.get id (channelsDeferred r') = Some (Resolved first)) /\
      (JsMap.get id (channelsDeferred r) = None \/
       JsMap.get id (channelsDeferred r) = Some Pending ->
       JsMap.get id (channelsDeferred r') = Some (Resolved (IChannel.ref loaded))) /\
      pendingAttach r' = pendingAttach r /\
      trace r' = trace r /\
      closed r' = closed r.
Proof.
  intros id tree storage messages branch msn r sha attributes extension
         Hblob Hread Hmodule Hnew c Hc services.
  assert (Hset : ChannelDeltaConnection.baseMappingIsSet c = true).
  { unfold ChannelDeltaConnection.setBaseMapping in Hc.
    destruct (ChannelDeltaConnection.baseMappingIsSet
                (ChannelDeltaConnection.new id (connectionState r)));
      [discriminate|].
    inversion Hc. reflexivity. }
  destruct (translateAll_mapped c messages Hset) as (ms & Hms & Hlen).
  set (r1 := if JsMap.has id (channelsDeferred r) then r
             else set_channelsDeferred (JsMap.set id Pending (channelsDeferred r)) r).
  assert (E1 : reserve id r = Ok tt r1).
  { unfold reserve, bind, gets, modify, ret, r1.
    destruct (JsMap.has id (channelsDeferred r)); reflexivity. }
  assert (Hd1 : exists d, JsMap.get id (channelsDeferred r1) = Some d /\
                          (JsMap.get id (channelsDeferred r) = None \/
                           JsMap.get id (channelsDeferred r) = Some Pending ->
                           d = Pending)).
  { unfold r1, JsMap.has.
    destruct (JsMap.get id (channelsDeferred r)) as [d|] eqn:Ed.
    - exists d. split; [exact Ed|]. intros [H|H]; congruence.
    - exists Pending. fields. split; [apply JsMapFacts.get_set_same | auto]. }
  destruct Hd1 as (d & Hd & Hpending).
  assert (F1 : channels r1 = channels r /\ chaincode r1 = chaincode r /\
               connectionState r1 = connectionState r /\
               pendingAttach r1 = pendingAttach r /\ trace r1 = trace r /\
               closed r1 = closed r).
  { unfold r1. destruct (JsMap.has id (channelsDeferred r)); fields; auto 7. }
  destruct F1 as (Fc & Fk & Fs & Fp & Ft & Fo).
  exists r1. eexists. exists ms. split; [exact E1|].
  split.
  - unfold loadSnapshotChannel, loadChannel, getObjectServices.
    unfold bind, gets, modify, assert, expect, ret, throw.
    rewrite Hblob, Hread. cbn [deltaConnection objectStorage].
    rewrite Fs, Hc. cbn [deltaConnection objectStorage]. rewrite Hms.
    rewrite Fk, Hmodule. cbn [object]. rewrite Fc, Hnew. cbn [negb].
    fields. rewrite Hd. reflexivity.
  - split; [exact Hms|]. split; [exact Hlen|]. fields. rewrite ?Fc, ?Fp, ?Ft, ?Fo.
    split; [now rewrite (set_new _ _ _ Hnew)|].
    split; [rewrite JsMapFacts.get_set_same; destruct d; simpl; eauto|].
    split.
    + intros H. rewrite JsMapFacts.get_set_same. now rewrite (Hpending H).
    + auto.
Qed.

(** A run of X11: the stored channel ["s1"] is loaded into the fresh runtime. *)
Lemma load_after_reserve_registers_channel_witness :
  let c := ChannelDeltaConnection.mk "s1" Disconnected (Some (3, 9)) 0 in
  let services :=
    mkObjectServices c (ChannelStorageService (Some Runs.storedTree) Runs.storage) in
  exists r1 r' ms,
    reserve "s1" Scenario.fresh = Ok tt r1 /\
    loadSnapshotChannel "s1" Runs.storedTree Runs.storage Runs.backlog "main" 9 r1
    = Ok tt r' /\
    translateAll c Runs.backlog = Some ms /\
    List.length ms = List.length Runs.backlog /\
    let loaded := load (Scenario.typeModule 2 "TypeB") "s1"
                       (ChannelDeltaConnection.sequenceNumber c) 3 ms services "main" in
    channels r'
    = (channels Scenario.fresh
       ++ [("s1", mkChannelState loaded (Some (objectStorage services)) (Some c))])%list /\
    (exists first, JsMap.get "s1" (channelsDeferred r') = Some (Resolved first)) /\
    (JsMap.get "s1" (channelsDeferred Scenario.fresh) = None \/
     JsMap.get "s1" (channelsDeferred Scenario.fresh) = Some Pending ->
     JsMap.get "s1" (channelsDeferred r') = Some (Resolved (IChannel.ref loaded))) /\
    pendingAttach r' = pendingAttach Scenario.fresh /\
    trace r' = trace Scenario.fresh /\
    closed r' = closed Scenario.fresh.
Proof.
  apply (load_after_reserve_registers_channel "s1" Runs.storedTree Runs.storage
           Runs.backlog "main" 9 Scenario.fresh "sha1" (mkObjectAttributes 3 "TypeB")
           (Scenario.typeModule 2 "TypeB") eq_refl eq_refl eq_refl eq_refl
           (ChannelDeltaConnection.mk "s1" Disconnected (Some (3, 9)) 0)).
  reflexivity.
Defined.

(** X12. What [loadSnapshotChannel] refuses, each time leaving the runtime as
    it was: a tree without an [.attributes] blob, or one the storage service
    cannot read, is a rejection; a stored type the chaincode does not know is
    a [TypeError]; and an id the channel map already has fails the
    assertion, whatever is stored. *)
Theorem loadSnapshotChannel_refusals :
  forall (id : string) (tree : ISnapshotTree) (storage : IDocumentStorageService)
         (messages : list (ISequencedDocumentMessage IEnvelope))
         (branch : string) (msn : Z) (r : Runtime),
    let stored := match JsMap.get ".attributes" (blobs tree) with
                  | Some sha => readAndParse storage sha
                  | None => None
                  end in
    let result := loadSnapshotChannel id tree storage messages branch msn r in
    (stored = None -> result = Throw Rejected r) /\
    (forall attributes,
        stored = Some attributes ->
        (chaincode r (attr_type attributes) = None -> result = Throw TypeError r) /\
        (chaincode r (attr_type attributes) <> None ->
         JsMap.has id (channels r) = true -> result = Throw AssertionError r)).
Proof.
  intros id tree storage messages branch msn r stored result.
  unfold result, loadSnapshotChannel, loadChannel, getObjectServices.
  unfold bind, gets, modify, assert, expect, ret, throw.
  fold stored. split.
  - intros ->. reflexivity.
  - intros attributes ->. simpl.
    match goal with
    | |- context [translateAll ?c messages] =>
        destruct (translateAll_mapped c messages eq_refl) as (ms & -> & _)
    end.
    simpl. split.
    + intros ->. reflexivity.
    + intros Hmodule Hhas.
      destruct (chaincode r (attr_type attributes)); [|congruence].
      simpl. rewrite Hhas. reflexivity.
Qed.

(** A run of X12: a second load under the id of an acknowledged channel. *)
Lemma loadSnapshotChannel_refusals_witness :
  loadSnapshotChannel "c1" Runs.storedTree Runs.storage [] "main" 9 Scenario.attached
  = Throw AssertionError Scenario.attached.
Proof.
  destruct (loadSnapshotChannel_refusals "c1" Runs.storedTree Runs.storage [] "main" 9
              Scenario.attached) as [_ H].
  destruct (H (mkObjectAttributes 3 "TypeB") eq_refl) as [_ H'].
  apply H'; [discriminate | reflexivity].
Defined.

(** ** What the runtime never undoes *)

Lemma deferredGrows_refl (r : Runtime) : deferredGrows r r.
Proof. split; auto. Qed.

Lemma deferredGrows_same (r r' : Runtime) :
  channelsDeferred r' = channelsDeferred r -> deferredGrows r r'.
Proof. intros H. unfold deferredGrows. rewrite H. auto. Qed.

Lemma deferredGrows_trans (a b c : Runtime) :
  deferredGrows a b -> deferredGrows b c -> deferredGrows a c.
Proof. intros [H1 H2] [K1 K2]. split; auto. Qed.

(** Resolving the deferred of an id, or registering one, loses nothing. *)
Lemma deferredGrows_resolve (r r' : Runtime) (id : string) (channel : IChannel.t) :
  channelsDeferred r'
  = JsMap.set id (resolve channel (match JsMap.get id (channelsDeferred r) with
                                   | Some d => d
                                   | None => Pending
                                   end))
              (channelsDeferred r) ->
  deferredGrows r r' /\
  exists first, JsMap.get id (channelsDeferred r') = Some (Resolved first).
Proof.
  intros H. split; [split|].
  - intros k c Hk. rewrite H. destruct (string_dec id k) as [<-|Hne].
    + rewrite JsMapFacts.get_set_same, Hk. reflexivity.
    + now rewrite JsMapFacts.get_set_other.
  - intros k Hk. rewrite H. destruct (string_dec id k) as [<-|Hne].
    + apply JsMapFacts.has_set_same.
    + now rewrite JsMapFacts.has_set_other.
  - rewrite H, JsMapFacts.get_set_same.
    destruct (JsMap.get id (channelsDeferred r)) as [[|c]|]; simpl; eauto.
Qed.

Lemma deferredGrows_pending (r r' : Runtime) (id : string) :
  JsMap.has id (channelsDeferred r) = false ->
  channelsDeferred r' = JsMap.set id Pending (channelsDeferred r) ->
  deferredGrows r r'.
Proof.
  intros Hnew H. split.
  - intros k c Hk. rewrite H. destruct (string_dec id k) as [<-|Hne].
    + unfold JsMap.has in Hnew. now rewrite Hk in Hnew.
    + now rewrite JsMapFacts.get_set_other.
  - intros k Hk. rewrite H. destruct (string_dec id k) as [<-|Hne].
    + apply JsMapFacts.has_set_same.
    + now rewrite JsMapFacts.has_set_other.
Qed.

(** ** Task analysis *)

(** X16. [runTaskAnalyzer] asks for help only in the runtime of the leader.
    Without an elector it throws a [TypeError]. If the elector's leader is not
    this client it returns without having done anything, even on a closed
    runtime. If the leader is this client, a closed runtime refuses with the
    closed-runtime error, and an open one analyses its tasks against the
    members of the quorum and then tells the host of the browser tasks, if
    there are any, before it submits the remote-help message for the agent
    tasks, if there are any, both with the registered version; nothing but
    the trace changes. *)
Theorem runTaskAnalyzer_only_the_leader_asks :
  forall (analyzeTasks : string -> JsMap.t IClient -> list string -> option IHelpTasks)
         (r : Runtime),
    match leaderElector r with
    | None => runTaskAnalyzer analyzeTasks r = Throw TypeError r
    | Some elector =>
        if optionStringEqb (getLeader elector) (clientId r)
        then
          if closed r
          then runTaskAnalyzer analyzeTasks r = Throw RuntimeClosed r
          else runTaskAnalyzer analyzeTasks r
               = Ok tt (logAll (helpRequests
                                  (version r)
                                  (analyzeTasks (clientId r) (getMembers (quorum r))
                                                (tasks r)))
                               r)
        else runTaskAnalyzer analyzeTasks r = Ok tt r
    end.
Proof.
  intros analyze r.
  unfold runTaskAnalyzer, getQuorum, submitMessage, submit.
  unfold bind, verifyNotClosed, gets, modify, expect, ret, throw.
  destruct (leaderElector r) as [elector|]; [|reflexivity]. simpl.
  destruct (optionStringEqb (getLeader elector) (clientId r)); [|reflexivity].
  destruct (closed r) eqn:Hopen; [reflexivity|].
  unfold helpRequests.
  destruct (analyze (clientId r) (getMembers (quorum r)) (tasks r)) as [h|];
    [|now rewrite logAll_nil].
  destruct (nonEmpty (browser h)) eqn:Eb, (nonEmpty (robot h)) eqn:Er; simpl;
    rewrite ?Hopen, ?logAll_nil; try reflexivity;
    unfold log, logAll; simpl; rewrite <- ?app_assoc; reflexivity.
Qed.

(** ** Transforming a message *)

(** X17. [transform] never changes the runtime, whatever its outcome. It
    throws a [TypeError] when no channel is registered under the address of
    the envelope, when the channel has no delta connection yet, and when the
    runtime has no delta manager. When it returns, the message has its
    address and its sequence numbers unchanged, and its contents are those the
    addressed channel's own [transform] made of the original contents. *)
Theorem transform_reads_only :
  forall (message : ISequencedDocumentMessage IEnvelope) (r : Runtime),
    let target := address (contents message) in
    stateOf (transform message r) = r /\
    (JsMap.get target (channels r) = None -> transform message r = Throw TypeError r) /\
    (forall entry,
        JsMap.get target (channels r) = Some entry ->
        connection entry = None \/ deltaManager r = None ->
        transform message r = Throw TypeError r) /\
    (forall transformed r',
        transform message r = Ok transformed r' ->
        address (contents transformed) = target /\
        sequenceNumber transformed = sequenceNumber message /\
        referenceSequenceNumber transformed = referenceSequenceNumber message /\
        minimumSequenceNumber transformed = minimumSequenceNumber message /\
        origin transformed = origin message /\
        exists entry n,
          JsMap.get target (channels r) = Some entry /\
          env_contents (contents transformed)
          = IChannel.transform (object entry) (env_contents (contents message)) n).
Proof.
  intros message r target.
  unfold transform. unfold bind, gets, expect, ret, throw. fold target.
  destruct (JsMap.get target (channels r)) as [entry|]; simpl;
    [|repeat split; discriminate].
  destruct (connection entry) as [c|] eqn:Ec; simpl.
  2:{ repeat split; try discriminate. }
  destruct (deltaManager r) as [d|] eqn:Ed; simpl.
  2:{ repeat split; try discriminate. }
  destruct (ChannelDeltaConnection.transformDocumentSequenceNumber _ c) as [n|];
    simpl.
  - split; [reflexivity|]. split; [discriminate|]. split.
    + intros e [= <-] [H|H]; congruence.
    + intros transformed r' [= <- <-]. simpl. repeat split. eauto.
  - split; [reflexivity|]. split; [discriminate|]. split.
    + intros e [= <-] [H|H]; congruence.
    + discriminate.
Qed.

(** A run of X17: an operation for a channel that is created but not attached. *)
Lemma transform_reads_only_witness :
  transform Scenario.operation Scenario.created = Throw TypeError Scenario.created.
Proof.
  destruct (transform_reads_only Scenario.operation Scenario.created)
    as (_ & _ & H & _).
  apply (H (mkChannelState (Scenario.channel 1 "c1" "TypeA" true) None None)).
  - reflexivity.
  - left. reflexivity.
Defined.

(** ** The tree, once more *)

Lemma expectedSnapshot_paths (chans : JsMap.t IChannelState) :
  map path (expectedSnapshot chans)
  = JsMap.keys (filter (fun kv => included (snd kv)) chans).
Proof.
  induction chans as [|[k entry] chans IH]; simpl; [reflexivity|].
  destruct (included entry) eqn:Ei.
  - destruct (included_connection _ Ei) as [c Hc]. rewrite Hc. simpl.
    now rewrite IH.
  - destruct (connection entry); simpl; exact IH.
Qed.

Lemma NoDup_keys_filter {V : Type} (f : string * V -> bool) (m : JsMap.t V) :
  NoDup (JsMap.keys m) -> NoDup (JsMap.keys (filter f m)).
Proof.
  unfold JsMap.keys. induction m as [|kv m IH]; simpl; intros H; [constructor|].
  inversion H as [|? ? Hnotin Hnd]; subst.
  destruct (f kv); simpl; auto.
  constructor; auto.
  intros Hin. apply Hnotin. apply in_map_iff in Hin.
  destruct Hin as (x & Hx & Hf). apply filter_In in Hf.
  apply in_map_iff. exists x. tauto.
Qed.

(** ** What no call undoes *)

Lemma get_delete_Some {V : Type} (k k' : string) (v : V) (m : JsMap.t V) :
  JsMap.get k' (JsMap.delete k m) = Some v -> JsMap.get k' m = Some v.
Proof.
  destruct (string_dec k k') as [<-|Hne].
  - pose proof (JsMapFacts.has_delete_same k m) as H. unfold JsMap.has in H.
    intros E. now rewrite E in H.
  - now rewrite JsMapFacts.get_delete_other.
Qed.

Lemma grows_nil {A : Type} (l : list A) : exists es, l = (l ++ es)%list.
Proof. exists []. now rewrite app_nil_r. Qed.

Lemma sameIds_refl (r : Runtime) : sameIds r r.
Proof. unfold sameIds. auto using grows_nil. Qed.

Lemma sameIds_trans (a b c : Runtime) : sameIds a b -> sameIds b c -> sameIds a c.
Proof.
  intros (H1 & H2 & H3 & es & H4) (K1 & K2 & K3 & fs & K4).
  unfold sameIds. repeat split; try congruence.
  exists (es ++ fs)%list. now rewrite K4, H4, app_assoc.
Qed.

(** The state a write of one field leaves, when the field is none of the
    three maps. *)
Ltac same_fields :=
  unfold sameIds; fields;
  repeat split; try reflexivity;
  first [ apply grows_nil | eexists; reflexivity ].

Lemma quiet_ret {A : Type} (a : A) : quiet (ret a).
Proof. intros r. apply sameIds_refl. Qed.

Lemma quiet_throw {A : Type} (e : Error) : quiet (@throw A e).
Proof. intros r. apply sameIds_refl. Qed.

Lemma quiet_gets {A : Type} (f : Runtime -> A) : quiet (gets f).
Proof. intros r. apply sameIds_refl. Qed.

Lemma quiet_expect {A : Type} (e : Error) (o : option A) : quiet (expect e o).
Proof. intros r. destruct o; apply sameIds_refl. Qed.

Lemma quiet_assert (b : bool) : quiet (assert b).
Proof. intros r. destruct b; apply sameIds_refl. Qed.

Lemma quiet_verifyNotClosed : quiet verifyNotClosed.
Proof. intros r. unfold verifyNotClosed. destruct (closed r); apply sameIds_refl. Qed.

Lemma quiet_modify (f : Runtime -> Runtime) :
  (forall r, sameIds r (f r)) -> quiet (modify f).
Proof. intros H r. apply H. Qed.

Lemma quiet_bind {A B : Type} (m : M A) (k : A -> M B) :
  quiet m -> (forall a, quiet (k a)) -> quiet (bind m k).
Proof.
  intros Hm Hk r. unfold bind. specialize (Hm r).
  destruct (m r) as [a r1|e r1]; simpl in *; [|exact Hm].
  eapply sameIds_trans; [exact Hm | apply Hk].
Qed.

Lemma quiet_overChannels (body : IChannelState -> Error + IChannelState) :
  quiet (overChannels body).
Proof.
  intros r. unfold overChannels.
  pose proof (JsMapFacts.keys_forEachEntry body (channels r)) as Hk.
  destruct (forEachEntry body (channels r)) as [chans [e|]]; simpl in *;
    unfold sameIds; fields; auto using grows_nil.
Qed.

Lemma quiet_snapshotInternal : quiet snapshotInternal.
Proof.
  intros r. unfold snapshotInternal.
  destruct (snapshotEntries (channels r)); apply sameIds_refl.
Qed.

(** One step of a walk through a method: its plumbing, its branches, and the
    writes that touch none of the three maps. *)
Ltac quiet_step :=
  match goal with
  | |- quiet (bind _ _) => apply quiet_bind; [|intros ?]
  | |- quiet (ret _) => apply quiet_ret
  | |- quiet (throw _) => apply quiet_throw
  | |- quiet (gets _) => apply quiet_gets
  | |- quiet (expect _ _) => apply quiet_expect
  | |- quiet (assert _) => apply quiet_assert
  | |- quiet verifyNotClosed => apply quiet_verifyNotClosed
  | |- quiet (overChannels _) => apply quiet_overChannels
  | |- quiet snapshotInternal => apply quiet_snapshotInternal
  | |- quiet (modify _) => apply quiet_modify; intros ?; same_fields
  | |- quiet (if ?b then _ else _) => destruct b
  | |- quiet (match ?x with _ => _ end) => destruct x
  end.

Ltac quiet_walk := cbv zeta; repeat quiet_step.

Lemma quiet_submit (type : MessageType) (content : Content) :
  quiet (submit type content).
Proof. unfold submit. quiet_walk. Qed.

Lemma quiet_forEach {A : Type} (xs : list A) (body : A -> M unit) :
  (forall x, quiet (body x)) -> quiet (forEach xs body).
Proof.
  intros H. induction xs as [|x xs IH]; simpl; [apply quiet_ret|].
  apply quiet_bind; auto.
Qed.

Lemma quiet_getQuorum : quiet getQuorum.
Proof. unfold getQuorum. quiet_walk. Qed.

Section QuietMethods.

Variable getLeaderCandidate : JsMap.t IClient -> option string.
Variable analyzeTasks : string -> JsMap.t IClient -> list string -> option IHelpTasks.

Lemma quiet_proposeLeadership : quiet (proposeLeadership getLeaderCandidate).
Proof.
  unfold proposeLeadership.
  apply quiet_bind; [apply quiet_getQuorum | intros q]. quiet_walk.
Qed.

Lemma quiet_initLeaderElection : quiet (initLeaderElection getLeaderCandidate).
Proof.
  unfold initLeaderElection.
  apply quiet_bind; [apply quiet_getQuorum | intros q].
  apply quiet_bind; [quiet_walk | intros me].
  apply quiet_bind; [quiet_walk | intros _].
  apply quiet_proposeLeadership.
Qed.

Lemma quiet_runConnectedHandlers (n : nat) :
  quiet (runConnectedHandlers getLeaderCandidate n).
Proof.
  induction n as [|n IH]; simpl; [apply quiet_ret|].
  apply quiet_bind; [apply quiet_initLeaderElection | intros _].
  apply quiet_bind; [quiet_walk | intros _]. exact IH.
Qed.

Lemma quiet_changeConnectionState (value : ConnectionState) (suppliedId : string) :
  quiet (changeConnectionState getLeaderCandidate value suppliedId).
Proof.
  unfold changeConnectionState.
  apply quiet_bind; [quiet_walk | intros _].
  apply quiet_bind; [quiet_walk | intros current].
  destruct (ConnectionState_eqb value current); [apply quiet_ret|].
  apply quiet_bind; [quiet_walk | intros _].
  apply quiet_bind; [quiet_walk | intros _].
  apply quiet_bind; [|intros _; apply quiet_overChannels].
  destruct (ConnectionState_eqb value Connected); [|apply quiet_ret].
  apply quiet_bind; [quiet_walk | intros pending].
  apply quiet_bind; [apply quiet_forEach; intros x; apply quiet_submit | intros _].
  unfold emitConnected.
  apply quiet_bind; [quiet_walk | intros _].
  apply quiet_bind; [quiet_walk | intros n].
  apply quiet_runConnectedHandlers.
Qed.

Lemma quiet_runTaskAnalyzer : quiet (runTaskAnalyzer analyzeTasks).
Proof.
  unfold runTaskAnalyzer.
  apply quiet_bind; [quiet_walk | intros elector].
  apply quiet_bind; [quiet_walk | intros e].
  apply quiet_bind; [quiet_walk | intros me].
  destruct (optionStringEqb (getLeader e) me); [|apply quiet_ret].
  apply quiet_bind; [apply quiet_getQuorum | intros q].
  apply quiet_bind; [quiet_walk | intros ts].
  apply quiet_bind; [quiet_walk | intros v].
  destruct (analyzeTasks me (getMembers q) ts) as [h|]; [|apply quiet_ret].
  destruct (nonEmpty (browser h) || nonEmpty (robot h)); [|apply quiet_ret].
  apply quiet_bind; [quiet_walk | intros _].
  destruct (nonEmpty (robot h)); [apply quiet_submit | apply quiet_ret].
Qed.

Lemma quiet_registerTasks (tasks : list string) (version : option string) :
  quiet (registerTasks getLeaderCandidate tasks version).
Proof.
  unfold registerTasks, startLeaderElection.
  apply quiet_bind; [quiet_walk | intros _].
  apply quiet_bind; [quiet_walk | intros _].
  apply quiet_bind; [quiet_walk | intros dm].
  destruct dm as [d|]; [|apply quiet_ret].
  destruct (String.eqb (clientType d) Browser); [|apply quiet_ret].
  apply quiet_bind; [quiet_walk | intros isConnected].
  destruct isConnected; [apply quiet_initLeaderElection | quiet_walk].
Qed.

End QuietMethods.

Lemma quiet_prepareAttach (message : ISequencedDocumentMessage IAttachMessage)
      (local : bool) :
  quiet (prepareAttach message local).
Proof. unfold prepareAttach, loadChannel. quiet_walk. Qed.

Lemma quiet_hasUnackedOps : quiet hasUnackedOps.
Proof. unfold hasUnackedOps. quiet_walk. Qed.

Lemma quiet_snapshot (message : string) : quiet (snapshot message).
Proof. unfold snapshot. quiet_walk. Qed.

Lemma quiet_save (tag : string) : quiet (save tag).
Proof.
  unfold save. apply quiet_bind; [quiet_walk | intros _]. apply quiet_submit.
Qed.

Lemma quiet_transform (message : ISequencedDocumentMessage IEnvelope) :
  quiet (transform message).
Proof. unfold transform. quiet_walk. Qed.

Lemma quiet_stop : quiet stop.
Proof. unfold stop. quiet_walk. Qed.

Lemma quiet_close : quiet close.
Proof. unfold close. quiet_walk. Qed.

Lemma quiet_updateMinSequenceNumber (msn : Z) : quiet (updateMinSequenceNumber msn).
Proof.
  unfold updateMinSequenceNumber, updateMinSequenceNumberWith.
  apply quiet_overChannels.
Qed.

Lemma quiet_electorRecords (leader : option string) : quiet (electorRecords leader).
Proof.
  unfold electorRecords. apply quiet_modify. intros r.
  destruct (leaderElector r); [same_fields | apply sameIds_refl].
Qed.

Lemma kept_refl (r : Runtime) : kept r r.
Proof.
  unfold kept. repeat split; auto using grows_nil.
Qed.

Lemma kept_trans (a b c : Runtime) : kept a b -> kept b c -> kept a c.
Proof.
  intros (G1 & [es T1] & N1 & C1 & P1) (G2 & [fs T2] & N2 & C2 & P2).
  unfold kept. split; [|split; [|split; [|split]]].
  - destruct G1, G2. split; auto.
  - exists (es ++ fs)%list. now rewrite T2, T1, app_assoc.
  - auto.
  - intros id H. destruct (C2 id H) as [H'|H']; [|now right].
    destruct (C1 id H') as [H''|[first H'']]; [now left | right].
    exists first. now apply G2.
  - intros id m H. destruct (P2 id m H) as [H'|H']; [|now right].
    destruct (P1 id m H') as [H''|[Hid Hin]]; [now left | right].
    split; [exact Hid|]. rewrite T2. apply in_or_app. now left.
Qed.

Lemma sameIds_kept (r r' : Runtime) : sameIds r r' -> kept r r'.
Proof.
  intros (Hk & Hd & Hp & Ht). unfold kept. split; [|split; [|split; [|split]]].
  - now apply deferredGrows_same.
  - exact Ht.
  - now rewrite Hk.
  - intros id H. left. apply JsMapFacts.has_In_keys.
    apply JsMapFacts.has_In_keys in H. congruence.
  - intros id m. rewrite Hp. auto.
Qed.

(** What a write under one key of the channel map keeps, when the key is
    already there or its deferred is resolved afterwards. *)
Lemma kept_build (r r' : Runtime) :
  deferredGrows r r' ->
  (exists es, trace r' = (trace r ++ es)%list) ->
  (channels r' = channels r \/
   exists k st,
     channels r' = JsMap.set k st (channels r) /\
     (JsMap.has k (channels r) = true \/
      exists first, JsMap.get k (channelsDeferred r') = Some (Resolved first))) ->
  (forall id message,
      JsMap.get id (pendingAttach r') = Some message ->
      JsMap.get id (pendingAttach r) = Some message \/
      (am_id message = id /\
       In (Submit Attach (AttachContent message)) (trace r'))) ->
  kept r r'.
Proof.
  intros G T C P. unfold kept. split; [exact G|]. split; [exact T|].
  split; [|split; [|exact P]].
  - destruct C as [->|(k & st & -> & _)]; auto using JsMapFacts.NoDup_keys_set.
  - destruct C as [->|(k & st & -> & Hk)]; [auto|].
    intros id. destruct (string_dec k id) as [<-|Hne].
    + intros _. exact Hk.
    + rewrite JsMapFacts.has_set_other by assumption. auto.
Qed.

Lemma kept_build_same (r r' : Runtime) :
  channelsDeferred r' = channelsDeferred r ->
  (exists es, trace r' = (trace r ++ es)%list) ->
  (channels r' = channels r \/
   exists k st,
     channels r' = JsMap.set k st (channels r) /\ JsMap.has k (channels r) = true) ->
  (forall id message,
      JsMap.get id (pendingAttach r') = Some message ->
      JsMap.get id (pendingAttach r) = Some message \/
      (am_id message = id /\
       In (Submit Attach (AttachContent message)) (trace r'))) ->
  kept r r'.
Proof.
  intros G T C P. apply kept_build; auto using deferredGrows_same.
  destruct C as [C|(k & st & C & H)]; [now left | right]. eauto.
Qed.

Lemma kept_getChannel (id : string) (r : Runtime) :
  kept r (stateOf (getChannel id r)).
Proof.
  rewrite getChannel_exact. destruct (closed r); [apply kept_refl|]. simpl.
  destruct (JsMap.has id (channelsDeferred r)) eqn:E; [apply kept_refl|].
  apply kept_build; [|apply grows_nil | now left | auto].
  eapply deferredGrows_pending; [exact E | reflexivity].
Qed.

Lemma kept_reserve (id : string) (r : Runtime) :
  kept r (stateOf (reserve id r)).
Proof.
  unfold reserve. run_method.
  destruct (JsMap.has id (channelsDeferred r)) eqn:E; simpl; [apply kept_refl|].
  apply kept_build; [|apply grows_nil | now left | auto].
  eapply deferredGrows_pending; [exact E | reflexivity].
Qed.

(** The [if (this.channelsDeferred.has(id)) ... else ...] block always
    returns, and leaves the deferred of the id resolved. *)
Lemma resolveChannel_exact (id : string) (channel : IChannel.t) (r : Runtime) :
  resolveChannel id channel r
  = Ok tt (set_channelsDeferred
             (JsMap.set id (resolve channel (match JsMap.get id (channelsDeferred r) with
                                             | Some d => d
                                             | None => Pending
                                             end))
                        (channelsDeferred r)) r).
Proof.
  unfold resolveChannel. run_method.
  destruct (JsMap.get id (channelsDeferred r)); reflexivity.
Qed.

Lemma kept_createChannel (id type : string) (r : Runtime) :
  kept r (stateOf (createChannel id type r)).
Proof.
  unfold createChannel.
  unfold bind at 1. unfold verifyNotClosed.
  destruct (closed r); [apply kept_refl|].
  unfold bind at 1. unfold gets at 1.
  unfold bind at 1.
  destruct (chaincode r type) as [extension|]; simpl; [|apply kept_refl].
  unfold bind at 1. unfold modify at 1.
  unfold bind at 1. rewrite resolveChannel_exact. unfold ret. simpl.
  match goal with |- kept _ ?x => set (r' := x) end.
  destruct (deferredGrows_resolve r r' id (create extension id) eq_refl) as [G R].
  apply kept_build; auto using grows_nil.
  right. eexists _, _. split; [reflexivity|]. right. exact R.
Qed.

Lemma kept_attachChannel (channel : IChannel.t) (r : Runtime) :
  kept r (stateOf (attachChannel channel r)).
Proof.
  unfold attachChannel, submit, getObjectServices. run_method.
  destruct (closed r) eqn:Hopen; [apply kept_refl|]. simpl. rewrite Hopen. simpl.
  assert (P : forall r' : Runtime,
             pendingAttach r'
             = JsMap.set (IChannel.id channel)
                 (mkAttachMessage (IChannel.id channel) (IChannel.snapshot channel)
                                  (IChannel.type channel))
                 (pendingAttach r) ->
             trace r' = (trace r ++ [Submit Attach
                                       (AttachContent
                                          (mkAttachMessage (IChannel.id channel)
                                             (IChannel.snapshot channel)
                                             (IChannel.type channel)))])%list ->
             forall id message,
               JsMap.get id (pendingAttach r') = Some message ->
               JsMap.get id (pendingAttach r) = Some message \/
               (am_id message = id /\
                In (Submit Attach (AttachContent message)) (trace r'))).
  { intros r' Hp Ht id m. rewrite Hp, Ht.
    destruct (string_dec (IChannel.id channel) id) as [<-|Hne].
    - rewrite JsMapFacts.get_set_same. intros [= <-]. right. split; [reflexivity|].
      apply in_or_app. right. now left.
    - rewrite JsMapFacts.get_set_other by assumption. auto. }
  destruct (JsMap.get (IChannel.id channel) (channels r)) as [entry|] eqn:E; simpl.
  2:{ apply kept_build_same;
        [reflexivity | eexists; reflexivity | now left | now apply P]. }
  destruct (Nat.eqb (IChannel.ref (object entry)) (IChannel.ref channel)); simpl.
  2:{ apply kept_build_same;
        [reflexivity | eexists; reflexivity | now left | now apply P]. }
  apply kept_build_same;
    [reflexivity | eexists; reflexivity | | now apply P].
  right. eexists _, _. split; [reflexivity|]. unfold JsMap.has. now rewrite E.
Qed.

Lemma kept_processAttach (message : ISequencedDocumentMessage IAttachMessage)
      (local : bool) (context : option IChannelState) (r : Runtime) :
  kept r (stateOf (processAttach message local context r)).
Proof.
  unfold processAttach.
  unfold bind at 1. unfold verifyNotClosed.
  destruct (closed r); [apply kept_refl|]. cbv zeta.
  destruct local.
  - run_method.
    destruct (JsMap.has (am_id (contents message)) (pendingAttach r)); simpl;
      [|apply kept_refl].
    assert (P : forall r' : Runtime,
               pendingAttach r' = JsMap.delete (am_id (contents message)) (pendingAttach r) ->
               forall id m,
                 JsMap.get id (pendingAttach r') = Some m ->
                 JsMap.get id (pendingAttach r) = Some m \/
                 (am_id m = id /\ In (Submit Attach (AttachContent m)) (trace r'))).
    { intros r' -> id m H. left. eapply get_delete_Some; eauto. }
    destruct (JsMap.get (am_id (contents message)) (channels r)) as [entry|] eqn:E; simpl.
    2:{ apply kept_build_same;
          [reflexivity | apply grows_nil | now left | now apply P]. }
    destruct (connection entry) as [c|]; simpl.
    2:{ apply kept_build_same;
          [reflexivity | apply grows_nil | now left | now apply P]. }
    destruct (ChannelDeltaConnection.setBaseMapping _ _ c) as [c'|]; simpl.
    2:{ apply kept_build_same;
          [reflexivity | apply grows_nil | now left | now apply P]. }
    rewrite JsMapFacts.get_set_same. simpl.
    apply kept_build_same; [reflexivity | apply grows_nil | | now apply P].
    right. eexists _, _. split; [reflexivity|]. unfold JsMap.has. now rewrite E.
  - unfold bind at 1. unfold bind at 1.
    destruct context as [channelState|]; simpl; [|apply kept_refl].
    unfold bind at 1. unfold modify at 1.
    rewrite resolveChannel_exact.
    match goal with
    | |- kept _ (stateOf (bind _ _ ?x)) => set (r' := x)
    end.
    assert (K : kept r r').
    { destruct (deferredGrows_resolve
                  r r' (IChannel.id (object channelState)) (object channelState) eq_refl)
        as [G R].
      apply kept_build; auto using grows_nil.
      right. eexists _, _. split; [reflexivity|]. right. exact R. }
    run_method.
    destruct (JsMap.get (am_id (contents message)) (channels r')); exact K.
Qed.

Lemma kept_loadSnapshotChannel (id : string) (tree : ISnapshotTree)
      (storage : IDocumentStorageService)
      (messages : list (ISequencedDocumentMessage IEnvelope))
      (branch : string) (msn : Z) (r : Runtime) :
  JsMap.has id (channelsDeferred r) = true ->
  kept r (stateOf (loadSnapshotChannel id tree storage messages branch msn r)).
Proof.
  intros Hreserved.
  unfold loadSnapshotChannel, loadChannel, getObjectServices.
  unfold bind, gets, modify, assert, expect, ret, throw.
  destruct (match JsMap.get ".attributes" (blobs tree) with
            | Some sha => readAndParse storage sha
            | None => None
            end) as [attributes|]; simpl; [|apply kept_refl].
  match goal with
  | |- context [translateAll ?c messages] =>
      destruct (translateAll c messages) as [ms|]; simpl; [|apply kept_refl]
  end.
  destruct (chaincode r (attr_type attributes)) as [extension|]; simpl;
    [|apply kept_refl].
  destruct (JsMap.has id (channels r)); simpl; [apply kept_refl|].
  unfold JsMap.has in Hreserved.
  destruct (JsMap.get id (channelsDeferred r)) as [d|] eqn:Ed; [|discriminate]. simpl.
  match goal with |- kept _ ?x => set (r' := x) end.
  match goal with
  | _ := context [resolve ?ch d] |- _ =>
      destruct (deferredGrows_resolve r r' id ch) as [G R];
        [unfold r'; fields; now rewrite Ed|]
  end.
  apply kept_build; auto using grows_nil.
  right. eexists _, _. split; [reflexivity|]. right. exact R.
Qed.

Section CallFacts.

Variable getLeaderCandidate : JsMap.t IClient -> option string.
Variable analyzeTasks : string -> JsMap.t IClient -> list string -> option IHelpTasks.

Lemma call_kept (r r' : Runtime) :
  call getLeaderCandidate analyzeTasks r r' -> kept r r'.
Proof.
  intros H. destruct H;
    auto using kept_getChannel, kept_createChannel, kept_attachChannel,
               kept_processAttach, kept_reserve, kept_loadSnapshotChannel;
    try (apply sameIds_kept;
         first [ apply quiet_changeConnectionState | apply quiet_prepareAttach
               | apply quiet_getQuorum | apply quiet_hasUnackedOps
               | apply quiet_snapshot | apply quiet_save | apply quiet_transform
               | apply quiet_stop | apply quiet_close
               | apply quiet_updateMinSequenceNumber | apply quiet_snapshotInternal
               | apply quiet_submit | apply quiet_registerTasks
               | apply quiet_runTaskAnalyzer | apply quiet_proposeLeadership
               | apply quiet_electorRecords | same_fields ]).
  (* the channel object changes *)
  apply kept_build_same; [reflexivity | apply grows_nil | | auto].
  right. eexists _, _. split; [reflexivity|]. unfold JsMap.has.
  match goal with H : JsMap.get _ _ = Some _ |- _ => now rewrite H end.
Qed.

Lemma calls_kept (r r' : Runtime) :
  calls getLeaderCandidate analyzeTasks r r' -> kept r r'.
Proof.
  induction 1; [apply kept_refl|].
  eapply kept_trans; eauto using call_kept.
Qed.

(** What holds of a runtime throughout its life. *)
Lemma history_invariant (r : Runtime) :
  history getLeaderCandidate analyzeTasks r ->
  NoDup (JsMap.keys (channels r)) /\
  (forall id, JsMap.has id (channels r) = true ->
              exists first, JsMap.get id (channelsDeferred r) = Some (Resolved first)) /\
  pendingWasSubmitted r.
Proof.
  induction 1 as [|r r' Hr (Hn & Hc & Hp) Hcall].
  - split; [constructor|]. split; [discriminate|]. intros id m. discriminate.
  - destruct (call_kept _ _ Hcall) as (G & [es T] & N & C & P).
    split; [auto|]. split.
    + intros id H. destruct (C id H) as [H'|H']; [|exact H'].
      destruct (Hc id H') as [first Hf]. exists first. now apply G.
    + intros id m H. destruct (P id m H) as [H'|H']; [|exact H'].
      destruct (Hp id m H') as [Hid Hin]. split; [exact Hid|].
      rewrite T. apply in_or_app. now left.
Qed.

End CallFacts.

(** The container of scenario A is one a runtime lives through, and so are
    the acknowledged and the stopped one. *)
Lemma pending_history
      (getLeaderCandidate : JsMap.t IClient -> option string)
      (analyzeTasks : string -> JsMap.t IClient -> list string -> option IHelpTasks) :
  history getLeaderCandidate analyzeTasks Scenario.pending.
Proof.
  pose (ch := Scenario.channel 1 "c1" "TypeA" true).
  pose (r2 := stateOf (attachChannel ch Scenario.created)).
  apply history_call with (r := r2).
  - apply history_call with (r := Scenario.created).
    + apply history_call with (r := Scenario.fresh); [apply history_new|].
      exact (call_createChannel getLeaderCandidate analyzeTasks
               Scenario.fresh "c1" "TypeA").
    + exact (call_attachChannel getLeaderCandidate analyzeTasks Scenario.created ch).
  - exact (call_channelObject getLeaderCandidate analyzeTasks r2 "c1"
             (mkChannelState ch
                (Some (ChannelStorageService None (storageService Scenario.fresh)))
                (Some (ChannelDeltaConnection.new "c1" Disconnected)))
             (Scenario.channel 1 "c1" "TypeA" false)
             eq_refl (conj eq_refl eq_refl)).
Qed.

Lemma stopped_history
      (getLeaderCandidate : JsMap.t IClient -> option string)
      (analyzeTasks : string -> JsMap.t IClient -> list string -> option IHelpTasks) :
  history getLeaderCandidate analyzeTasks Scenario.stopped.
Proof.
  apply history_call with (r := Scenario.attached).
  - apply history_call with (r := Scenario.pending); [apply pending_history|].
    exact (call_processAttach getLeaderCandidate analyzeTasks
             Scenario.pending Scenario.echo true None).
  - exact (call_stop getLeaderCandidate analyzeTasks Scenario.attached).
Qed.

(** X13. No call of an embedded method removes a deferred or changes one that
    is resolved, whether the call returns or throws and whatever its
    arguments (the attach message of a peer for an id this client has
    pending, or has created, included), and neither does anything the
    channels, the quorum, the elector or the delta manager do on their own;
    nor does any sequence of these. Who waits for a channel gets the first
    channel registered under the id, and keeps it. *)
Theorem resolved_deferreds_are_kept :
  forall (getLeaderCandidate : JsMap.t IClient -> option string)
         (analyzeTasks : string -> JsMap.t IClient -> list string -> option IHelpTasks)
         (r r' : Runtime),
    calls getLeaderCandidate analyzeTasks r r' ->
    (forall id channel,
        JsMap.get id (channelsDeferred r) = Some (Resolved channel) ->
        JsMap.get id (channelsDeferred r') = Some (Resolved channel)) /\
    (forall id,
        JsMap.has id (channelsDeferred r) = true ->
        JsMap.has id (channelsDeferred r') = true).
Proof.
  intros cand analyze r r' H.
  destruct (calls_kept cand analyze r r' H) as (G & _).
  exact G.
Qed.

(** A run of X13: while the attach message of ["c1"] is pending, a peer's
    attach message for the same id is processed, the channel is created once
    more with another type, and the attaching of a channel nobody created
    throws: the channel map now answers another object for ["c1"], the
    deferred still the first. *)
Lemma resolved_deferreds_are_kept_witness :
  let r1 := stateOf (processAttach Runs.sameIdAttach false (Some Runs.sameIdContext)
                                   Scenario.pending) in
  let r2 := stateOf (createChannel "c1" "TypeB" r1) in
  let r3 := stateOf (attachChannel (Scenario.channel 9 "ghost" "TypeA" true) r2) in
  prepareAttach Runs.sameIdAttach false Scenario.pending
  = Ok (Some Runs.sameIdContext) Scenario.pending /\
  JsMap.has "c1" (pendingAttach Scenario.pending) = true /\
  JsMap.get "c1" (channelsDeferred Scenario.pending) = Some (Resolved 1) /\
  option_map (fun entry => IChannel.ref (object entry)) (JsMap.get "c1" (channels r1))
  = Some 11%nat /\
  attachChannel (Scenario.channel 9 "ghost" "TypeA" true) r2 = Throw TypeError r3 /\
  JsMap.get "c1" (channelsDeferred r3) = Some (Resolved 1).
Proof.
  intros r1 r2 r3.
  split; [reflexivity|]. split; [reflexivity|]. split; [reflexivity|].
  split; [reflexivity|]. split; [reflexivity|].
  assert (H : calls lowestOrderedCandidate Scenario.noTasks Scenario.pending r3).
  { apply calls_call with (r1 := r2); [|apply call_attachChannel].
    apply calls_call with (r1 := r1); [|apply call_createChannel].
    apply calls_call with (r1 := Scenario.pending); [apply calls_none|].
    apply call_processAttach. }
  destruct (resolved_deferreds_are_kept
              lowestOrderedCandidate Scenario.noTasks Scenario.pending r3 H) as [K _].
  apply K. reflexivity.
Defined.

(** X14. In every state that follows the constructor through calls of the
    embedded methods, returning or throwing, on a stopped runtime as on an
    open one, a channel the map holds can be had from [getChannel]: the
    deferred of its id is resolved, and on an open runtime [getChannel]
    returns it without changing anything. *)
Theorem registered_channels_are_resolved :
  forall (getLeaderCandidate : JsMap.t IClient -> option string)
         (analyzeTasks : string -> JsMap.t IClient -> list string -> option IHelpTasks)
         (r : Runtime),
    history getLeaderCandidate analyzeTasks r ->
    forall id,
      JsMap.has id (channels r) = true ->
      exists first,
        JsMap.get id (channelsDeferred r) = Some (Resolved first) /\
        (closed r = false -> getChannel id r = Ok (Resolved first) r).
Proof.
  intros cand analyze r Hr id Hid.
  destruct (history_invariant cand analyze r Hr) as (_ & H & _).
  destruct (H id Hid) as [first Hfirst].
  exists first. split; [exact Hfirst|].
  intros Hopen. rewrite getChannel_exact, Hopen.
  unfold JsMap.has. now rewrite Hfirst.
Qed.

(** A run of X14: the channel of the stopped container. *)
Lemma registered_channels_are_resolved_witness :
  closed Scenario.stopped = true /\
  exists first,
    JsMap.get "c1" (channelsDeferred Scenario.stopped) = Some (Resolved first) /\
    (closed Scenario.stopped = false ->
     getChannel "c1" Scenario.stopped = Ok (Resolved first) Scenario.stopped).
Proof.
  split; [reflexivity|].
  apply (registered_channels_are_resolved
           lowestOrderedCandidate Scenario.noTasks Scenario.stopped).
  - apply stopped_history.
  - reflexivity.
Defined.

(** X15. In every state that follows the constructor through calls of the
    embedded methods, returning or throwing, each attach message of the
    pending set is kept under the id it carries and has been handed to
    [submitFn]:
    what a reconnection resubmits is what was submitted. This holds also of
    the message [attachChannel] leaves behind when it throws for a channel
    that was never created. *)
Theorem pending_messages_were_submitted :
  forall (getLeaderCandidate : JsMap.t IClient -> option string)
         (analyzeTasks : string -> JsMap.t IClient -> list string -> option IHelpTasks)
         (r : Runtime),
    history getLeaderCandidate analyzeTasks r ->
    forall id message,
      JsMap.get id (pendingAttach r) = Some message ->
      am_id message = id /\
      In (Submit Attach (AttachContent message)) (trace r).
Proof.
  intros cand analyze r Hr.
  destruct (history_invariant cand analyze r Hr) as (_ & _ & H).
  exact H.
Qed.

(** A run of X15: attaching a channel that was never created throws, and
    leaves its message pending with no channel in the map. *)
Lemma pending_messages_were_submitted_witness :
  let ghost := Scenario.channel 9 "ghost" "TypeA" true in
  let message := mkAttachMessage "ghost" Scenario.header "TypeA" in
  let r := stateOf (attachChannel ghost Scenario.fresh) in
  attachChannel ghost Scenario.fresh = Throw TypeError r /\
  JsMap.has "ghost" (channels r) = false /\
  am_id message = "ghost" /\
  In (Submit Attach (AttachContent message)) (trace r).
Proof.
  intros ghost message r.
  split; [reflexivity|]. split; [reflexivity|].
  apply (pending_messages_were_submitted
           lowestOrderedCandidate Scenario.noTasks r).
  - apply history_call with (r := Scenario.fresh); [apply history_new|].
    apply call_attachChannel.
  - reflexivity.
Defined.

(** X18. The entries of the tree come in the order in which the channels
    were registered, one for each channel taken. So in every state that
    follows the constructor through calls of the embedded methods, returning
    or throwing, no two entries of the tree have the same path, in the tree
    [snapshotInternal] returns and in the one [stop] returns. *)
Theorem snapshot_entries_follow_registration :
  forall (getLeaderCandidate : JsMap.t IClient -> option string)
         (analyzeTasks : string -> JsMap.t IClient -> list string -> option IHelpTasks)
         (r : Runtime),
    (forall es r',
        snapshotInternal r = Ok es r' ->
        map path es
        = JsMap.keys (filter (fun kv => included (snd kv)) (channels r))) /\
    (history getLeaderCandidate analyzeTasks r ->
     (forall es r', snapshotInternal r = Ok es r' -> NoDup (map path es)) /\
     (forall es r', stop r = Ok es r' -> NoDup (map path es))).
Proof.
  intros cand analyze r.
  assert (P : forall (x : Runtime) es r',
             snapshotInternal x = Ok es r' ->
             map path es
             = JsMap.keys (filter (fun kv => included (snd kv)) (channels x))).
  { intros x es r'. unfold snapshotInternal.
    destruct (snapshotEntries (channels x)) as [e|es'] eqn:Hes; [discriminate|].
    intros [= <- <-]. apply snapshotEntries_expected in Hes. subst es'.
    apply expectedSnapshot_paths. }
  split; [apply P|].
  intros Hr. destruct (history_invariant cand analyze r Hr) as (Hn & _).
  split.
  - intros es r' H. rewrite (P _ _ _ H). now apply NoDup_keys_filter.
  - intros es r'. unfold stop. unfold bind at 1. unfold verifyNotClosed.
    destruct (closed r); [discriminate|].
    unfold bind, modify. intros H. rewrite (P _ _ _ H).
    now apply NoDup_keys_filter.
Qed.

(** A run of X18: the tree of the stopped container. *)
Lemma snapshot_entries_follow_registration_witness :
  exists es,
    snapshotInternal Scenario.stopped = Ok es Scenario.stopped /\
    map path es = ["c1"] /\
    NoDup (map path es).
Proof.
  exists (expectedSnapshot (channels Scenario.stopped)).
  destruct (snapshot_entries_follow_registration
              lowestOrderedCandidate Scenario.noTasks Scenario.stopped) as [H1 H2].
  split; [reflexivity|]. split.
  - exact (H1 _ Scenario.stopped eq_refl).
  - destruct (H2 (stopped_history _ _)) as [H _].
    exact (H _ Scenario.stopped eq_refl).
Defined.
